(** * Baseball-Statistical-AI: profile store, batting aggregates and lineup ranking

    A shallow embedding of [data_loader.py] and [optimizer.py].

    - Python [float] and numpy [float64] are IEEE binary64: they are Rocq's
      primitive [float], whose operations are specified by [SpecFloat].
    - numpy [int64] counters are [Z]; they are converted to binary64 by
      [of_int] exactly as numpy's true division does.
    - A pandas [DataFrame] is the list of its rows, in file order.
    - The file system, the name-resolution provider ([pybaseball.playerid_lookup])
      and the persisted classifier are fields of a read-only [World].
    - [print] and the calls to external capabilities are recorded in a trace;
      exceptions are explicit ([Raised]). *)

From Stdlib Require Import ZArith List String Ascii Bool Lia.
From Stdlib Require Import Floats Uint63.
From Stdlib Require Import Permutation Sorted.
From Stdlib Require Import Reals Lra.
Import ListNotations.

Set Warnings "-inexact-float".

Local Open Scope string_scope.
Local Open Scope Z_scope.

(** ** Python strings *)

Module PyStr.

(** [str.isspace] on the code points below 256. *)
Definition isspace (c : ascii) : bool :=
  let n := nat_of_ascii c in
  ((9 <=? n) && (n <=? 13) || (28 <=? n) && (n <=? 32) || (n =? 133) || (n =? 160))%nat.

Fixpoint lstrip (s : string) : string :=
  match s with
  | EmptyString => EmptyString
  | String c s' => if isspace c then lstrip s' else s
  end.

Fixpoint rstrip (s : string) : string :=
  match s with
  | EmptyString => EmptyString
  | String c s' =>
      match rstrip s' with
      | EmptyString => if isspace c then EmptyString else String c EmptyString
      | r => String c r
      end
  end.

(** [s.strip()] *)
Definition strip (s : string) : string := rstrip (lstrip s).

(** [s.split(' ')]: cut at every single space character; never returns
    the empty list. *)
Fixpoint split_space (s : string) : list string :=
  match s with
  | EmptyString => [EmptyString]
  | String c s' =>
      if Ascii.eqb c " "%char then EmptyString :: split_space s'
      else match split_space s' with
           | p :: ps => String c p :: ps
           | [] => [String c EmptyString]
           end
  end.

(** [' '.join(parts)] *)
Fixpoint join_space (parts : list string) : string :=
  match parts with
  | [] => EmptyString
  | [p] => p
  | p :: ps => p ++ " " ++ join_space ps
  end.

(** [s.split()]: the maximal runs of non-whitespace characters. *)
Fixpoint words (s : string) : list string :=
  match s with
  | EmptyString => []
  | String c s' =>
      if isspace c then words s'
      else match s' with
           | EmptyString => [String c EmptyString]
           | String c' _ =>
               if isspace c' then String c EmptyString :: words s'
               else match words s' with
                    | w :: ws => String c w :: ws
                    | [] => [String c EmptyString]
                    end
           end
  end.

(** [x in l] for a nullable string cell ([None] is NaN, never a member). *)
Definition isin (x : option string) (l : list string) : bool :=
  match x with
  | Some e => existsb (String.eqb e) l
  | None => false
  end.

(** [x == lit] for a nullable string cell. *)
Definition cell_eqb (x : option string) (lit : string) : bool :=
  match x with
  | Some e => String.eqb e lit
  | None => false
  end.

(** A string without whitespace; a string that is empty or starts a token. *)
Fixpoint no_whitespace (s : string) : bool :=
  match s with
  | EmptyString => true
  | String c s' => negb (isspace c) && no_whitespace s'
  end.

Definition starts_with_token (s : string) : bool :=
  match s with
  | EmptyString => true
  | String c _ => negb (isspace c)
  end.

End PyStr.

(** ** Numbers *)

(** numpy converts an [int64] operand of [/] to binary64 before dividing. *)
Definition of_int (n : Z) : float := PrimFloat.of_uint63 (Uint63.of_Z n).

(** ** The historical dataset *)

(** One row of [statcast_2024_sample.csv] (the columns the program reads). *)
Record PitchEvent := {
  pitcher : Z;
  batter : Z;
  events : option string;
  release_speed : float;
  release_spin_rate : float;
  p_throws : string;
  stand : string
}.

Definition DataFrame := list PitchEvent.

(** A row of the frame returned by [calculate_batter_stats] / stored in
    [batter_stats.csv]. *)
Record BatterStats := { avg : float; slg : float; iso : float }.

Module DataLoader.

Definition hit_events : list string := ["single"; "double"; "triple"; "home_run"].

Definition ab_events : list string :=
  hit_events ++ ["field_out"; "strikeout"; "force_out";
                 "grounded_into_double_play"; "fielders_choice"].

(** [mask.sum()] of a boolean column. *)
Definition count_rows (p : PitchEvent -> bool) (group : DataFrame) : Z :=
  Z.of_nat (List.length (filter p group)).

(** The inner helper [get_stats(group)]. *)
Definition get_stats (group : DataFrame) : BatterStats :=
  let hits := count_rows (fun r => PyStr.isin (events r) hit_events) group in
  let ab := count_rows (fun r => PyStr.isin (events r) ab_events) group in
  let singles := count_rows (fun r => PyStr.cell_eqb (events r) "single") group in
  let doubles := count_rows (fun r => PyStr.cell_eqb (events r) "double") group in
  let triples := count_rows (fun r => PyStr.cell_eqb (events r) "triple") group in
  let hrs := count_rows (fun r => PyStr.cell_eqb (events r) "home_run") group in
  let tb := singles + 2 * doubles + 3 * triples + 4 * hrs in
  if ab =? 0 then {| avg := 0%float; slg := 0%float; iso := 0%float |}
  else
    let avg := (of_int hits / of_int ab)%float in
    let slg := (of_int tb / of_int ab)%float in
    let iso := (slg - avg)%float in
    {| avg := avg; slg := slg; iso := iso |}.

(** Group keys of [df.groupby('batter')]: the distinct batter identifiers,
    in ascending order. *)
Fixpoint insert_key (k : Z) (ks : list Z) : list Z :=
  match ks with
  | [] => [k]
  | k' :: ks' =>
      if k <? k' then k :: ks
      else if k =? k' then ks
      else k' :: insert_key k ks'
  end.

Definition group_keys (df : DataFrame) : list Z :=
  fold_right (fun r ks => insert_key (batter r) ks) [] df.

Definition group_of (df : DataFrame) (b : Z) : DataFrame :=
  filter (fun r => batter r =? b) df.

(** [calculate_batter_stats(df)]: one row of statistics per batter,
    indexed by batter identifier. *)
Definition calculate_batter_stats (df : DataFrame) : list (Z * BatterStats) :=
  map (fun b => (b, get_stats (group_of df b))) (group_keys df).

(** Row of the result frame at index [b]. *)
Fixpoint loc (b : Z) (stats : list (Z * BatterStats)) : option BatterStats :=
  match stats with
  | [] => None
  | (k, s) :: rest => if k =? b then Some s else loc b rest
  end.

(** The counters of [get_stats], named so that properties can mention them. *)
Definition hits (group : DataFrame) : Z :=
  count_rows (fun r => PyStr.isin (events r) hit_events) group.

Definition at_bats (group : DataFrame) : Z :=
  count_rows (fun r => PyStr.isin (events r) ab_events) group.

Definition total_bases (group : DataFrame) : Z :=
  count_rows (fun r => PyStr.cell_eqb (events r) "single") group
  + 2 * count_rows (fun r => PyStr.cell_eqb (events r) "double") group
  + 3 * count_rows (fun r => PyStr.cell_eqb (events r) "triple") group
  + 4 * count_rows (fun r => PyStr.cell_eqb (events r) "home_run") group.

Definition all_zero : BatterStats := {| avg := 0%float; slg := 0%float; iso := 0%float |}.

(** A boolean as a count. *)
Definition b2z (b : bool) : Z := if b then 1 else 0.

End DataLoader.

(** ** Effects: trace of observable actions, explicit exceptions *)

(** The ordered 7-tuple handed to the scaler:
    [release_speed, release_spin_rate, p_throws, stand, avg, slg, iso]. *)
Record FeatureVector := {
  fv_release_speed : float;
  fv_release_spin_rate : float;
  fv_p_throws : Z;
  fv_stand : Z;
  fv_avg : float;
  fv_slg : float;
  fv_iso : float
}.

Inductive Effect :=
| Printed (line : string)
| PlayerIdLookup (last first : string)
| LoadModel
| LoadScaler
| ScalerTransform (X : list FeatureVector)
| ModelPredict (X_scaled : list (list float)).

(** The exceptions a run can meet.  [LookupFailure] stands for an error
    raised by the lookup provider, and [FrameError] for the [ValueError] or
    [KeyError] (by pandas version) of a merge or a column selection on a
    frame that lacks the expected columns.  [KeyboardInterrupt] derives from
    [BaseException] only, the others from [Exception]. *)
Inductive Exn := LookupFailure | IndexError | FrameError | KeyboardInterrupt.

(** [isinstance(e, Exception)] *)
Definition is_exception (e : Exn) : bool :=
  match e with
  | KeyboardInterrupt => false
  | _ => true
  end.

Inductive Outcome (A : Type) :=
| Returned (a : A)
| Raised (e : Exn).
Arguments Returned {A} a.
Arguments Raised {A} e.

(** A Python computation: its outcome and what it did on the way. *)
Definition Py (A : Type) : Type := Outcome A * list Effect.

Definition ret {A} (a : A) : Py A := (Returned a, []).

Definition bind {A B} (m : Py A) (k : A -> Py B) : Py B :=
  match m with
  | (Returned a, t) => let (r, t') := k a in (r, (t ++ t')%list)
  | (Raised e, t) => (Raised e, t)
  end.

Definition emit (ev : Effect) : Py unit := (Returned tt, [ev]).

Definition raise {A} (e : Exn) : Py A := (Raised e, []).

(** [try: body except: handler] (a bare [except] catches everything). *)
Definition try_except {A} (body : Py A) (handler : Exn -> Py A) : Py A :=
  match body with
  | (Returned a, t) => (Returned a, t)
  | (Raised e, t) => let (r, t') := handler e in (r, (t ++ t')%list)
  end.

(** [try: body except Exception as e: handler]: what is not an [Exception]
    passes through. *)
Definition try_except_exception {A} (body : Py A) (handler : Exn -> Py A) : Py A :=
  match body with
  | (Returned a, t) => (Returned a, t)
  | (Raised e, t) =>
      if is_exception e then let (r, t') := handler e in (r, (t ++ t')%list)
      else (Raised e, t)
  end.

Notation "x <- m ;; k" := (bind m (fun x => k))
  (at level 61, m at next level, right associativity).
Notation "m ;;; k" := (bind m (fun _ => k))
  (at level 61, right associativity).

Definition print (line : string) : Py unit := emit (Printed line).

(** Everything outside the source files: the files on disk ([None] when
    [os.path.exists] is false), and the library capabilities the program
    calls without defining them. *)
Record World := {
  (** [statcast_2024_sample.csv] *)
  cache_file : option DataFrame;
  (** [batter_stats.csv]: columns [batter, avg, slg, iso] *)
  batter_stats_file : option (list (Z * BatterStats));
  (** [baseball_model.keras]: the [predict] of the persisted classifier,
      one probability per scaled row *)
  model_file : option (list (list float) -> list float);
  (** [scaler.pkl]: the [transform] of the persisted scaler *)
  scaler_file : option (list FeatureVector -> list (list float));
  (** [pybaseball.playerid_lookup(last, first)]: the [key_mlbam] column of
      the candidates it returns, or an exception *)
  playerid_lookup : string -> string -> Outcome (list Z);
  (** [Series.mean()] *)
  series_mean : list float -> float
}.

Record PitcherProfile := {
  pp_release_speed : float;
  pp_release_spin_rate : float;
  pp_p_throws : Z
}.

Record BatterProfile := {
  bp_stand : Z;
  bp_avg : float;
  bp_slg : float;
  bp_iso : float
}.

Module Lookup.

Definition call_playerid_lookup (w : World) (last first : string) : Py (list Z) :=
  (playerid_lookup w last first, [PlayerIdLookup last first]).

(** [get_player_id(name)] *)
Definition get_player_id (w : World) (name : string) : Py (option Z) :=
  try_except
    (let parts := PyStr.split_space (PyStr.strip name) in
     if (List.length parts <? 2)%nat then ret None
     else
       let first := hd EmptyString parts in
       let last := PyStr.join_space (tl parts) in
       data <- call_playerid_lookup w last first ;;
       match data with
       | key_mlbam :: _ => ret (Some key_mlbam)
       | [] => ret None
       end)
    (fun _ => ret None).

(** Truth value of [pid] in [if pid:]. *)
Definition truthy (pid : option Z) : bool :=
  match pid with
  | Some k => negb (k =? 0)
  | None => false
  end.

Definition handedness (side : string) : Z := if String.eqb side "R" then 0 else 1.

(** The league-average fallback of [get_pitcher_profile]. *)
Definition league_average (w : World) (df : DataFrame) : PitcherProfile :=
  {| pp_release_speed := series_mean w (map release_speed df);
     pp_release_spin_rate := series_mean w (map release_spin_rate df);
     pp_p_throws := 0 |}.

(** [get_pitcher_profile(name)] *)
Definition get_pitcher_profile (w : World) (name : string) : Py (option PitcherProfile) :=
  match cache_file w with
  | None => ret None
  | Some df =>
      pid <- get_player_id w name ;;
      let fallback :=
        print ("Pitcher " ++ name ++ " not found in cache. Using league average.") ;;;
        ret (Some (league_average w df)) in
      if truthy pid then
        let player_data := filter (fun r => pitcher r =? match pid with Some k => k | None => 0 end) df in
        match player_data with
        | first_row :: _ =>
            ret (Some {| pp_release_speed := series_mean w (map release_speed player_data);
                         pp_release_spin_rate := series_mean w (map release_spin_rate player_data);
                         pp_p_throws := handedness (p_throws first_row) |})
        | [] => fallback
        end
      else fallback
  end.

(** The static default of [get_batter_profile]. *)
Definition default_batter_profile : BatterProfile :=
  {| bp_stand := 0; bp_avg := 0.240%float; bp_slg := 0.400%float; bp_iso := 0.160%float |}.

(** [get_batter_profile(name)] *)
Definition get_batter_profile (w : World) (name : string) : Py (option BatterProfile) :=
  match cache_file w, batter_stats_file w with
  | Some df, Some stats_df =>
      pid <- get_player_id w name ;;
      let fallback :=
        print ("Batter " ++ name ++ " not found in cache. Assuming League Average.") ;;;
        ret (Some default_batter_profile) in
      if truthy pid then
        let k := match pid with Some k => k | None => 0 end in
        let player_data := filter (fun r => batter r =? k) df in
        let stand :=
          match player_data with
          | first_row :: _ => handedness (stand first_row)
          | [] => 0
          end in
        let player_stats := filter (fun kv => fst kv =? k) stats_df in
        match player_stats with
        | (_, s) :: _ =>
            ret (Some {| bp_stand := stand; bp_avg := avg s; bp_slg := slg s; bp_iso := iso s |})
        | [] => fallback
        end
      else fallback
  | _, _ => ret None
  end.

End Lookup.

(** ** The lineup optimizer *)

(** One entry of the result list: [{'batter': ..., 'predicted_hit_prob': ...}]. *)
Record MatchupPrediction := {
  mp_batter : string;
  predicted_hit_prob : float
}.

(** [optimize_lineup] returns either a message ([str]) or the ranked list. *)
Inductive LineupResult :=
| ErrorMessage (msg : string)
| Ranking (results : list MatchupPrediction).

(** [list.sort(key=..., reverse=...)], by its documented contract: a stable
    sort that compares keys with [<] only; with [reverse=True] the list is
    reversed, sorted, and reversed again, which keeps equal keys in their
    original order.  The contract fixes the resulting order when [<] orders
    the keys, that is when no key is NaN; with a NaN key the order CPython
    produces depends on its merge strategy, and the model stands for the
    entries of the result only, not for their order. *)
Module PyList.
Section Sort.
Context {A K : Type}.
Variable key : A -> K.
Variable lt : K -> K -> bool.

(** [x] comes before every element of [l] in the input: it is placed
    before the first element that is not smaller than it. *)
Fixpoint insert_sorted (x : A) (l : list A) : list A :=
  match l with
  | [] => [x]
  | y :: l' => if lt (key y) (key x) then y :: insert_sorted x l' else x :: l
  end.

Definition sort (l : list A) : list A := fold_right insert_sorted [] l.

Definition sort_reverse (l : list A) : list A := rev (sort (rev l)).
End Sort.

(** Order notions for a list sorted on [key] by [lt]; [valid] marks the
    keys on which [lt] is a strict weak order. *)
Section Order.
Context {A K : Type}.
Variable key : A -> K.
Variable lt : K -> K -> bool.
Variable valid : K -> Prop.

Definition keys_valid (l : list A) : Prop := Forall (fun x => valid (key x)) l.

(** No element is smaller than an earlier one. *)
Definition ascending : list A -> Prop :=
  StronglySorted (fun x y => lt (key y) (key x) = false).

(** No element is greater than an earlier one. *)
Definition descending : list A -> Prop :=
  StronglySorted (fun x y => lt (key x) (key y) = false).

(** The entries whose key is neither smaller nor greater than [k]. *)
Definition same_key (k : K) (x : A) : bool :=
  negb (lt (key x) k) && negb (lt k (key x)).
End Order.
End PyList.

Module Optimizer.
Import Lookup.

Definition feature_row (pitcher_stats : PitcherProfile) (batter_stats : BatterProfile)
  : FeatureVector :=
  {| fv_release_speed := pp_release_speed pitcher_stats;
     fv_release_spin_rate := pp_release_spin_rate pitcher_stats;
     fv_p_throws := pp_p_throws pitcher_stats;
     fv_stand := bp_stand batter_stats;
     fv_avg := bp_avg batter_stats;
     fv_slg := bp_slg batter_stats;
     fv_iso := bp_iso batter_stats |}.

(** The loop [for batter in batter_names], returning
    [(lineup_data, valid_batters)]. *)
Fixpoint collect_lineup (w : World) (pitcher_stats : PitcherProfile)
    (batter_names : list string) : Py (list FeatureVector * list string) :=
  match batter_names with
  | [] => ret ([], [])
  | batter :: rest =>
      batter_stats <- get_batter_profile w batter ;;
      match batter_stats with
      | Some bs =>
          acc <- collect_lineup w pitcher_stats rest ;;
          ret (feature_row pitcher_stats bs :: fst acc, batter :: snd acc)
      | None =>
          print ("Batter " ++ batter ++ " not found.") ;;;
          collect_lineup w pitcher_stats rest
      end
  end.

(** The loop [for i, batter in enumerate(valid_batters)], reading
    [predictions[i][0]]. *)
Fixpoint zip_results (i : nat) (valid_batters : list string) (predictions : list float)
  : Py (list MatchupPrediction) :=
  match valid_batters with
  | [] => ret []
  | batter :: rest =>
      match nth_error predictions i with
      | Some p =>
          results <- zip_results (S i) rest predictions ;;
          ret ({| mp_batter := batter; predicted_hit_prob := p |} :: results)
      | None => raise IndexError
      end
  end.

Definition model_not_found : string :=
  "Model or Scaler not found. Please train the model first.".

Definition no_valid_batters : string := "No valid batters found.".

(** [optimize_lineup(pitcher_name, batter_names)] *)
Definition optimize_lineup (w : World) (pitcher_name : string) (batter_names : list string)
  : Py LineupResult :=
  match model_file w, scaler_file w with
  | Some model_predict, Some scaler_transform =>
      emit LoadModel ;;;
      emit LoadScaler ;;;
      pitcher_stats <- get_pitcher_profile w pitcher_name ;;
      match pitcher_stats with
      | None =>
          ret (ErrorMessage ("Pitcher " ++ pitcher_name ++ " not found (or no data available)."))
      | Some ps =>
          print ("Optimizing lineup against " ++ pitcher_name ++ "...") ;;;
          acc <- collect_lineup w ps batter_names ;;
          let lineup_data := fst acc in
          let valid_batters := snd acc in
          match lineup_data with
          | [] => ret (ErrorMessage no_valid_batters)
          | _ :: _ =>
              emit (ScalerTransform lineup_data) ;;;
              let X_scaled := scaler_transform lineup_data in
              emit (ModelPredict X_scaled) ;;;
              let predictions := model_predict X_scaled in
              results <- zip_results 0 valid_batters predictions ;;
              ret (Ranking (PyList.sort_reverse predicted_hit_prob PrimFloat.ltb results))
          end
      end
  | _, _ => ret (ErrorMessage model_not_found)
  end.

(** The trace holds no call of the classifier's [predict]. *)
Definition no_predict (trace : list Effect) : bool :=
  forallb (fun ev => match ev with ModelPredict _ => false | _ => true end) trace.

Definition to_prediction (bp : string * float) : MatchupPrediction :=
  {| mp_batter := fst bp; predicted_hit_prob := snd bp |}.


(** A predicted hit probability lies in [0,1]. *)
Definition probability (p : float) : Prop :=
  (0 <=? p)%float = true /\ (p <=? 1)%float = true.

End Optimizer.

(** ** The aggregates as the specification words them *)

Module AggregateSpec.

Definition is_hit (e : option string) : bool :=
  match e with
  | Some e => String.eqb e "single" || String.eqb e "double"
              || String.eqb e "triple" || String.eqb e "home_run"
  | None => false
  end.

(** field-out, strikeout, force-out, double-play, fielder's-choice *)
Definition is_qualifying_out (e : option string) : bool :=
  match e with
  | Some e => String.eqb e "field_out" || String.eqb e "strikeout"
              || String.eqb e "force_out" || String.eqb e "grounded_into_double_play"
              || String.eqb e "fielders_choice"
  | None => false
  end.

(** Bases earned by one event: 1/2/3/4 for single/double/triple/home-run. *)
Definition bases (e : option string) : Z :=
  match e with
  | Some e =>
      if String.eqb e "single" then 1
      else if String.eqb e "double" then 2
      else if String.eqb e "triple" then 3
      else if String.eqb e "home_run" then 4
      else 0
  | None => 0
  end.

Definition count (p : option string -> bool) (history : DataFrame) : Z :=
  Z.of_nat (List.length (filter (fun r => p (events r)) history)).

Definition hits (history : DataFrame) : Z := count is_hit history.

Definition at_bats (history : DataFrame) : Z :=
  hits history + count is_qualifying_out history.

Definition total_bases (history : DataFrame) : Z :=
  fold_right (fun r acc => bases (events r) + acc) 0 history.

(** average = hits/at-bats, slugging = total-bases/at-bats,
    isolated-power = slugging - average; all 0.0 when at-bats = 0. *)
Definition aggregates (history : DataFrame) : BatterStats :=
  if at_bats history =? 0 then {| avg := 0%float; slg := 0%float; iso := 0%float |}
  else
    let average := (of_int (hits history) / of_int (at_bats history))%float in
    let slugging := (of_int (total_bases history) / of_int (at_bats history))%float in
    {| avg := average; slg := slugging; iso := (slugging - average)%float |}.

End AggregateSpec.

(** ** Binary64 values as real numbers *)

Module Binary64.

(** A binary64 value that is not NaN. *)
Definition not_nan (x : float) : Prop := Prim2SF x <> S754_nan.

(** Powers of two. *)
Definition bpow (e : Z) : R := powerRZ 2 e.

(** [u] lies in [[m, m+1)], at the place the location tells. *)
Definition located (m : Z) (l : location) (u : R) : Prop :=
  match l with
  | loc_Exact => u = IZR m
  | loc_Inexact Lt => (IZR m < u < IZR m + / 2)%R
  | loc_Inexact Eq => (u = IZR m + / 2)%R
  | loc_Inexact Gt => (IZR m + / 2 < u < IZR m + 1)%R
  end.

Definition rec_located (mrs : shr_record) (u : R) : Prop :=
  located (shr_m mrs) (loc_of_shr_record mrs) u.

(** [M] is the integer nearest to [u], the even one of the two at a tie. *)
Definition nearest_even (u : R) (M : Z) : Prop :=
  (IZR M - / 2 <= u <= IZR M + / 2)%R
  /\ ((u = IZR M - / 2 \/ u = IZR M + / 2)%R -> Z.even M = true).

(** The normal binary64 number [M * 2^E] (53-bit [M]) is [x] rounded to
    nearest-even: [x] lies in the binade of exponent [E0], is rounded there
    to the integer [M0], and a carry to [2^53] moves to the next binade. *)
Definition RNE (x : R) (M : positive) (E : Z) : Prop :=
  exists M0 E0,
    (IZR (2 ^ 52) <= x * bpow (- E0) < IZR (2 ^ 53))%R
    /\ nearest_even (x * bpow (- E0)) M0
    /\ ((M0 < 2 ^ 53 /\ Zpos M = M0 /\ E = E0)
        \/ (M0 = 2 ^ 53 /\ Zpos M = 2 ^ 52 /\ E = E0 + 1)).

(** The real value of a positive finite number. *)
Definition value (M : positive) (E : Z) : R := (IZR (Zpos M) * bpow E)%R.

End Binary64.

(** ** Concrete scenarios *)

Module Scenario.
Import DataLoader.

Definition cole : Z := 543037.
Definition judge : Z := 592450.

Definition pitch (e : option string) : PitchEvent :=
  {| pitcher := cole; batter := judge; events := e;
     release_speed := 96.5%float; release_spin_rate := 2400%float;
     p_throws := "R"; stand := "R" |}.

(** Three pitches of one pitcher to one batter: a single, a strikeout and a
    pitch that ended no plate appearance. *)
Definition three_row_history : DataFrame :=
  [pitch (Some "single"); pitch None; pitch (Some "strikeout")].

(** A provider that knows two players, fails on the last name "Down" and
    finds nobody else. *)
Definition provider (last first : string) : Outcome (list Z) :=
  if String.eqb last "Judge" && String.eqb first "Aaron" then Returned [judge]
  else if String.eqb last "Cole" && String.eqb first "Gerrit" then Returned [cole]
  else if String.eqb last "Down" then Raised LookupFailure
  else Returned [].

(** [Series.mean] on a short column: NaN cells are skipped, the others are
    summed from left to right and divided by their number (NaN when there
    is none).  Long columns, which numpy sums pairwise, are outside this
    stand-in. *)
Definition plain_mean (xs : list float) : float :=
  let present := filter (fun x => negb (PrimFloat.is_nan x)) xs in
  (fold_left PrimFloat.add present 0 / of_int (Z.of_nat (List.length present)))%float.

Definition unit_scaler (X : list FeatureVector) : list (list float) :=
  map (fun v => [fv_release_speed v; fv_release_spin_rate v; of_int (fv_p_throws v);
                 of_int (fv_stand v); fv_avg v; fv_slg v; fv_iso v]) X.

(** A classifier answering the probabilities of the ranking scenario. *)
Definition four_probabilities (X_scaled : list (list float)) : list float :=
  [0.3; 0.7; 0.7; 0.1]%float.

Definition full_world : World :=
  {| cache_file := Some three_row_history;
     batter_stats_file := Some (calculate_batter_stats three_row_history);
     model_file := Some four_probabilities;
     scaler_file := Some unit_scaler;
     playerid_lookup := provider;
     series_mean := plain_mean |}.

Definition world_without_cache : World :=
  {| cache_file := None;
     batter_stats_file := Some (calculate_batter_stats three_row_history);
     model_file := Some four_probabilities;
     scaler_file := Some unit_scaler;
     playerid_lookup := provider;
     series_mean := plain_mean |}.

Definition world_without_batter_stats : World :=
  {| cache_file := Some three_row_history;
     batter_stats_file := None;
     model_file := Some four_probabilities;
     scaler_file := Some unit_scaler;
     playerid_lookup := provider;
     series_mean := plain_mean |}.

Definition world_without_scaler : World :=
  {| cache_file := Some three_row_history;
     batter_stats_file := Some (calculate_batter_stats three_row_history);
     model_file := Some four_probabilities;
     scaler_file := None;
     playerid_lookup := provider;
     series_mean := plain_mean |}.

(** A history without any at-bat, and a lineup of four names. *)
Definition walk_only_history : DataFrame := [pitch (Some "walk"); pitch None].

Definition lineup : list string :=
  ["Juan Soto"; "Aaron Judge"; "Nobody Here"; "Madonna"].

End Scenario.

From Stdlib Require DecimalString.

(** ** Formatting and splitting *)

Module PyFormat.

(** [str(n)] of an integer, as an f-string prints it. *)
Definition show_int (n : Z) : string := DecimalString.NilZero.string_of_int (Z.to_int n).

(** [s.split(sep)] for a one-character separator; never the empty list. *)
Fixpoint split_char (sep : ascii) (s : string) : list string :=
  match s with
  | EmptyString => [EmptyString]
  | String c s' =>
      if Ascii.eqb c sep then EmptyString :: split_char sep s'
      else match split_char sep s' with
           | p :: ps => String c p :: ps
           | [] => [String c EmptyString]
           end
  end.

(** The newline character. *)
Definition newline : string := String (ascii_of_nat 10) EmptyString.

End PyFormat.

(** ** The lookup debugging script ([debug_lookup.py]) *)

Module DebugLookup.
Import PyFormat.

(** The column a [role] argument names; the script passes ['batter'] or
    ['pitcher']. *)
Inductive Role := RoleBatter | RolePitcher.

Definition role_name (role : Role) : string :=
  match role with RoleBatter => "batter" | RolePitcher => "pitcher" end.

Definition role_column (role : Role) (r : PitchEvent) : Z :=
  match role with RoleBatter => batter r | RolePitcher => pitcher r end.

(** [debug_lookup(last, first)]; [describe] is [str(e)] of a caught exception. *)
Definition debug_lookup (describe : Exn -> string) (w : World) (last first : string)
  : Py (option Z) :=
  print ("Looking up " ++ first ++ " " ++ last ++ "...") ;;;
  try_except_exception
    (data <- Lookup.call_playerid_lookup w last first ;;
     match data with
     | pid :: _ =>
         print ("Found ID: " ++ show_int pid) ;;;
         ret (Some pid)
     | [] =>
         print "Player not found in lookup." ;;;
         ret None
     end)
    (fun e =>
       print ("Lookup error: " ++ describe e) ;;;
       ret None).

(** [check_cache(pid, role)] *)
Definition check_cache (w : World) (pid : option Z) (role : Role) : Py unit :=
  match cache_file w with
  | None => print "Cache file not found."
  | Some df =>
      print ("Cache size: " ++ show_int (Z.of_nat (List.length df)) ++ " rows") ;;;
      if Lookup.truthy pid then
        let id := match pid with Some k => k | None => 0 end in
        let count := List.length (filter (fun r => role_column role r =? id) df) in
        print ("ID " ++ show_int id ++ " found " ++ show_int (Z.of_nat count)
               ++ " times in " ++ role_name role ++ " column.")
      else print "No ID to check."
  end.

End DebugLookup.

(** ** Reading a trace *)

Module Trace.

(** The (last, first) pairs handed to [playerid_lookup], in call order. *)
Fixpoint provider_calls (trace : list Effect) : list (string * string) :=
  match trace with
  | [] => []
  | PlayerIdLookup last first :: rest => (last, first) :: provider_calls rest
  | _ :: rest => provider_calls rest
  end.

(** The lines written by [print], in order. *)
Fixpoint printed_lines (trace : list Effect) : list string :=
  match trace with
  | [] => []
  | Printed line :: rest => line :: printed_lines rest
  | _ :: rest => printed_lines rest
  end.

(** The calls of [scaler.transform] and [model.predict], in order. *)
Definition model_calls (trace : list Effect) : list Effect :=
  filter (fun ev => match ev with
                    | ScalerTransform _ | ModelPredict _ => true
                    | _ => false
                    end) trace.

(** The characters of a string. *)
Definition chars (s : string) : list ascii := list_ascii_of_string s.

End Trace.

(** ** Fetching and preprocessing ([data_loader.py], the training side) *)

(** One row of [processed_data.csv]: the columns
    [release_speed, release_spin_rate, p_throws, stand, avg, slg, iso, is_hit];
    the two handedness columns after [.map({'R': 0, 'L': 1})], where a value
    outside the dictionary becomes NaN ([None]). *)
Record TrainingRow := {
  tr_release_speed : float;
  tr_release_spin_rate : float;
  tr_p_throws : option Z;
  tr_stand : option Z;
  tr_avg : float;
  tr_slg : float;
  tr_iso : float;
  is_hit : Z
}.

(** The working directory of the loader script: the files and providers of
    [World], the file [processed_data.csv], and [pybaseball.statcast]. *)
Record Workspace := {
  ws_world : World;
  ws_processed_data : option (list TrainingRow);
  statcast : string -> string -> Outcome DataFrame
}.

Inductive LoaderEffect :=
| Shown (line : string)
| StatcastRequest (start_dt end_dt : string).

Module Loader.
Import DataLoader.

(** [data.to_csv(CACHE_FILE, index=False)] *)
Definition write_cache (ws : Workspace) (data : DataFrame) : Workspace :=
  {| ws_world :=
       {| cache_file := Some data;
          batter_stats_file := batter_stats_file (ws_world ws);
          model_file := model_file (ws_world ws);
          scaler_file := scaler_file (ws_world ws);
          playerid_lookup := playerid_lookup (ws_world ws);
          series_mean := series_mean (ws_world ws) |};
     ws_processed_data := ws_processed_data ws;
     statcast := statcast ws |}.

(** [batter_stats.to_csv('batter_stats.csv')] *)
Definition write_batter_stats (ws : Workspace) (stats : list (Z * BatterStats)) : Workspace :=
  {| ws_world :=
       {| cache_file := cache_file (ws_world ws);
          batter_stats_file := Some stats;
          model_file := model_file (ws_world ws);
          scaler_file := scaler_file (ws_world ws);
          playerid_lookup := playerid_lookup (ws_world ws);
          series_mean := series_mean (ws_world ws) |};
     ws_processed_data := ws_processed_data ws;
     statcast := statcast ws |}.

(** [df.to_csv('processed_data.csv', index=False)] *)
Definition write_processed_data (ws : Workspace) (rows : list TrainingRow) : Workspace :=
  {| ws_world := ws_world ws;
     ws_processed_data := Some rows;
     statcast := statcast ws |}.

(** [fetch_data(start_date, end_date)]: the outcome, what was shown and
    requested, and the workspace afterwards. *)
Definition fetch_data (ws : Workspace) (start_date end_date : string)
  : Outcome DataFrame * list LoaderEffect * Workspace :=
  match cache_file (ws_world ws) with
  | Some cached =>
      (Returned cached, [Shown "Loading data from statcast_2024_sample.csv..."], ws)
  | None =>
      let fetching :=
        Shown ("Fetching Statcast data from " ++ start_date ++ " to " ++ end_date ++ "...") in
      match statcast ws start_date end_date with
      | Raised e => (Raised e, [fetching; StatcastRequest start_date end_date], ws)
      | Returned data =>
          (Returned data,
           [fetching; StatcastRequest start_date end_date;
            Shown "Data saved to statcast_2024_sample.csv"],
           write_cache ws data)
      end
  end.

(** The label [1 if x in hit_events else 0]. *)
Definition is_hit_label (x : option string) : Z :=
  if PyStr.isin x hit_events then 1 else 0.

(** [data.merge(batter_stats, on='batter', how='left')]: every row of
    [data], in order, once per matching row of [batter_stats], or once
    with missing statistics when there is none. *)
Definition merge_left (data : DataFrame) (batter_stats : list (Z * BatterStats))
  : list (PitchEvent * option BatterStats) :=
  flat_map
    (fun r =>
       match filter (fun kv => fst kv =? batter r) batter_stats with
       | [] => [(r, None)]
       | matches => map (fun kv => (r, Some (snd kv))) matches
       end)
    data.

(** A row that [dropna] keeps: no NaN in the selected columns (the two
    handedness cells of a [PitchEvent] are never null, [is_hit] is 0 or 1). *)
Definition complete (row : PitchEvent * option BatterStats) : bool :=
  negb (PrimFloat.is_nan (release_speed (fst row)))
  && negb (PrimFloat.is_nan (release_spin_rate (fst row)))
  && match snd row with
     | Some s => negb (PrimFloat.is_nan (avg s)) && negb (PrimFloat.is_nan (slg s))
                 && negb (PrimFloat.is_nan (iso s))
     | None => false
     end.

(** [.map({'R': 0, 'L': 1})] *)
Definition encode_side (side : string) : option Z :=
  if String.eqb side "R" then Some 0
  else if String.eqb side "L" then Some 1
  else None.

Definition encode_row (r : PitchEvent) (s : BatterStats) : TrainingRow :=
  {| tr_release_speed := release_speed r;
     tr_release_spin_rate := release_spin_rate r;
     tr_p_throws := encode_side (p_throws r);
     tr_stand := encode_side (stand r);
     tr_avg := avg s;
     tr_slg := slg s;
     tr_iso := iso s;
     is_hit := is_hit_label (events r) |}.

(** [preprocess_data(data)]: the outcome and the workspace afterwards.  When
    the data has no group, [calculate_batter_stats] answers a frame without
    the columns [avg], [slg] and [iso]; it is written to [batter_stats.csv]
    all the same, and the merge or the selection [data[features]] that
    follows fails on the columns of that frame. *)
Definition preprocess_data (ws : Workspace) (data : DataFrame)
  : Outcome (list TrainingRow) * Workspace :=
  let batter_stats := calculate_batter_stats data in
  let ws1 := write_batter_stats ws batter_stats in
  match batter_stats with
  | [] => (Raised FrameError, ws1)
  | _ :: _ =>
      let merged := merge_left data batter_stats in
      let kept := filter complete merged in
      let df :=
        flat_map (fun row => match snd row with
                             | Some s => [encode_row (fst row) s]
                             | None => []
                             end) kept in
      (Returned df, write_processed_data ws1 df)
  end.



End Loader.

(** ** The command-line entry point ([main.py]) *)

(** What [main] reads besides [sys.argv]: the answers typed at the two
    [input] prompts (a console that answers both), and the rendering
    [f"{p:.3f}"] of a probability. *)
Record Console := {
  input : string -> string;
  format_3f : float -> string
}.

Module Main.
Import PyFormat.

(** [[b.strip() for b in s.split(',')]] *)
Definition parse_batters (s : string) : list string :=
  map PyStr.strip (split_char ","%char s).

(** The pitcher and the batter list, from [sys.argv] when it has more than
    two entries and from the two prompts otherwise. *)
Definition arguments (console : Console) (argv : list string) : string * list string :=
  if (2 <? List.length argv)%nat then
    (nth 1 argv EmptyString, parse_batters (nth 2 argv EmptyString))
  else
    let pitcher := input console "Enter Pitcher Name (e.g. Gerrit Cole): " in
    let batters_input :=
      input console
        "Enter Batter Names (comma separated, e.g. Aaron Judge, Juan Soto): " in
    (pitcher, parse_batters batters_input).

(** [f"{i+1}. {player['batter']} (Hit Prob: {player['predicted_hit_prob']:.3f})"] *)
Definition ranking_line (console : Console) (i : nat) (player : MatchupPrediction)
  : string :=
  show_int (Z.of_nat (i + 1)) ++ ". " ++ mp_batter player
  ++ " (Hit Prob: " ++ format_3f console (predicted_hit_prob player) ++ ")".

(** The loop [for i, player in enumerate(results)]. *)
Fixpoint print_ranking (console : Console) (i : nat) (results : list MatchupPrediction)
  : Py unit :=
  match results with
  | [] => ret tt
  | player :: rest =>
      print (ranking_line console i player) ;;;
      print_ranking console (S i) rest
  end.

Definition welcome : string := "Welcome to the Baseball Lineup Optimizer!".

Definition optimal_lineup : string := newline ++ "Optimal Lineup:".

(** [main()], given [sys.argv]. *)
Definition main (console : Console) (w : World) (argv : list string) : Py unit :=
  print welcome ;;;
  let '(pitcher, batters) := arguments console argv in
  print (newline ++ "Optimizing lineup against " ++ pitcher ++ "...") ;;;
  results <- Optimizer.optimize_lineup w pitcher batters ;;
  match results with
  | ErrorMessage msg => print ("Error: " ++ msg)
  | Ranking ranked =>
      print optimal_lineup ;;;
      print_ranking console 0 ranked
  end.

End Main.

(** ** A concrete session *)

Module Session.
Import Scenario.

(** A classifier that answers even odds for every row it is given. *)
Definition even_odds (X_scaled : list (list float)) : list float :=
  map (fun _ => 0.5%float) X_scaled.

Definition trained_world : World :=
  {| cache_file := Some three_row_history;
     batter_stats_file := Some (DataLoader.calculate_batter_stats three_row_history);
     model_file := Some even_odds;
     scaler_file := Some unit_scaler;
     playerid_lookup := provider;
     series_mean := plain_mean |}.

(** A console where nothing is typed; every probability shown is 0.5. *)
Definition console : Console :=
  {| input := fun _ => EmptyString;
     format_3f := fun _ => "0.500" |}.

Definition argv : list string := ["main.py"; "Gerrit Cole"; "Aaron Judge, Juan Soto"].

(** A provider interrupted from the keyboard during every lookup. *)
Definition interrupted_world : World :=
  {| cache_file := Some three_row_history;
     batter_stats_file := Some (DataLoader.calculate_batter_stats three_row_history);
     model_file := Some even_odds;
     scaler_file := Some unit_scaler;
     playerid_lookup := fun _ _ => Raised KeyboardInterrupt;
     series_mean := plain_mean |}.

(** A directory without any file, and a service that answers the three-row
    history for every range of dates. *)
Definition empty_directory : Workspace :=
  {| ws_world :=
       {| cache_file := None;
          batter_stats_file := None;
          model_file := None;
          scaler_file := None;
          playerid_lookup := provider;
          series_mean := plain_mean |};
     ws_processed_data := None;
     statcast := fun _ _ => Returned three_row_history |}.

End Session.

(** * Properties *)

(** ** Batting aggregates *)

Module AggregateFacts.
Import DataLoader.

Lemma get_stats_zero group : at_bats group = 0 -> get_stats group = all_zero.
Proof.
  unfold at_bats, get_stats. intros ->. reflexivity.
Qed.

Lemma get_stats_pos group :
  at_bats group <> 0 ->
  get_stats group =
    {| avg := (of_int (hits group) / of_int (at_bats group))%float;
       slg := (of_int (total_bases group) / of_int (at_bats group))%float;
       iso := (of_int (total_bases group) / of_int (at_bats group)
               - of_int (hits group) / of_int (at_bats group))%float |}.
Proof.
  intros Hab. unfold get_stats. fold (at_bats group).
  destruct (Z.eqb_spec (at_bats group) 0) as [E | _]; [contradiction | reflexivity].
Qed.

Lemma count_rows_nonneg p group : 0 <= count_rows p group.
Proof. unfold count_rows. lia. Qed.

Lemma count_rows_cons p r group :
  count_rows p (r :: group) = (if p r then 1 else 0) + count_rows p group.
Proof.
  unfold count_rows. simpl. destruct (p r); simpl List.length; lia.
Qed.

Lemma insert_key_In k x ks : In x (insert_key k ks) <-> x = k \/ In x ks.
Proof.
  induction ks as [| k' ks IH]; simpl.
  - intuition.
  - destruct (Z.ltb_spec k k').
    + simpl. intuition.
    + destruct (Z.eqb_spec k k') as [-> | Hne]; simpl.
      * intuition.
      * rewrite IH. intuition.
Qed.

Lemma group_keys_In df b : In b (group_keys df) <-> In b (map batter df).
Proof.
  induction df as [| r df IH]; simpl.
  - tauto.
  - rewrite insert_key_In, IH. intuition.
Qed.

Lemma loc_map_keys (f : Z -> BatterStats) b ks :
  loc b (map (fun k => (k, f k)) ks) = if in_dec Z.eq_dec b ks then Some (f b) else None.
Proof.
  induction ks as [| k ks IH]; simpl; [reflexivity |].
  destruct (Z.eqb_spec k b) as [-> | Hne].
  - destruct (Z.eq_dec b b); [reflexivity | contradiction].
  - rewrite IH. destruct (Z.eq_dec k b); [contradiction |].
    destruct (in_dec Z.eq_dec b ks); reflexivity.
Qed.

(** Every batter of the dataset has exactly one row in the result, the
    statistics of its own rows; other identifiers have none. *)
Lemma loc_calculate_batter_stats df b :
  loc b (calculate_batter_stats df) =
    if in_dec Z.eq_dec b (map batter df) then Some (get_stats (group_of df b)) else None.
Proof.
  unfold calculate_batter_stats.
  rewrite (loc_map_keys (fun k => get_stats (group_of df k))).
  destruct (in_dec Z.eq_dec b (group_keys df)) as [Hin | Hout];
    destruct (in_dec Z.eq_dec b (map batter df)) as [Hin' | Hout']; try reflexivity.
  - apply group_keys_In in Hin. contradiction.
  - apply group_keys_In in Hin'. contradiction.
Qed.

Lemma loc_present df b :
  In b (map batter df) ->
  loc b (calculate_batter_stats df) = Some (get_stats (group_of df b)).
Proof.
  intros Hin. rewrite loc_calculate_batter_stats.
  destruct (in_dec Z.eq_dec b (map batter df)); [reflexivity | contradiction].
Qed.

Lemma loc_some df b s :
  loc b (calculate_batter_stats df) = Some s ->
  In b (map batter df) /\ s = get_stats (group_of df b).
Proof.
  rewrite loc_calculate_batter_stats.
  destruct (in_dec Z.eq_dec b (map batter df)); [| discriminate].
  intros [= <-]. auto.
Qed.

(** C3. For every dataset and every batter appearing in it whose rows hold
    no at-bat event, the statistics row of [calculate_batter_stats] is
    [avg = slg = iso = 0.0] exactly: the [ab == 0] guard returns before any
    division. *)
Theorem zero_at_bats_all_zero (df : DataFrame) (b : Z) :
  In b (map batter df) ->
  at_bats (group_of df b) = 0 ->
  loc b (calculate_batter_stats df)
    = Some {| avg := 0%float; slg := 0%float; iso := 0%float |}.
Proof.
  intros Hin Hab.
  rewrite (loc_present _ _ Hin).
  now rewrite (get_stats_zero _ Hab).
Qed.

(** C4. For every dataset and every batter with at-bats > 0, the
    isolated power of the batter's row is the binary64 difference of the
    row's slugging and the row's average (which are the quotients
    total-bases/at-bats and hits/at-bats). *)
Theorem iso_is_slg_minus_avg (df : DataFrame) (b : Z) (s : BatterStats) :
  loc b (calculate_batter_stats df) = Some s ->
  0 < at_bats (group_of df b) ->
  iso s = (slg s - avg s)%float
  /\ avg s = (of_int (hits (group_of df b)) / of_int (at_bats (group_of df b)))%float
  /\ slg s = (of_int (total_bases (group_of df b)) / of_int (at_bats (group_of df b)))%float.
Proof.
  intros Hloc Hab.
  destruct (loc_some _ _ _ Hloc) as [_ ->].
  rewrite get_stats_pos by lia. simpl. auto.
Qed.

End AggregateFacts.

Module AggregateRefinement.
Import DataLoader AggregateFacts.

Lemma count_rows_ext p q group :
  (forall r, p r = q r) -> count_rows p group = count_rows q group.
Proof.
  intros Hpq. induction group as [| r g IH]; [reflexivity |].
  rewrite !count_rows_cons, IH, Hpq. reflexivity.
Qed.

Lemma count_rows_disjoint_or p q group :
  (forall r, p r && q r = false) ->
  count_rows (fun r => p r || q r) group = count_rows p group + count_rows q group.
Proof.
  intros Hd. induction group as [| r g IH]; [reflexivity |].
  rewrite !count_rows_cons, IH. specialize (Hd r).
  destruct (p r), (q r); cbn [orb andb] in *; try discriminate; lia.
Qed.

Ltac case_event e :=
  destruct (String.eqb_spec e "single"); [subst; reflexivity |];
  destruct (String.eqb_spec e "double"); [subst; reflexivity |];
  destruct (String.eqb_spec e "triple"); [subst; reflexivity |];
  destruct (String.eqb_spec e "home_run"); [subst; reflexivity |].

Lemma isin_hit_events e : PyStr.isin e hit_events = AggregateSpec.is_hit e.
Proof.
  destruct e as [e |]; [| reflexivity]. simpl.
  now rewrite orb_false_r, !orb_assoc.
Qed.

Lemma isin_ab_events e :
  PyStr.isin e ab_events = AggregateSpec.is_hit e || AggregateSpec.is_qualifying_out e.
Proof.
  destruct e as [e |]; [| reflexivity]. simpl.
  now rewrite orb_false_r, !orb_assoc.
Qed.

Lemma hit_not_out e :
  AggregateSpec.is_hit e && AggregateSpec.is_qualifying_out e = false.
Proof.
  destruct e as [e |]; [| reflexivity]. simpl.
  case_event e. reflexivity.
Qed.

Lemma bases_weighted e :
  AggregateSpec.bases e =
    b2z (PyStr.cell_eqb e "single") + 2 * b2z (PyStr.cell_eqb e "double")
    + 3 * b2z (PyStr.cell_eqb e "triple") + 4 * b2z (PyStr.cell_eqb e "home_run").
Proof.
  destruct e as [e |]; [| reflexivity]. simpl.
  case_event e. reflexivity.
Qed.

Lemma is_hit_cases e :
  b2z (AggregateSpec.is_hit e) =
    b2z (PyStr.cell_eqb e "single") + b2z (PyStr.cell_eqb e "double")
    + b2z (PyStr.cell_eqb e "triple") + b2z (PyStr.cell_eqb e "home_run").
Proof.
  destruct e as [e |]; [| reflexivity]. simpl.
  case_event e. reflexivity.
Qed.

Lemma hits_spec group : hits group = AggregateSpec.hits group.
Proof.
  unfold hits, AggregateSpec.hits, AggregateSpec.count. fold (count_rows (fun r => AggregateSpec.is_hit (events r)) group).
  apply count_rows_ext. intros r. apply isin_hit_events.
Qed.

Lemma at_bats_spec group : at_bats group = AggregateSpec.at_bats group.
Proof.
  unfold AggregateSpec.at_bats. rewrite <- hits_spec.
  unfold at_bats, hits, AggregateSpec.count.
  fold (count_rows (fun r => AggregateSpec.is_qualifying_out (events r)) group).
  rewrite (count_rows_ext _ (fun r => PyStr.isin (events r) hit_events
                                      || AggregateSpec.is_qualifying_out (events r))).
  - apply count_rows_disjoint_or. intros r. rewrite isin_hit_events. apply hit_not_out.
  - intros r. now rewrite isin_ab_events, isin_hit_events.
Qed.

Lemma total_bases_spec group : total_bases group = AggregateSpec.total_bases group.
Proof.
  unfold total_bases. induction group as [| r g IH]; [reflexivity |].
  simpl AggregateSpec.total_bases. rewrite <- IH, bases_weighted, !count_rows_cons.
  cbv beta. unfold b2z. 
  destruct (PyStr.cell_eqb (events r) "single"), (PyStr.cell_eqb (events r) "double"),
    (PyStr.cell_eqb (events r) "triple"), (PyStr.cell_eqb (events r) "home_run"); lia.
Qed.

(** Hits split by kind. *)
Lemma hits_by_kind group :
  hits group =
    count_rows (fun r => PyStr.cell_eqb (events r) "single") group
    + count_rows (fun r => PyStr.cell_eqb (events r) "double") group
    + count_rows (fun r => PyStr.cell_eqb (events r) "triple") group
    + count_rows (fun r => PyStr.cell_eqb (events r) "home_run") group.
Proof.
  unfold hits. induction group as [| r g IH]; [reflexivity |].
  rewrite !count_rows_cons, IH, isin_hit_events.
  pose proof (is_hit_cases (events r)) as H. unfold b2z in H. lia.
Qed.

Lemma get_stats_spec group : get_stats group = AggregateSpec.aggregates group.
Proof.
  unfold AggregateSpec.aggregates.
  rewrite <- at_bats_spec, <- hits_spec, <- total_bases_spec.
  destruct (Z.eqb_spec (at_bats group) 0) as [E | E].
  - now apply get_stats_zero.
  - now apply get_stats_pos.
Qed.

Lemma count_rows_le p q group :
  (forall r, p r = true -> q r = true) -> count_rows p group <= count_rows q group.
Proof.
  intros Hpq. induction group as [| r g IH]; [reflexivity |].
  rewrite !count_rows_cons. specialize (Hpq r).
  destruct (p r), (q r); try lia; discriminate (Hpq eq_refl).
Qed.

Lemma group_nonempty_In df b r g : group_of df b = r :: g -> In b (map batter df).
Proof.
  intros Hg. assert (Hin : In r (group_of df b)) by (rewrite Hg; now left).
  apply filter_In in Hin. destruct Hin as [Hin Hb].
  apply Z.eqb_eq in Hb. subst b. now apply in_map.
Qed.

Lemma count_pos_In df b p : 0 < count_rows p (group_of df b) -> In b (map batter df).
Proof.
  destruct (group_of df b) as [| r g] eqn:Hg.
  - cbv. discriminate.
  - intros _. eapply group_nonempty_In; eassumption.
Qed.

(** A row whose event is no at-bat event changes nothing. *)
Lemma get_stats_skip r group :
  PyStr.isin (events r) ab_events = false -> get_stats (r :: group) = get_stats group.
Proof.
  intros Hr. rewrite !get_stats_spec. unfold AggregateSpec.aggregates.
  assert (Hh : AggregateSpec.is_hit (events r) = false
               /\ AggregateSpec.is_qualifying_out (events r) = false).
  { rewrite isin_ab_events in Hr. now apply orb_false_iff in Hr. }
  destruct Hh as [Hh Ho].
  assert (Hhits : AggregateSpec.hits (r :: group) = AggregateSpec.hits group).
  { unfold AggregateSpec.hits, AggregateSpec.count. simpl filter. now rewrite Hh. }
  assert (Hab : AggregateSpec.at_bats (r :: group) = AggregateSpec.at_bats group).
  { unfold AggregateSpec.at_bats. rewrite Hhits. f_equal.
    unfold AggregateSpec.count. simpl filter. now rewrite Ho. }
  assert (Htb : AggregateSpec.total_bases (r :: group) = AggregateSpec.total_bases group).
  { simpl. pose proof (is_hit_cases (events r)) as Hc.
    rewrite bases_weighted. rewrite Hh in Hc. unfold b2z in *.
    destruct (PyStr.cell_eqb (events r) "single"), (PyStr.cell_eqb (events r) "double"),
      (PyStr.cell_eqb (events r) "triple"), (PyStr.cell_eqb (events r) "home_run"); lia. }
  now rewrite Hhits, Hab, Htb.
Qed.

(** C6. [calculate_batter_stats] gives every batter of the history the
    aggregates of the specification: hits are the single/double/triple/home-run
    events, at-bats are the hits plus the field-out, strikeout, force-out,
    double-play and fielder's-choice events, total bases weigh the hits 1/2/3/4,
    average = hits/at-bats, slugging = total-bases/at-bats; a walk or a
    sacrifice changes nothing; and a batter whose at-bats are exactly one
    single and one strikeout gets average 0.5, slugging 0.5, isolated power 0.0. *)
Theorem aggregates_follow_counting_rules :
  (forall df b,
      In b (map batter df) ->
      loc b (calculate_batter_stats df) = Some (AggregateSpec.aggregates (group_of df b)))
  /\ (forall r group,
      events r = Some "walk" \/ events r = Some "sac_fly" \/ events r = Some "sac_bunt" ->
      get_stats (r :: group) = get_stats group)
  /\ (forall df b,
      AggregateSpec.count (fun e => PyStr.cell_eqb e "single") (group_of df b) = 1 ->
      AggregateSpec.count (fun e => PyStr.cell_eqb e "strikeout") (group_of df b) = 1 ->
      AggregateSpec.at_bats (group_of df b) = 2 ->
      loc b (calculate_batter_stats df)
        = Some {| avg := 0.5%float; slg := 0.5%float; iso := 0%float |}).
Proof.
  split; [| split].
  - intros df b Hin. rewrite (loc_present _ _ Hin). now rewrite get_stats_spec.
  - intros r group Hev. apply get_stats_skip.
    destruct Hev as [-> | [-> | ->]]; reflexivity.
  - intros df b Hs Hk Hab.
    set (g := group_of df b) in *.
    assert (Hin : In b (map batter df)).
    { apply (count_pos_In df b (fun r => PyStr.cell_eqb (events r) "single")).
      fold g. unfold AggregateSpec.count in Hs. unfold count_rows. lia. }
    rewrite (loc_present _ _ Hin). fold g. rewrite get_stats_spec.
    assert (Hout : 1 <= AggregateSpec.count AggregateSpec.is_qualifying_out g).
    { rewrite <- Hk. apply (count_rows_le (fun r => PyStr.cell_eqb (events r) "strikeout")
                               (fun r => AggregateSpec.is_qualifying_out (events r))).
      intros r. destruct (events r) as [e |]; simpl; [| discriminate].
      intros ->. now rewrite !orb_true_r. }
    pose proof (hits_by_kind g) as Hkinds. rewrite hits_spec in Hkinds.
    pose proof (count_rows_nonneg (fun r => PyStr.cell_eqb (events r) "double") g) as Hd.
    pose proof (count_rows_nonneg (fun r => PyStr.cell_eqb (events r) "triple") g) as Ht.
    pose proof (count_rows_nonneg (fun r => PyStr.cell_eqb (events r) "home_run") g) as Hr.
    pose proof (total_bases_spec g) as Htb. unfold total_bases in Htb.
    unfold AggregateSpec.at_bats in Hab.
    change (count_rows (fun r => PyStr.cell_eqb (events r) "single") g)
      with (AggregateSpec.count (fun e => PyStr.cell_eqb e "single") g) in *.
    assert (Hh1 : AggregateSpec.hits g = 1) by lia.
    assert (Htb1 : AggregateSpec.total_bases g = 1) by lia.
    unfold AggregateSpec.aggregates, AggregateSpec.at_bats.
    rewrite Hab, Hh1, Htb1. reflexivity.
Qed.

End AggregateRefinement.

(** ** Name resolution *)

Module LookupFacts.
Import Lookup.

Lemma lstrip_starts_with_token s : PyStr.starts_with_token (PyStr.lstrip s) = true.
Proof.
  induction s as [| c s IH]; simpl; [reflexivity |].
  destruct (PyStr.isspace c) eqn:Hc; [assumption |]. simpl. now rewrite Hc.
Qed.

Lemma words_lstrip s : PyStr.words (PyStr.lstrip s) = PyStr.words s.
Proof.
  induction s as [| c s IH]; [reflexivity |].
  cbn [PyStr.lstrip]. destruct (PyStr.isspace c) eqn:Hc.
  - rewrite IH. cbn [PyStr.words]. now rewrite Hc.
  - reflexivity.
Qed.

Lemma words_nil_rstrip s : PyStr.words s = [] -> PyStr.rstrip s = EmptyString.
Proof.
  induction s as [| c s IH]; [reflexivity |].
  cbn [PyStr.words PyStr.rstrip]. destruct (PyStr.isspace c) eqn:Hc.
  - intros Hw. now rewrite (IH Hw).
  - destruct s as [| c' s']; [discriminate |].
    destruct (PyStr.isspace c'); [discriminate |].
    destruct (PyStr.words (String c' s')); discriminate.
Qed.

Lemma words_token_nonempty s :
  s <> EmptyString -> PyStr.starts_with_token s = true -> PyStr.words s <> [].
Proof.
  destruct s as [| c s]; [congruence |]. intros _. simpl.
  destruct (PyStr.isspace c); [discriminate |]. intros _.
  destruct s as [| c' s']; [discriminate |].
  destruct (PyStr.isspace c'); [discriminate |].
  destruct (PyStr.words (String c' s')); discriminate.
Qed.

Lemma one_word_rstrip s :
  PyStr.starts_with_token s = true ->
  (List.length (PyStr.words s) < 2)%nat ->
  PyStr.no_whitespace (PyStr.rstrip s) = true.
Proof.
  induction s as [| c s IH]; [reflexivity |].
  cbn [PyStr.starts_with_token]. intros Hc. apply negb_true_iff in Hc.
  cbn [PyStr.words PyStr.rstrip]. rewrite Hc.
  destruct s as [| c' s'].
  - intros _. simpl. now rewrite Hc.
  - destruct (PyStr.isspace c') eqn:Hc'.
    + intros Hlen.
      assert (Hnil : PyStr.words (String c' s') = []).
      { destruct (PyStr.words (String c' s')); [reflexivity | simpl in Hlen; lia]. }
      rewrite (words_nil_rstrip _ Hnil). simpl. now rewrite Hc.
    + intros Hlen.
      assert (Hne : PyStr.words (String c' s') <> []).
      { apply words_token_nonempty; [discriminate | simpl; now rewrite Hc']. }
      assert (Hlen' : (List.length (PyStr.words (String c' s')) < 2)%nat).
      { destruct (PyStr.words (String c' s')); [contradiction | exact Hlen]. }
      assert (Htok : PyStr.starts_with_token (String c' s') = true) by (simpl; now rewrite Hc').
      specialize (IH Htok Hlen').
      destruct (PyStr.rstrip (String c' s')) as [| c0 r0].
      * simpl. now rewrite Hc.
      * cbn [PyStr.no_whitespace]. rewrite Hc. exact IH.
Qed.

Lemma split_space_no_whitespace s :
  PyStr.no_whitespace s = true -> PyStr.split_space s = [s].
Proof.
  induction s as [| c s IH]; [reflexivity |].
  cbn [PyStr.no_whitespace PyStr.split_space]. intros H.
  apply andb_true_iff in H. destruct H as [Hc Hs].
  destruct (Ascii.eqb_spec c " "%char) as [-> | _]; [discriminate Hc |].
  now rewrite (IH Hs).
Qed.

(** Fewer than two whitespace-separated tokens leave [split(' ')] a single part. *)
Lemma short_name_one_part name :
  (List.length (PyStr.words name) < 2)%nat ->
  List.length (PyStr.split_space (PyStr.strip name)) = 1%nat.
Proof.
  intros Hlen. unfold PyStr.strip.
  rewrite split_space_no_whitespace; [reflexivity |].
  apply one_word_rstrip.
  - apply lstrip_starts_with_token.
  - now rewrite words_lstrip.
Qed.

Lemma get_player_id_returns w name :
  exists pid trace, get_player_id w name = (Returned pid, trace).
Proof.
  unfold get_player_id.
  destruct (List.length (PyStr.split_space (PyStr.strip name)) <? 2)%nat.
  - simpl. eauto.
  - unfold call_playerid_lookup, bind, try_except, ret.
    destruct (playerid_lookup w _ _) as [[| k data] | e]; simpl; eauto.
Qed.

(** C10. [get_player_id] answers [None] for every name with fewer than two
    whitespace-separated tokens, and its trace is then empty: the provider
    [playerid_lookup] is not called.  It never raises; in particular, when the
    provider raises on the name's (last, first), the answer is [None]. *)
Theorem get_player_id_short_or_failing (w : World) (name : string) :
  ((List.length (PyStr.words name) < 2)%nat ->
   get_player_id w name = (Returned None, []))
  /\ (exists pid trace, get_player_id w name = (Returned pid, trace))
  /\ (forall e,
       let parts := PyStr.split_space (PyStr.strip name) in
       playerid_lookup w (PyStr.join_space (tl parts)) (hd EmptyString parts) = Raised e ->
       fst (get_player_id w name) = Returned None).
Proof.
  split; [| split].
  - intros Hlen. unfold get_player_id.
    rewrite (short_name_one_part _ Hlen). reflexivity.
  - apply get_player_id_returns.
  - intros e parts Hraise. unfold get_player_id. fold parts.
    destruct (List.length parts <? 2)%nat; [reflexivity |].
    unfold call_playerid_lookup, bind, try_except. rewrite Hraise. reflexivity.
Qed.

End LookupFacts.

(** ** Profile lookup *)

Module ProfileFacts.
Import Lookup LookupFacts.


Lemma pitcher_profile_some w name df :
  cache_file w = Some df ->
  exists profile trace, get_pitcher_profile w name = (Returned (Some profile), trace).
Proof.
  intros Hc. destruct (get_player_id_returns w name) as (pid & t & Hid).
  unfold get_pitcher_profile. rewrite Hc, Hid. unfold bind at 1.
  destruct (truthy pid); [| simpl; eauto].
  destruct (filter _ df); simpl; eauto.
Qed.


Lemma batter_profile_some w name df stats_df :
  cache_file w = Some df ->
  batter_stats_file w = Some stats_df ->
  exists profile trace, get_batter_profile w name = (Returned (Some profile), trace).
Proof.
  intros Hc Hs. destruct (get_player_id_returns w name) as (pid & t & Hid).
  unfold get_batter_profile. rewrite Hc, Hs, Hid. unfold bind at 1.
  destruct (truthy pid); [| simpl; eauto].
  destruct (filter _ stats_df) as [| [k s] rest]; simpl; eauto.
Qed.

Lemma batter_profile_none w name :
  cache_file w = None \/ batter_stats_file w = None ->
  get_batter_profile w name = (Returned None, []).
Proof.
  unfold get_batter_profile.
  intros [H | H]; rewrite H; [| destruct (cache_file w)]; reflexivity.
Qed.


End ProfileFacts.

(** ** Stable sorting *)

Module SortFacts.
Section StableSort.
Context {A K : Type}.
Variable key : A -> K.
Variable lt : K -> K -> bool.

(** The keys on which [lt] is a strict weak order. *)
Variable valid : K -> Prop.
Hypothesis lt_asym : forall a b, valid a -> valid b -> lt a b = true -> lt b a = false.
Hypothesis lt_negtrans :
  forall a b c, valid a -> valid b -> valid c ->
    lt a c = true -> lt a b = true \/ lt b c = true.

Local Abbreviation keys_valid := (PyList.keys_valid key valid).
Local Abbreviation ascending := (PyList.ascending key lt).
Local Abbreviation descending := (PyList.descending key lt).
Local Abbreviation same_key := (PyList.same_key key lt).

Lemma insert_sorted_perm x l : Permutation (PyList.insert_sorted key lt x l) (x :: l).
Proof.
  induction l as [| y l IH]; simpl; [reflexivity |].
  destruct (lt (key y) (key x)); [| reflexivity].
  rewrite IH. apply perm_swap.
Qed.

Lemma sort_perm l : Permutation (PyList.sort key lt l) l.
Proof.
  induction l as [| x l IH]; simpl; [reflexivity |].
  rewrite insert_sorted_perm. now constructor.
Qed.

Lemma sort_reverse_perm l : Permutation (PyList.sort_reverse key lt l) l.
Proof.
  unfold PyList.sort_reverse.
  rewrite <- Permutation_rev, sort_perm. symmetry. apply Permutation_rev.
Qed.

Lemma keys_valid_perm l l' : Permutation l l' -> keys_valid l -> keys_valid l'.
Proof. intros Hp. unfold keys_valid. now apply Permutation_Forall. Qed.

Lemma insert_sorted_ascending x l :
  valid (key x) -> keys_valid l -> ascending l ->
  ascending (PyList.insert_sorted key lt x l).
Proof.
  intros Hx. induction l as [| y l IH]; intros Hv Hs; simpl.
  - repeat constructor.
  - inversion Hv as [| ? ? Hy Hv']; subst. inversion Hs as [| ? ? Hs' Hall]; subst.
    destruct (lt (key y) (key x)) eqn:Hyx.
    + constructor; [now apply IH |].
      eapply Permutation_Forall; [symmetry; apply insert_sorted_perm |].
      constructor; [now apply lt_asym | exact Hall].
    + constructor; [assumption |]. constructor; [exact Hyx |].
      rewrite Forall_forall in Hall, Hv' |- *. intros z Hz.
      destruct (lt (key z) (key x)) eqn:Hzx; [| reflexivity].
      destruct (lt_negtrans (key z) (key y) (key x)) as [H | H]; auto.
      * rewrite (Hall z Hz) in H. discriminate.
      * congruence.
Qed.

Lemma sort_keys_valid l : keys_valid l -> keys_valid (PyList.sort key lt l).
Proof. apply keys_valid_perm. symmetry. apply sort_perm. Qed.

Lemma sort_ascending l : keys_valid l -> ascending (PyList.sort key lt l).
Proof.
  induction l as [| x l IH]; intros Hv; simpl.
  - constructor.
  - inversion Hv; subst.
    apply insert_sorted_ascending; auto. now apply sort_keys_valid.
Qed.

Lemma descending_snoc l x :
  descending l -> Forall (fun y => lt (key y) (key x) = false) l -> descending (l ++ [x]).
Proof.
  induction 1 as [| y l Hs IH Hy]; intros Hall; simpl.
  - repeat constructor.
  - inversion Hall; subst. constructor; [now apply IH |].
    apply Forall_app. split; [assumption | now repeat constructor].
Qed.

Lemma ascending_rev l : ascending l -> descending (rev l).
Proof.
  induction 1 as [| x l Hs IH Hall]; simpl; [constructor |].
  apply descending_snoc; [exact IH |].
  rewrite Forall_forall in *. intros y Hy. apply Hall. now apply in_rev.
Qed.

Lemma sort_reverse_descending l :
  keys_valid l -> descending (PyList.sort_reverse key lt l).
Proof.
  intros Hv. unfold PyList.sort_reverse. apply ascending_rev, sort_ascending.
  apply (keys_valid_perm l); [apply Permutation_rev | exact Hv].
Qed.

Lemma insert_sorted_stable k x l :
  valid k -> valid (key x) -> keys_valid l ->
  filter (same_key k) (PyList.insert_sorted key lt x l) = filter (same_key k) (x :: l).
Proof.
  intros Hk Hx. induction l as [| y l IH]; intros Hv; [reflexivity |].
  inversion Hv as [| ? ? Hy Hv']; subst.
  cbn [PyList.insert_sorted]. destruct (lt (key y) (key x)) eqn:Hyx; [| reflexivity].
  cbn [filter]. rewrite (IH Hv'). cbn [filter].
  destruct (same_key k y) eqn:Eky; [| reflexivity].
  destruct (same_key k x) eqn:Ekx; [| reflexivity].
  exfalso. unfold same_key in *.
  apply andb_true_iff in Eky, Ekx. rewrite !negb_true_iff in *.
  destruct Eky as [Eyk _], Ekx as [_ Ekx].
  destruct (lt_negtrans (key y) k (key x)) as [H | H]; auto; congruence.
Qed.

Lemma sort_stable k l :
  valid k -> keys_valid l ->
  filter (same_key k) (PyList.sort key lt l) = filter (same_key k) l.
Proof.
  intros Hk. induction l as [| x l IH]; intros Hv; [reflexivity |].
  inversion Hv; subst. cbn [PyList.sort fold_right].
  fold (PyList.sort key lt l).
  rewrite insert_sorted_stable; auto using sort_keys_valid.
  cbn [filter]. now rewrite IH.
Qed.

Lemma sort_reverse_stable k l :
  valid k -> keys_valid l ->
  filter (same_key k) (PyList.sort_reverse key lt l) = filter (same_key k) l.
Proof.
  intros Hk Hv. unfold PyList.sort_reverse.
  rewrite filter_rev, sort_stable, filter_rev, rev_involutive; auto.
  apply (keys_valid_perm l); [apply Permutation_rev | exact Hv].
Qed.

End StableSort.
End SortFacts.

(** ** The order of binary64 values *)

Module FloatOrder.

Ltac cmp_cases :=
  repeat match goal with
    | |- context [Z.compare ?a ?b] => destruct (Z.compare_spec a b); try lia; subst
    | |- context [Pos.compare_cont Eq ?a ?b] =>
        change (Pos.compare_cont Eq a b) with (Pos.compare a b);
        destruct (Pos.compare_spec a b); try lia; subst
    end;
  cbn; try discriminate; try reflexivity; try tauto; try lia.

Lemma SFltb_asym x y : SFltb x y = true -> SFltb y x = false.
Proof.
  unfold SFltb, SFcompare.
  destruct x as [sx | sx | | sx mx ex], y as [sy | sy | | sy my ey];
    try destruct sx; try destruct sy; cbn; try discriminate; try reflexivity.
  all: cmp_cases.
Qed.

Lemma SFltb_negtrans x y z :
  y <> S754_nan -> SFltb x z = true -> SFltb x y = true \/ SFltb y z = true.
Proof.
  unfold SFltb, SFcompare.
  destruct x as [sx | sx | | sx mx ex], y as [sy | sy | | sy my ey],
    z as [sz | sz | | sz mz ez];
    try destruct sx; try destruct sy; try destruct sz; cbn;
    try discriminate; try tauto; try congruence.
  all: intros _.
  all: cmp_cases.
Qed.

Lemma SFeqb_same_key x y :
  x <> S754_nan -> y <> S754_nan ->
  SFeqb x y = negb (SFltb x y) && negb (SFltb y x).
Proof.
  unfold SFeqb, SFltb, SFcompare.
  destruct x as [sx | sx | | sx mx ex], y as [sy | sy | | sy my ey];
    try destruct sx; try destruct sy; cbn; try reflexivity; try congruence.
  all: intros _ _.
  all: cmp_cases.
Qed.

Lemma SFleb_not_ltb x y :
  x <> S754_nan -> y <> S754_nan -> SFleb y x = negb (SFltb x y).
Proof.
  unfold SFleb, SFltb, SFcompare.
  destruct x as [sx | sx | | sx mx ex], y as [sy | sy | | sy my ey];
    try destruct sx; try destruct sy; cbn; try reflexivity; try congruence.
  all: intros _ _.
  all: cmp_cases.
Qed.

Lemma SFleb_not_nan x y : SFleb x y = true -> x <> S754_nan /\ y <> S754_nan.
Proof.
  unfold SFleb, SFcompare.
  destruct x as [sx | sx | | sx mx ex], y as [sy | sy | | sy my ey];
    try discriminate; intros _; split; discriminate.
Qed.

(** The order of binary64 values that are not NaN. *)

Lemma ltb_asym x y : (x <? y)%float = true -> (y <? x)%float = false.
Proof. rewrite !FloatAxioms.ltb_spec. apply SFltb_asym. Qed.

Lemma ltb_negtrans x y z :
  Binary64.not_nan y -> (x <? z)%float = true -> (x <? y)%float = true \/ (y <? z)%float = true.
Proof. rewrite !FloatAxioms.ltb_spec. apply SFltb_negtrans. Qed.

Lemma eqb_same_key x y :
  Binary64.not_nan x -> Binary64.not_nan y ->
  (x =? y)%float = negb (x <? y)%float && negb (y <? x)%float.
Proof. rewrite FloatAxioms.eqb_spec, !FloatAxioms.ltb_spec. apply SFeqb_same_key. Qed.

Lemma leb_not_ltb x y :
  Binary64.not_nan x -> Binary64.not_nan y -> (y <=? x)%float = negb (x <? y)%float.
Proof. rewrite FloatAxioms.leb_spec, FloatAxioms.ltb_spec. apply SFleb_not_ltb. Qed.

Lemma leb_not_nan x y : (x <=? y)%float = true -> Binary64.not_nan x /\ Binary64.not_nan y.
Proof. rewrite FloatAxioms.leb_spec. apply SFleb_not_nan. Qed.

Lemma eqb_nan x y : ~ Binary64.not_nan y -> (x =? y)%float = false.
Proof.
  unfold Binary64.not_nan. rewrite FloatAxioms.eqb_spec. intros Hy.
  destruct (Prim2SF y) eqn:E; try (exfalso; apply Hy; discriminate).
  unfold SFeqb, SFcompare. now destruct (Prim2SF x).
Qed.

End FloatOrder.

(** ** The optimizer *)

Module OptimizerFacts.
Import Lookup LookupFacts ProfileFacts Optimizer.

Lemma no_predict_app t1 t2 : no_predict (t1 ++ t2) = no_predict t1 && no_predict t2.
Proof. apply forallb_app. Qed.

Lemma get_player_id_no_predict w name r t :
  get_player_id w name = (r, t) -> no_predict t = true.
Proof.
  unfold get_player_id.
  destruct (List.length (PyStr.split_space (PyStr.strip name)) <? 2)%nat.
  - intros [= <- <-]. reflexivity.
  - unfold call_playerid_lookup, bind, try_except, ret.
    destruct (playerid_lookup w _ _) as [[| k data] | e]; intros [= <- <-]; reflexivity.
Qed.

Lemma get_pitcher_profile_no_predict w name r t :
  get_pitcher_profile w name = (r, t) -> no_predict t = true.
Proof.
  unfold get_pitcher_profile. destruct (cache_file w) as [df |].
  - destruct (get_player_id w name) as [o t0] eqn:Hid.
    pose proof (get_player_id_no_predict _ _ _ _ Hid) as Ht0.
    destruct (get_player_id_returns w name) as (pid & t' & Hid').
    rewrite Hid in Hid'. injection Hid' as -> ->.
    unfold bind at 1.
    destruct (truthy pid); [destruct (filter _ df) |]; simpl;
      intros [= <- <-]; rewrite ?app_nil_r, ?no_predict_app, ?Ht0; reflexivity.
  - intros [= <- <-]. reflexivity.
Qed.

Lemma get_batter_profile_no_predict w name r t :
  get_batter_profile w name = (r, t) -> no_predict t = true.
Proof.
  unfold get_batter_profile.
  destruct (cache_file w) as [df |]; [| intros [= <- <-]; reflexivity].
  destruct (batter_stats_file w) as [stats_df |]; [| intros [= <- <-]; reflexivity].
  destruct (get_player_id w name) as [o t0] eqn:Hid.
  pose proof (get_player_id_no_predict _ _ _ _ Hid) as Ht0.
  destruct (get_player_id_returns w name) as (pid & t' & Hid').
  rewrite Hid in Hid'. injection Hid' as -> ->.
  unfold bind at 1.
  destruct (truthy pid); [destruct (filter _ stats_df) as [| [k s] rest] |]; simpl;
    intros [= <- <-]; rewrite ?app_nil_r, ?no_predict_app, ?Ht0; reflexivity.
Qed.

Lemma get_batter_profile_returns w name :
  exists r t, get_batter_profile w name = (Returned r, t).
Proof.
  destruct (cache_file w) as [df |] eqn:Hc.
  - destruct (batter_stats_file w) as [stats_df |] eqn:Hs.
    + destruct (batter_profile_some w name df stats_df Hc Hs) as (p & t & H). eauto.
    + rewrite batter_profile_none by auto. eauto.
  - rewrite batter_profile_none by auto. eauto.
Qed.

(** The loop over the batters never raises, keeps one feature vector per
    valid batter and does not touch the classifier. *)
Lemma collect_lineup_returns w ps names :
  exists lineup_data valid_batters trace,
    collect_lineup w ps names = (Returned (lineup_data, valid_batters), trace)
    /\ List.length lineup_data = List.length valid_batters
    /\ no_predict trace = true.
Proof.
  induction names as [| b rest IH].
  - simpl. exists [], [], []. auto.
  - destruct IH as (ld & vb & t & Hrun & Hlen & Hnp).
    destruct (get_batter_profile_returns w b) as (r & tb & Hb).
    pose proof (get_batter_profile_no_predict _ _ _ _ Hb) as Htb.
    cbn [collect_lineup]. rewrite Hb. unfold bind at 1.
    destruct r as [bs |].
    + rewrite Hrun. simpl.
      exists (feature_row ps bs :: ld), (b :: vb), (tb ++ t ++ [])%list.
      rewrite !no_predict_app, Htb, Hnp. simpl. auto.
    + unfold print, emit, bind. rewrite Hrun.
      exists ld, vb, (tb ++ [Printed ("Batter " ++ b ++ " not found.")] ++ t)%list.
      rewrite !no_predict_app, Htb, Hnp. simpl. auto.
Qed.

Lemma collect_lineup_all w ps df stats_df names :
  cache_file w = Some df ->
  batter_stats_file w = Some stats_df ->
  exists lineup_data trace,
    collect_lineup w ps names = (Returned (lineup_data, names), trace)
    /\ List.length lineup_data = List.length names.
Proof.
  intros Hc Hs. induction names as [| b rest IH].
  - simpl. exists [], []. auto.
  - destruct IH as (ld & t & Hrun & Hlen).
    destruct (batter_profile_some w b df stats_df Hc Hs) as (bs & tb & Hb).
    cbn [collect_lineup]. rewrite Hb. unfold bind at 1. rewrite Hrun. simpl.
    eexists _, _. split; [reflexivity |]. simpl. now rewrite Hlen.
Qed.

Lemma collect_lineup_none w ps names :
  cache_file w = None \/ batter_stats_file w = None ->
  exists trace, collect_lineup w ps names = (Returned ([], []), trace).
Proof.
  intros Hmiss. induction names as [| b rest IH].
  - exists []. reflexivity.
  - destruct IH as (t & Hrun).
    cbn [collect_lineup]. rewrite (batter_profile_none w b Hmiss).
    unfold print, emit, bind. rewrite Hrun. eauto.
Qed.

Lemma zip_results_enough i valid_batters predictions :
  (i + List.length valid_batters <= List.length predictions)%nat ->
  zip_results i valid_batters predictions =
    (Returned (map to_prediction (combine valid_batters (skipn i predictions))), []).
Proof.
  revert i. induction valid_batters as [| b rest IH]; intros i Hlen.
  - reflexivity.
  - simpl in Hlen. cbn [zip_results].
    destruct (nth_error predictions i) as [p |] eqn:Hp.
    + rewrite IH by lia. simpl.
      assert (Hsk : skipn i predictions = p :: skipn (S i) predictions).
      { clear - Hp. revert i Hp. induction predictions as [| q qs IHq]; intros [| i] Hp;
          simpl in *; try discriminate.
        - now injection Hp as ->.
        - now apply IHq. }
      rewrite Hsk. reflexivity.
    + apply nth_error_None in Hp. lia.
Qed.

(** With every file in place and a non-empty batter list, the run reaches
    the classifier and ranks one prediction per listed batter. *)
Lemma optimize_lineup_run w pitcher_name names predict transform df stats_df :
  model_file w = Some predict ->
  scaler_file w = Some transform ->
  cache_file w = Some df ->
  batter_stats_file w = Some stats_df ->
  names <> [] ->
  exists lineup_data trace,
    List.length lineup_data = List.length names
    /\ ((List.length names <= List.length (predict (transform lineup_data)))%nat ->
        optimize_lineup w pitcher_name names =
          (Returned (Ranking (PyList.sort_reverse predicted_hit_prob PrimFloat.ltb
                       (map to_prediction
                          (combine names (predict (transform lineup_data)))))),
           trace)).
Proof.
  intros Hm Hs Hc Hb Hne.
  destruct (pitcher_profile_some w pitcher_name df Hc) as (ps & t1 & Hp).
  destruct (collect_lineup_all w ps df stats_df names Hc Hb) as (ld & t2 & Hrun & Hlen).
  exists ld. eexists. split; [exact Hlen |]. intros Hpred.
  unfold optimize_lineup. rewrite Hm, Hs.
  unfold emit, print, bind at 1 2 3. rewrite Hp.
  unfold bind at 1 2. rewrite Hrun. cbn [fst snd].
  destruct ld as [| v ld'].
  - destruct names; [contradiction | discriminate].
  - unfold emit, bind at 1 2 3.
    rewrite zip_results_enough by (simpl; lia).
    simpl skipn. cbn [bind ret]. reflexivity.
Qed.

Lemma probability_not_nan p : probability p -> Binary64.not_nan p.
Proof. intros [H _]. now apply FloatOrder.leb_not_nan in H. Qed.

Lemma map_batter_combine names predictions :
  List.length names = List.length predictions ->
  map mp_batter (map to_prediction (combine names predictions)) = names.
Proof.
  revert predictions. induction names as [| b names IH]; intros [| p ps] Hlen;
    simpl in *; try discriminate; [reflexivity |].
  f_equal. apply IH. lia.
Qed.

Lemma map_prob_combine names predictions :
  List.length names = List.length predictions ->
  map predicted_hit_prob (map to_prediction (combine names predictions)) = predictions.
Proof.
  revert predictions. induction names as [| b names IH]; intros [| p ps] Hlen;
    simpl in *; try discriminate; [reflexivity |].
  f_equal. apply IH. lia.
Qed.

(** C7. If the model artifact or the scaler artifact is absent,
    [optimize_lineup] returns (does not raise) the message saying that the
    model or scaler was not found, and its trace is empty: nothing was
    loaded, looked up, scaled or predicted. *)
Theorem missing_artifacts_reported (w : World) (pitcher_name : string)
    (batter_names : list string) :
  model_file w = None \/ scaler_file w = None ->
  optimize_lineup w pitcher_name batter_names =
    (Returned (ErrorMessage "Model or Scaler not found. Please train the model first."), []).
Proof.
  unfold optimize_lineup.
  intros [H | H]; rewrite H; [| destruct (model_file w)]; reflexivity.
Qed.



Lemma StronglySorted_weaken {A} (R R' : A -> A -> Prop) (P : A -> Prop) l :
  (forall a b, P a -> P b -> R a b -> R' a b) ->
  Forall P l -> StronglySorted R l -> StronglySorted R' l.
Proof.
  intros Himp HP Hs. induction Hs as [| a l Hs IH Hall]; [constructor |].
  inversion HP as [| ? ? Pa Pl]; subst. constructor; [now apply IH |].
  rewrite Forall_forall in *. intros b Hb. apply Himp; auto.
Qed.

Lemma filter_none {A} (f : A -> bool) l : (forall x, f x = false) -> filter f l = [].
Proof.
  intros Hf. induction l as [| x l IH]; [reflexivity |]. simpl. now rewrite Hf.
Qed.

Lemma not_nan_dec p : Binary64.not_nan p \/ ~ Binary64.not_nan p.
Proof.
  unfold Binary64.not_nan. destruct (Prim2SF p); try (left; discriminate).
  right. intros H. now apply H.
Qed.

(** Ranking facts about [sort_reverse] on predictions whose probabilities
    are not NaN. *)
Lemma ranking_sorted (input : list MatchupPrediction) :
  Forall (fun r => Binary64.not_nan (predicted_hit_prob r)) input ->
  let results := PyList.sort_reverse predicted_hit_prob PrimFloat.ltb input in
  Permutation results input
  /\ StronglySorted
       (fun a b => (predicted_hit_prob b <=? predicted_hit_prob a)%float = true) results
  /\ forall p, filter (fun r => (predicted_hit_prob r =? p)%float) results
               = filter (fun r => (predicted_hit_prob r =? p)%float) input.
Proof.
  intros Hvalid results.
  assert (Hperm : Permutation results input) by apply SortFacts.sort_reverse_perm.
  assert (Hvalid' : Forall (fun r => Binary64.not_nan (predicted_hit_prob r)) results).
  { eapply Permutation_Forall; [symmetry; exact Hperm | exact Hvalid]. }
  assert (Hasym : forall a b, Binary64.not_nan a -> Binary64.not_nan b ->
                    (a <? b)%float = true -> (b <? a)%float = false).
  { intros a b _ _. apply FloatOrder.ltb_asym. }
  assert (Hneg : forall a b c, Binary64.not_nan a -> Binary64.not_nan b ->
                   Binary64.not_nan c -> (a <? c)%float = true ->
                   (a <? b)%float = true \/ (b <? c)%float = true).
  { intros a b c _ Hb _. now apply FloatOrder.ltb_negtrans. }
  split; [exact Hperm | split].
  - apply (StronglySorted_weaken
             (fun a b => (predicted_hit_prob a <? predicted_hit_prob b)%float = false)
             _ (fun r => Binary64.not_nan (predicted_hit_prob r))).
    + intros a b Ha Hb Hab. rewrite FloatOrder.leb_not_ltb by assumption.
      now rewrite Hab.
    + exact Hvalid'.
    + apply (SortFacts.sort_reverse_descending predicted_hit_prob PrimFloat.ltb
               Binary64.not_nan Hasym Hneg). exact Hvalid.
  - intros p. destruct (not_nan_dec p) as [Hp | Hp].
    + pose proof (SortFacts.sort_reverse_stable predicted_hit_prob PrimFloat.ltb
                    Binary64.not_nan Hneg p input Hp Hvalid) as Hst.
      fold results in Hst.
      rewrite (filter_ext_in (fun r => (predicted_hit_prob r =? p)%float)
                 (PyList.same_key predicted_hit_prob PrimFloat.ltb p) results).
      * rewrite Hst. symmetry. apply filter_ext_in.
        intros r Hr. rewrite Forall_forall in Hvalid.
        apply FloatOrder.eqb_same_key; auto.
      * intros r Hr. rewrite Forall_forall in Hvalid'.
        apply FloatOrder.eqb_same_key; auto.
    + rewrite !filter_none; auto; intros r; now apply FloatOrder.eqb_nan.
Qed.

(** C2. [optimize_lineup] ranks its predictions in descending order of
    predicted probability and keeps entries of equal probability in their
    input order: the ranking is a permutation of the (batter, probability)
    pairs in input order, no entry has a smaller probability than a later
    one, and for every probability the entries carrying it appear in the
    same order as in the input.  For batters [A,B,C,D] with probabilities
    [0.3, 0.7, 0.7, 0.1] the ranking is [B,C,A,D]. *)
Theorem ranking_is_descending_and_stable :
  (forall w pitcher_name batter_names predict transform df stats_df,
      model_file w = Some predict ->
      scaler_file w = Some transform ->
      cache_file w = Some df ->
      batter_stats_file w = Some stats_df ->
      batter_names <> [] ->
      (forall X, List.length X = List.length batter_names ->
                 List.length (predict (transform X)) = List.length X
                 /\ Forall probability (predict (transform X))) ->
      exists lineup_data results trace,
        let predictions := predict (transform lineup_data) in
        let input := map to_prediction (combine batter_names predictions) in
        List.length lineup_data = List.length batter_names
        /\ optimize_lineup w pitcher_name batter_names = (Returned (Ranking results), trace)
        /\ Permutation results input
        /\ StronglySorted
             (fun a b => (predicted_hit_prob b <=? predicted_hit_prob a)%float = true)
             results
        /\ forall p, filter (fun r => (predicted_hit_prob r =? p)%float) results
                     = filter (fun r => (predicted_hit_prob r =? p)%float) input)
  /\ (forall w pitcher_name A B C D predict transform df stats_df,
        model_file w = Some predict ->
        scaler_file w = Some transform ->
        cache_file w = Some df ->
        batter_stats_file w = Some stats_df ->
        (forall X, predict X = [0.3; 0.7; 0.7; 0.1]%float) ->
        exists results trace,
          optimize_lineup w pitcher_name [A; B; C; D] = (Returned (Ranking results), trace)
          /\ map mp_batter results = [B; C; A; D]).
Proof.
  split.
  - intros w pitcher_name names predict transform df stats_df Hm Hs Hc Hb Hne Hcontract.
    destruct (optimize_lineup_run w pitcher_name names predict transform df stats_df
                Hm Hs Hc Hb Hne) as (ld & trace & Hld & Hrun).
    destruct (Hcontract ld Hld) as [Hlen Hprob].
    exists ld. eexists _, trace. cbv zeta.
    split; [exact Hld |]. split; [apply Hrun; lia |].
    apply ranking_sorted.
    rewrite <- (Forall_map predicted_hit_prob Binary64.not_nan).
    rewrite map_prob_combine by lia.
    eapply Forall_impl; [| exact Hprob]. apply probability_not_nan.
  - intros w pitcher_name A B C D predict transform df stats_df Hm Hs Hc Hb Hpred.
    destruct (optimize_lineup_run w pitcher_name [A; B; C; D] predict transform df stats_df
                Hm Hs Hc Hb) as (ld & trace & Hld & Hrun); [discriminate |].
    rewrite Hpred in Hrun. specialize (Hrun (Nat.le_refl 4)).
    eexists _, trace. split; [exact Hrun | reflexivity].
Qed.

End OptimizerFacts.

(** ** Binary64 arithmetic on the normal range

    The operations of primitive floats are specified by [SpecFloat] on
    mantissa/exponent pairs.  This part relates them to real numbers for
    positive normal values: conversion of an [int64] counter and division
    round the exact result to nearest-even, and rounding is monotone. *)

Module Binary64Facts.
Import Binary64.

Lemma bpow_pos e : (0 < bpow e)%R.
Proof. apply powerRZ_lt. lra. Qed.

Lemma bpow_add a b : bpow (a + b) = (bpow a * bpow b)%R.
Proof. apply powerRZ_add. lra. Qed.

Lemma bpow_0 : bpow 0 = 1%R.
Proof. reflexivity. Qed.

Lemma bpow_1 : bpow 1 = 2%R.
Proof. unfold bpow. simpl. lra. Qed.

Lemma bpow_neg1 : bpow (-1) = (/ 2)%R.
Proof. unfold bpow. simpl. now rewrite Rmult_1_r. Qed.

Lemma bpow_succ e : bpow (e + 1) = (2 * bpow e)%R.
Proof. rewrite bpow_add, bpow_1. lra. Qed.

Lemma bpow_opp e : (bpow e * bpow (- e) = 1)%R.
Proof. rewrite <- bpow_add. replace (e + - e) with 0 by lia. apply bpow_0. Qed.

Lemma bpow_nat n : bpow (Z.of_nat n) = (2 ^ n)%R.
Proof. unfold bpow. now rewrite <- pow_powerRZ. Qed.

Lemma bpow_ge_1 n : 0 <= n -> (1 <= bpow n)%R.
Proof.
  intros Hn. rewrite <- (Z2Nat.id n Hn), bpow_nat.
  apply pow_R1_Rle. lra.
Qed.

Lemma bpow_le a b : a <= b -> (bpow a <= bpow b)%R.
Proof.
  intros Hab. replace b with (a + (b - a)) by lia. rewrite bpow_add.
  pose proof (bpow_pos a). pose proof (bpow_ge_1 (b - a)). 
  assert (1 <= bpow (b - a))%R by (apply H0; lia). nra.
Qed.

Lemma bpow_lt a b : a < b -> (bpow a < bpow b)%R.
Proof.
  intros Hab. apply Rlt_le_trans with (bpow (a + 1)).
  - rewrite bpow_succ. pose proof (bpow_pos a). lra.
  - apply bpow_le. lia.
Qed.

Lemma bpow_lt_inv a b : (bpow a < bpow b)%R -> a < b.
Proof.
  intros H. destruct (Z_lt_le_dec a b) as [Hlt | Hle]; [assumption |].
  apply bpow_le in Hle. lra.
Qed.

Lemma bpow_IZR n : 0 <= n -> bpow n = IZR (2 ^ n).
Proof.
  intros Hn. rewrite <- (Z2Nat.id n Hn) at 1. rewrite bpow_nat.
  rewrite <- (Z2Nat.id n Hn) at 2. now rewrite <- pow_IZR.
Qed.

(** *** Truncated values: a mantissa and the place of the rest *)

Lemma located_bounds m l u : located m l u -> (IZR m <= u < IZR m + 1)%R.
Proof. destruct l as [| []]; simpl; lra. Qed.

Lemma located_record m l u : located m l u -> rec_located (shr_record_of_loc m l) u.
Proof. unfold rec_located. now destruct l as [| []]. Qed.

Lemma IZR_xO p : IZR (Zpos p~0) = (2 * IZR (Zpos p))%R.
Proof. now rewrite Pos2Z.inj_xO, mult_IZR. Qed.

Lemma IZR_xI p : IZR (Zpos p~1) = (2 * IZR (Zpos p) + 1)%R.
Proof. now rewrite Pos2Z.inj_xI, plus_IZR, mult_IZR. Qed.

Lemma shr_1_located mrs u :
  0 <= shr_m mrs -> rec_located mrs u ->
  rec_located (shr_1 mrs) (u / 2) /\ 0 <= shr_m (shr_1 mrs).
Proof.
  destruct mrs as [m r s]. unfold rec_located. cbn [shr_m].
  destruct m as [| [p | p |] | p]; intros Hm; try lia;
    destruct r, s; cbn [shr_1 loc_of_shr_record shr_m located orb];
    try rewrite (IZR_xO p); try rewrite (IZR_xI p); intros H; split; try lia; lra.
Qed.

Lemma iter_shr_1_located n : forall mrs u,
  0 <= shr_m mrs -> rec_located mrs u ->
  rec_located (SpecFloat.iter_pos shr_1 n mrs) (u * bpow (- Zpos n))
  /\ 0 <= shr_m (SpecFloat.iter_pos shr_1 n mrs).
Proof.
  induction n as [n IH | n IH |]; intros mrs u Hm Hu; cbn [SpecFloat.iter_pos].
  - destruct (shr_1_located mrs u Hm Hu) as [H1 Hm1].
    destruct (IH _ _ Hm1 H1) as [H2 Hm2].
    destruct (IH _ _ Hm2 H2) as [H3 Hm3].
    split; [| exact Hm3].
    replace (u * bpow (- Zpos n~1))%R with (u / 2 * bpow (- Zpos n) * bpow (- Zpos n))%R;
      [exact H3 |].
    replace (- Zpos n~1) with (- Zpos n + - Zpos n + -1) by lia.
    rewrite !bpow_add, bpow_neg1. field.
  - destruct (IH _ _ Hm Hu) as [H2 Hm2].
    destruct (IH _ _ Hm2 H2) as [H3 Hm3].
    split; [| exact Hm3].
    replace (u * bpow (- Zpos n~0))%R with (u * bpow (- Zpos n) * bpow (- Zpos n))%R;
      [exact H3 |].
    replace (- Zpos n~0) with (- Zpos n + - Zpos n) by lia.
    rewrite !bpow_add. ring.
  - destruct (shr_1_located mrs u Hm Hu) as [H1 Hm1]. split; [| exact Hm1].
    cbn [Z.opp]. rewrite bpow_neg1. exact H1.
Qed.

(** [shr] moves the truncation [n] binary places to the right. *)
Lemma shr_located mrs e n x :
  0 <= shr_m mrs -> rec_located mrs (x * bpow (- e)) ->
  rec_located (fst (shr mrs e n)) (x * bpow (- snd (shr mrs e n)))
  /\ 0 <= shr_m (fst (shr mrs e n))
  /\ snd (shr mrs e n) = e + Z.max n 0.
Proof.
  intros Hm Hx. destruct n as [| p | p]; cbn [shr fst snd].
  - rewrite Z.add_0_r. auto.
  - destruct (iter_shr_1_located p _ _ Hm Hx) as [H1 Hm1].
    split; [| split; [exact Hm1 | lia]].
    replace (- (e + Zpos p)) with (- e + - Zpos p) by lia.
    rewrite bpow_add, <- Rmult_assoc. exact H1.
  - replace (e + Z.max (Zneg p) 0) with e by lia. auto.
Qed.

(** *** Number of binary digits *)

Lemma digits2_pos_log2 p : Zpos (digits2_pos p) = Z.log2 (Zpos p) + 1.
Proof.
  assert (Hs : forall q, digits2_pos q = Pos.size q) by (induction q; simpl; congruence).
  rewrite Hs. destruct p; simpl; lia.
Qed.

Lemma digits_bounds p :
  2 ^ (Zpos (digits2_pos p) - 1) <= Zpos p < 2 ^ Zpos (digits2_pos p).
Proof.
  rewrite digits2_pos_log2. replace (Z.log2 (Zpos p) + 1 - 1) with (Z.log2 (Zpos p)) by lia.
  apply Z.log2_spec. lia.
Qed.

Lemma digits_unique p k : 2 ^ (k - 1) <= Zpos p < 2 ^ k -> Zpos (digits2_pos p) = k.
Proof.
  intros [Hlo Hhi]. rewrite digits2_pos_log2.
  assert (Hk : 1 <= k).
  { destruct (Z_lt_le_dec k 1) as [Hk | Hk]; [| exact Hk].
    assert (2 ^ k <= 2 ^ 0) by (destruct k; try lia; cbn; lia).
    simpl in *. lia. }
  rewrite (Z.log2_unique (Zpos p) (k - 1)); try lia.
  replace (Z.succ (k - 1)) with k by lia. lia.
Qed.

(** *** Rounding to nearest, ties to even *)

Lemma nearest_even_mono u u' M M' :
  nearest_even u M -> nearest_even u' M' -> (u <= u')%R -> M <= M'.
Proof.
  intros [[Hlo Hhi] Heven] [[Hlo' Hhi'] Heven'] Hu.
  destruct (Z_le_gt_dec M M') as [Hle | Hgt]; [exact Hle | exfalso].
  assert (HM : (IZR M' + 1 <= IZR M)%R).
  { rewrite <- plus_IZR. apply IZR_le. lia. }
  assert (E1 : u = (IZR M - / 2)%R) by lra.
  assert (E2 : u' = (IZR M' + / 2)%R) by lra.
  assert (E3 : (IZR M = IZR M' + 1)%R) by lra.
  rewrite <- plus_IZR in E3. apply eq_IZR in E3.
  pose proof (Heven (or_introl E1)) as Ev. pose proof (Heven' (or_intror E2)) as Ev'.
  subst M. rewrite Z.even_add in Ev. rewrite Ev' in Ev. discriminate.
Qed.

Lemma nearest_even_range u M :
  nearest_even u M -> (IZR (2 ^ 52) <= u < IZR (2 ^ 53))%R -> 2 ^ 52 <= M <= 2 ^ 53.
Proof.
  intros [[Hlo Hhi] _] [Hu1 Hu2]. split.
  - assert (H : (IZR (2 ^ 52 - 1) < IZR M)%R) by (rewrite minus_IZR; lra).
    apply lt_IZR in H. lia.
  - assert (H : (IZR M < IZR (2 ^ 53 + 1))%R) by (rewrite plus_IZR; lra).
    apply lt_IZR in H. lia.
Qed.

(** Rounding is monotone: on normal numbers, first by exponent, then by
    mantissa. *)
Lemma RNE_mono x x' M E M' E' :
  RNE x M E -> RNE x' M' E' -> (x <= x')%R ->
  E < E' \/ (E = E' /\ (M <= M')%positive).
Proof.
  intros (M0 & E0 & Hb & Hn & Hc) (M0' & E0' & Hb' & Hn' & Hc') Hx.
  pose proof (nearest_even_range _ _ Hn Hb) as HM0.
  pose proof (nearest_even_range _ _ Hn' Hb') as HM0'.
  destruct (Z.lt_trichotomy E0 E0') as [Hlt | [Heq | Hgt]].
  - destruct Hc as [(? & ? & ?) | (? & ? & ?)], Hc' as [(? & ? & ?) | (? & ? & ?)];
      subst; lia.
  - subst E0'.
    assert (Hu : (x * bpow (- E0) <= x' * bpow (- E0))%R).
    { pose proof (bpow_pos (- E0)). nra. }
    pose proof (nearest_even_mono _ _ _ _ Hn Hn' Hu) as HMM.
    destruct Hc as [(? & ? & ?) | (? & ? & ?)], Hc' as [(? & ? & ?) | (? & ? & ?)];
      subst; lia.
  - exfalso.
    assert (Hp : (bpow (- E0') = bpow (- E0) * bpow (E0 - E0'))%R).
    { rewrite <- bpow_add. f_equal. lia. }
    assert (H2 : (2 <= bpow (E0 - E0'))%R).
    { rewrite <- bpow_1. apply bpow_le. lia. }
    pose proof (bpow_pos (- E0)). pose proof (bpow_pos (- E0')).
    assert (Hxx : (x * bpow (- E0) <= x' * bpow (- E0))%R) by nra.
    rewrite Hp in Hb'.
    change (IZR (2 ^ 53)) with (2 * IZR (2 ^ 52))%R in Hb'. 
    assert (0 < IZR (2 ^ 52))%R by (apply IZR_lt; lia).
    nra.
Qed.

(** *** [binary_round_aux] on the normal range *)

Lemma fexp_normal z : - 1074 <= z - 53 -> fexp prec emax z = z - 53.
Proof. unfold fexp, SpecFloat.emin, prec, emax. lia. Qed.

Lemma round_nearest_even_spec mrs u :
  rec_located mrs u ->
  let M := round_nearest_even (shr_m mrs) (loc_of_shr_record mrs) in
  nearest_even u M /\ shr_m mrs <= M <= shr_m mrs + 1.
Proof.
  unfold rec_located, nearest_even.
  destruct mrs as [m [|] [|]]; cbn [shr_m loc_of_shr_record located round_nearest_even].
  - intros H. rewrite plus_IZR. split; [split; [lra |] | lia].
    intros [E | E]; lra.
  - intros H. destruct (Z.even m) eqn:Em.
    + split; [split; [lra |] | lia]. auto.
    + rewrite plus_IZR. split; [split; [lra |] | lia].
      intros _. rewrite Z.even_add, Em. reflexivity.
  - intros H. split; [split; [lra |] | lia]. intros [E | E]; lra.
  - intros H. split; [split; [lra |] | lia]. intros [E | E]; lra.
Qed.

(** The first shift brings the mantissa to 53 bits. *)
Lemma shr_fexp_normal p e l x :
  2 ^ 52 <= Zpos p ->
  located (Zpos p) l (x * bpow (- e)) ->
  let E := e + Zpos (digits2_pos p) - 53 in
  - 1074 <= E ->
  exists mrs,
    shr_fexp prec emax (Zpos p) e l = (mrs, E)
    /\ rec_located mrs (x * bpow (- E))
    /\ (IZR (2 ^ 52) <= x * bpow (- E) < IZR (2 ^ 53))%R.
Proof.
  intros Hp Hloc E HE.
  pose proof (digits_bounds p) as Hd.
  set (d := Zpos (digits2_pos p)) in *.
  assert (Hd53 : 53 <= d).
  { destruct (Z_lt_le_dec d 53) as [Hlt | Hge]; [| exact Hge].
    assert (2 ^ d <= 2 ^ 52) by (apply Z.pow_le_mono_r; lia). lia. }
  unfold shr_fexp. cbn [Zdigits2]. fold d.
  rewrite fexp_normal by (unfold E in HE; lia).
  pose proof (shr_located (shr_record_of_loc (Zpos p) l) e (d + e - 53 - e) x) as Hs.
  destruct (shr (shr_record_of_loc (Zpos p) l) e (d + e - 53 - e)) as [mrs e1].
  cbn [fst snd] in Hs.
  destruct Hs as (Hl1 & Hm1 & He1).
  { destruct l as [| []]; cbn; lia. }
  { now apply located_record. }
  assert (He : e1 = E) by (unfold E; lia). clear He1. rewrite He in *. clear He e1.
  exists mrs. split; [reflexivity | split; [exact Hl1 |]].
  apply located_bounds in Hloc.
  assert (Hpow : (x * bpow (- E) = x * bpow (- e) * bpow (- (d - 53)))%R).
  { rewrite Rmult_assoc, <- bpow_add. do 2 f_equal. unfold E. lia. }
  rewrite Hpow.
  pose proof (bpow_pos (- (d - 53))) as Hpos.
  assert (Hlo : (bpow (d - 1) <= x * bpow (- e))%R).
  { rewrite (bpow_IZR (d - 1)) by lia.
    apply Rle_trans with (IZR (Zpos p)); [apply IZR_le; lia | lra]. }
  assert (Hhi : (x * bpow (- e) < bpow d)%R).
  { rewrite (bpow_IZR d) by lia.
    apply Rlt_le_trans with (IZR (Zpos p) + 1)%R; [lra |].
    rewrite <- plus_IZR. apply IZR_le. lia. }
  assert (H52 : (bpow (d - 1) * bpow (- (d - 53)) = IZR (2 ^ 52))%R).
  { rewrite <- bpow_add. replace (d - 1 + - (d - 53)) with 52 by lia.
    now rewrite bpow_IZR by lia. }
  assert (H53 : (bpow d * bpow (- (d - 53)) = IZR (2 ^ 53))%R).
  { rewrite <- bpow_add. replace (d + - (d - 53)) with 53 by lia.
    now rewrite bpow_IZR by lia. }
  rewrite <- H52, <- H53. split.
  - apply Rmult_le_compat_r; lra.
  - apply Rmult_lt_compat_r; lra.
Qed.

(** The second shift absorbs a carry to [2^53]. *)
Lemma renormalise M0 E :
  2 ^ 52 <= M0 <= 2 ^ 53 -> - 1074 <= E <= 970 ->
  exists M E',
    (let '(mrs, e) := shr_fexp prec emax M0 E loc_Exact in
     match shr_m mrs with
     | Z0 => S754_zero false
     | Zpos m => if e <=? emax - prec then S754_finite false m e else S754_infinity false
     | Zneg _ => S754_nan
     end) = S754_finite false M E'
    /\ ((M0 < 2 ^ 53 /\ Zpos M = M0 /\ E' = E)
        \/ (M0 = 2 ^ 53 /\ Zpos M = 2 ^ 52 /\ E' = E + 1)).
Proof.
  intros HM HE. destruct M0 as [| p | p]; try lia.
  destruct (Z.eq_dec (Zpos p) (2 ^ 53)) as [Heq | Hne].
  - assert (Hd : Zpos (digits2_pos p) = 54) by (apply digits_unique; rewrite Heq; simpl; lia).
    exists (2 ^ 52)%positive, (E + 1).
    split; [| right; split; [exact Heq | split; reflexivity]].
    unfold shr_fexp. cbn [Zdigits2]. rewrite Hd.
    rewrite fexp_normal by lia.
    replace (54 + E - 53 - E) with 1 by lia.
    injection Heq as ->.
    cbn [shr shr_record_of_loc SpecFloat.iter_pos shr_1 shr_m orb].
    unfold emax, prec. destruct (Z.leb_spec (E + 1) (1024 - 53)); [reflexivity | lia].
  - exists p, E. split; [| left; repeat split; lia].
    unfold shr_fexp. cbn [Zdigits2].
    rewrite (digits_unique p 53) by (simpl; lia).
    rewrite fexp_normal by lia.
    replace (53 + E - 53 - E) with 0 by lia.
    cbn [shr shr_record_of_loc shr_m].
    unfold emax, prec. destruct (Z.leb_spec E (1024 - 53)); [reflexivity | lia].
Qed.

Lemma binary_round_aux_normal p e l x :
  2 ^ 52 <= Zpos p ->
  located (Zpos p) l (x * bpow (- e)) ->
  - 1074 <= e + Zpos (digits2_pos p) - 53 <= 970 ->
  exists M E, binary_round_aux prec emax false (Zpos p) e l = S754_finite false M E
              /\ RNE x M E.
Proof.
  intros Hp Hloc HE.
  destruct (shr_fexp_normal p e l x Hp Hloc) as (mrs & Hshr & Hl1 & Hb); [lia |].
  set (E0 := e + Zpos (digits2_pos p) - 53) in *.
  destruct (round_nearest_even_spec mrs _ Hl1) as [Hn _].
  set (M0 := round_nearest_even (shr_m mrs) (loc_of_shr_record mrs)) in *.
  pose proof (nearest_even_range _ _ Hn Hb) as HM0.
  destruct (renormalise M0 E0 HM0 HE) as (M & E' & Hres & Hcase).
  exists M, E'. split.
  - unfold binary_round_aux. rewrite Hshr. fold M0. exact Hres.
  - exists M0, E0. auto.
Qed.

Lemma RNE_mantissa x M E : RNE x M E -> 2 ^ 52 <= Zpos M < 2 ^ 53.
Proof.
  intros (M0 & E0 & Hb & Hn & Hc).
  pose proof (nearest_even_range _ _ Hn Hb).
  destruct Hc as [(? & ? & ?) | (? & ? & ?)]; lia.
Qed.

Lemma RNE_exponent x M E lo hi :
  RNE x M E -> (bpow lo <= x)%R -> (x < bpow hi)%R -> lo - 52 <= E <= hi - 52.
Proof.
  intros (M0 & E0 & [Hb1 Hb2] & Hn & Hc) Hlo Hhi.
  pose proof (bpow_pos (- E0)) as Hpos.
  assert (H1 : (bpow (lo + - E0) < bpow 53)%R).
  { rewrite bpow_add, (bpow_IZR 53) by lia.
    apply Rle_lt_trans with (x * bpow (- E0))%R; [| exact Hb2].
    apply Rmult_le_compat_r; lra. }
  assert (H2 : (bpow 52 < bpow (hi + - E0))%R).
  { rewrite bpow_add, (bpow_IZR 52) by lia.
    apply Rle_lt_trans with (x * bpow (- E0))%R; [exact Hb1 |].
    apply Rmult_lt_compat_r; lra. }
  apply bpow_lt_inv in H1, H2.
  destruct Hc as [(? & ? & ?) | (? & ? & ?)]; lia.
Qed.

Lemma value_pos M E : (0 < value M E)%R.
Proof.
  unfold value. apply Rmult_lt_0_compat; [apply IZR_lt; lia | apply bpow_pos].
Qed.

Lemma value_order M E M' E' :
  2 ^ 52 <= Zpos M < 2 ^ 53 -> 2 ^ 52 <= Zpos M' < 2 ^ 53 ->
  E < E' \/ (E = E' /\ (M <= M')%positive) ->
  (value M E <= value M' E')%R.
Proof.
  intros HM HM' [Hlt | [-> Hle]]; unfold value.
  - apply Rle_trans with (bpow (E + 53)).
    + rewrite bpow_add, (bpow_IZR 53), Rmult_comm by lia.
      apply Rmult_le_compat_l; [pose proof (bpow_pos E); lra | apply IZR_le; lia].
    + apply Rle_trans with (bpow (E' + 52)); [apply bpow_le; lia |].
      rewrite bpow_add, (bpow_IZR 52), Rmult_comm by lia.
      apply Rmult_le_compat_r; [pose proof (bpow_pos E'); lra | apply IZR_le; lia].
  - apply Rmult_le_compat_r; [pose proof (bpow_pos E'); lra | apply IZR_le; lia].
Qed.

Lemma SFleb_order M E M' E' :
  E < E' \/ (E = E' /\ (M <= M')%positive) ->
  SFleb (S754_finite false M E) (S754_finite false M' E') = true.
Proof.
  unfold SFleb, SFcompare. intros [Hlt | [-> Hle]].
  - apply Z.compare_lt_iff in Hlt. now rewrite Hlt.
  - rewrite Z.compare_refl. change (Pos.compare_cont Eq M M') with (Pos.compare M M').
    destruct (Pos.compare_spec M M'); try reflexivity. lia.
Qed.

(** *** Conversion of an integer *)

Lemma iter_xO p d : Zpos (Pos.iter xO p d) = Zpos p * 2 ^ Zpos d.
Proof.
  induction d as [| d IH] using Pos.peano_ind.
  - simpl. lia.
  - rewrite Pos.iter_succ, Pos2Z.inj_xO, IH, Pos2Z.inj_succ, Z.pow_succ_r by lia. ring.
Qed.

Lemma binary_normalize_int n :
  1 <= n < 2 ^ 63 ->
  exists M E, binary_normalize prec emax n 0 false = S754_finite false M E
              /\ RNE (IZR n) M E /\ - 52 <= E <= 11.
Proof.
  intros Hn. destruct n as [| p | p]; try lia.
  pose proof (digits_bounds p) as Hd.
  set (d := Zpos (digits2_pos p)) in *.
  assert (Hd1 : 1 <= d <= 63).
  { split; [unfold d; lia |].
    destruct (Z_le_gt_dec d 63) as [Hle | Hgt]; [exact Hle |].
    assert (2 ^ 63 <= 2 ^ (d - 1)) by (apply Z.pow_le_mono_r; lia). lia. }
  cbn [binary_normalize]. unfold binary_round. fold d.
  rewrite Z.add_0_r, fexp_normal by lia.
  assert (Hbra : forall mz ez,
            2 ^ 52 <= Zpos mz -> IZR (Zpos p) = (IZR (Zpos mz) * bpow ez)%R ->
            - 1074 <= ez + Zpos (digits2_pos mz) - 53 <= 970 ->
            exists M E, binary_round_aux prec emax false (Zpos mz) ez loc_Exact
                        = S754_finite false M E
                        /\ RNE (IZR (Zpos p)) M E /\ - 52 <= E <= 11).
  { intros mz ez Hmz Hval Hrange.
    destruct (binary_round_aux_normal mz ez loc_Exact (IZR (Zpos p)) Hmz) as (M & E & Hres & Hr).
    - cbn [located]. rewrite Hval, Rmult_assoc, bpow_opp. ring.
    - exact Hrange.
    - exists M, E. split; [exact Hres | split; [exact Hr |]].
      replace (-52) with (0 - 52) by lia. replace 11 with (63 - 52) by lia.
      apply (RNE_exponent _ _ _ _ _ Hr).
      + rewrite bpow_0. apply IZR_le. lia.
      + rewrite (bpow_IZR 63) by lia. apply IZR_lt. lia. }
  unfold shl_align. destruct (d - 53 - 0) as [| s | s] eqn:Hs.
  - apply Hbra.
    + replace d with 53 in Hd by lia. simpl in Hd. simpl. lia.
    + rewrite bpow_0. ring.
    + fold d. lia.
  - apply Hbra.
    + assert (2 ^ 52 <= 2 ^ (d - 1)) by (apply Z.pow_le_mono_r; lia). lia.
    + rewrite bpow_0. ring.
    + fold d. lia.
  - assert (Hsd : Zpos s = 53 - d) by lia.
    assert (Hmz : Zpos (Pos.iter xO p s) = Zpos p * 2 ^ (53 - d)) by (rewrite iter_xO, Hsd; reflexivity).
    assert (Hdz : Zpos (digits2_pos (Pos.iter xO p s)) = 53).
    { apply digits_unique. rewrite Hmz. 
      replace (2 ^ (53 - 1)) with (2 ^ (d - 1) * 2 ^ (53 - d))
        by (rewrite <- Z.pow_add_r by lia; f_equal; lia).
      replace (2 ^ 53) with (2 ^ d * 2 ^ (53 - d))
        by (rewrite <- Z.pow_add_r by lia; f_equal; lia).
      assert (0 < 2 ^ (53 - d)) by (apply Z.pow_pos_nonneg; lia).
      split; [apply Z.mul_le_mono_nonneg_r | apply Z.mul_lt_mono_pos_r]; lia. }
    apply Hbra.
    + pose proof (digits_bounds (Pos.iter xO p s)) as Hb. rewrite Hdz in Hb. simpl in Hb |- *. lia.
    + rewrite Hmz, mult_IZR, <- (bpow_IZR (53 - d)) by lia.
      rewrite Rmult_assoc, <- bpow_add.
      replace (53 - d + (d - 53)) with 0 by lia. rewrite bpow_0. ring.
    + rewrite Hdz. lia.
Qed.

(** *** Division *)

Lemma new_location_located nb k q u :
  0 <= k < nb ->
  (u * IZR nb = IZR q * IZR nb + IZR k)%R ->
  located q (new_location nb k) u.
Proof.
  intros Hk Hu.
  assert (HN : (0 < IZR nb)%R) by (apply IZR_lt; lia).
  assert (Hcmp : forall a b : Z, a < b -> (IZR a < IZR b)%R) by (intros; now apply IZR_lt).
  assert (Hzero : k = 0 -> u = IZR q).
  { intros ->. apply Rmult_eq_reg_r with (IZR nb); lra. }
  assert (Hhalf : (2 * IZR k = IZR nb)%R -> (u = IZR q + / 2)%R).
  { intros Hc. apply Rmult_eq_reg_r with (IZR nb); [| lra].
    replace ((IZR q + / 2) * IZR nb)%R with (IZR q * IZR nb + IZR nb / 2)%R by field.
    lra. }
  assert (Hlow : k <> 0 -> (2 * IZR k < IZR nb)%R -> (IZR q < u < IZR q + / 2)%R).
  { intros Hne Hl. assert (Hkpos : (0 < IZR k)%R) by (apply IZR_lt; lia). split.
    - apply Rmult_lt_reg_r with (IZR nb); [exact HN | lra].
    - apply Rmult_lt_reg_r with (IZR nb); [exact HN |].
      replace ((IZR q + / 2) * IZR nb)%R with (IZR q * IZR nb + IZR nb / 2)%R by field. lra. }
  assert (Hhigh : (IZR nb < 2 * IZR k)%R -> (IZR q + / 2 < u < IZR q + 1)%R).
  { intros Hg. assert (Hklt : (IZR k < IZR nb)%R) by (apply IZR_lt; lia). split.
    - apply Rmult_lt_reg_r with (IZR nb); [exact HN |].
      replace ((IZR q + / 2) * IZR nb)%R with (IZR q * IZR nb + IZR nb / 2)%R by field. lra.
    - apply Rmult_lt_reg_r with (IZR nb); [exact HN |].
      replace ((IZR q + 1) * IZR nb)%R with (IZR q * IZR nb + IZR nb)%R by ring. lra. }
  unfold new_location. destruct (Z.even nb) eqn:Ev.
  - unfold new_location_even.
    destruct (Z.eqb_spec k 0) as [Hk0 | Hne]; [now apply Hzero |].
    destruct (Z.compare_spec (2 * k) nb) as [He | Hl | Hg]; cbn [located].
    + apply Hhalf. rewrite <- He, mult_IZR. lra.
    + apply Hlow; [exact Hne |]. apply Hcmp in Hl. now rewrite mult_IZR in Hl.
    + apply Hhigh. apply Hcmp in Hg. now rewrite mult_IZR in Hg.
  - unfold new_location_odd.
    destruct (Z.eqb_spec k 0) as [Hk0 | Hne]; [now apply Hzero |].
    assert (Hodd : 2 * k <> nb).
    { intros <-. rewrite Z.even_mul in Ev. discriminate. }
    destruct (Z.compare_spec (2 * k + 1) nb) as [He | Hl | Hg]; cbn [located].
    + apply Hlow; [exact Hne |]. rewrite <- He, plus_IZR, mult_IZR. lra.
    + apply Hlow; [exact Hne |]. apply Hcmp in Hl. rewrite plus_IZR, mult_IZR in Hl. lra.
    + apply Hhigh. assert (Hg' : nb < 2 * k) by lia.
      apply Hcmp in Hg'. now rewrite mult_IZR in Hg'.
Qed.

(** Division of two normal numbers, away from underflow and overflow,
    rounds the exact quotient. *)
Lemma SFdiv_normal mx ex my ey :
  2 ^ 52 <= Zpos mx < 2 ^ 53 -> 2 ^ 52 <= Zpos my < 2 ^ 53 ->
  - 1021 <= ex - ey <= 1022 ->
  exists M E,
    SFdiv prec emax (S754_finite false mx ex) (S754_finite false my ey)
      = S754_finite false M E
    /\ RNE (value mx ex / value my ey) M E.
Proof.
  intros Hmx Hmy He.
  cbn [SFdiv xorb]. unfold SFdiv_core_binary. cbn [Zdigits2].
  rewrite (digits_unique mx 53), (digits_unique my 53) by (simpl; lia).
  replace (53 + ex - (53 + ey)) with (ex - ey) by lia.
  rewrite fexp_normal by lia.
  replace (Z.min (ex - ey - 53) (ex - ey)) with (ex - ey - 53) by lia.
  replace (ex - ey - (ex - ey - 53)) with 53 by lia.
  cbv iota beta. rewrite Z.shiftl_mul_pow2 by lia.
  pose proof (Z_div_mod (Zpos mx * 2 ^ 53) (Zpos my) eq_refl) as Hdiv.
  destruct (Z.div_eucl (Zpos mx * 2 ^ 53) (Zpos my)) as [q r].
  destruct Hdiv as [Hq Hr].
  assert (Hqb : 2 ^ 52 <= q < 2 ^ 54).
  { change (2 ^ 54) with (2 * 2 ^ 53). change (2 ^ 53) with (2 * 2 ^ 52) in *.
    generalize dependent (2 ^ 52). intros P HP1 HP2 HP3. split; nia. }
  destruct q as [| pq | pq]; try (simpl in Hqb; lia).
  set (e' := ex - ey - 53) in *.
  assert (Hval : (value mx ex / value my ey * bpow (- e') * IZR (Zpos my)
                  = IZR (Zpos pq) * IZR (Zpos my) + IZR r)%R).
  { rewrite <- mult_IZR, <- plus_IZR, (Z.mul_comm (Zpos pq)), <- Hq, mult_IZR.
    rewrite <- (bpow_IZR 53) by lia. unfold value.
    replace (- e') with (53 + - ex + ey) by (unfold e'; lia).
    rewrite !bpow_add.
    pose proof (bpow_opp ex) as Hox. pose proof (bpow_pos ey) as Hey.
    pose proof (bpow_pos ex) as Hex.
    assert (Hmy0 : (0 < IZR (Zpos my))%R) by (apply IZR_lt; lia).
    assert (Hinv : bpow (- ex) = (/ bpow ex)%R).
    { apply Rmult_eq_reg_l with (bpow ex); [| lra]. rewrite Hox. field. lra. }
    rewrite Hinv. field. lra. }
  apply binary_round_aux_normal.
  - lia.
  - now apply new_location_located.
  - pose proof (digits_bounds pq) as Hd.
    assert (53 <= Zpos (digits2_pos pq) <= 54).
    { set (d := Zpos (digits2_pos pq)) in *. split.
      - destruct (Z_lt_le_dec d 53) as [Hlt | Hge]; [| exact Hge].
        assert (2 ^ d <= 2 ^ 52) by (apply Z.pow_le_mono_r; lia). lia.
      - destruct (Z_le_gt_dec d 54) as [Hle | Hgt]; [exact Hle |].
        assert (2 ^ 54 <= 2 ^ (d - 1)) by (apply Z.pow_le_mono_r; lia). lia. }
    unfold e'. lia.
Qed.

(** Dividing by the same normal number keeps the order. *)
Lemma SFdiv_mono m1 e1 m2 e2 my ey x1 x2 :
  RNE x1 m1 e1 -> RNE x2 m2 e2 -> (x1 <= x2)%R ->
  2 ^ 52 <= Zpos my < 2 ^ 53 ->
  - 1021 <= e1 - ey <= 1022 -> - 1021 <= e2 - ey <= 1022 ->
  SFleb (SFdiv prec emax (S754_finite false m1 e1) (S754_finite false my ey))
        (SFdiv prec emax (S754_finite false m2 e2) (S754_finite false my ey)) = true.
Proof.
  intros H1 H2 Hx Hmy He1 He2.
  pose proof (RNE_mantissa _ _ _ H1) as Hm1. pose proof (RNE_mantissa _ _ _ H2) as Hm2.
  destruct (SFdiv_normal m1 e1 my ey Hm1 Hmy He1) as (M1 & E1 & -> & Hr1).
  destruct (SFdiv_normal m2 e2 my ey Hm2 Hmy He2) as (M2 & E2 & -> & Hr2).
  apply SFleb_order. apply (RNE_mono _ _ _ _ _ _ Hr1 Hr2).
  pose proof (value_order _ _ _ _ Hm1 Hm2 (RNE_mono _ _ _ _ _ _ H1 H2 Hx)) as Hv.
  pose proof (value_pos my ey) as Hy.
  unfold Rdiv. apply Rmult_le_compat_r; [| exact Hv].
  apply Rlt_le, Rinv_0_lt_compat, Hy.
Qed.

End Binary64Facts.

(** ** Average and slugging *)

Module AggregateOrder.
Import DataLoader AggregateFacts AggregateRefinement.

Lemma Prim2SF_of_int n :
  0 <= n < 2 ^ 63 -> Prim2SF (of_int n) = binary_normalize prec emax n 0 false.
Proof.
  intros Hn. unfold of_int. rewrite of_uint63_spec, Uint63.of_Z_spec.
  rewrite Z.mod_small; [reflexivity |]. exact Hn.
Qed.

(** Quotients of counters by the same positive counter are ordered like
    their numerators. *)
Lemma int_quotients_ordered h t a :
  0 <= h <= t -> t < 2 ^ 63 -> 1 <= a < 2 ^ 63 ->
  (of_int h / of_int a <=? of_int t / of_int a)%float = true.
Proof.
  intros Hht Ht Ha.
  rewrite FloatAxioms.leb_spec, !FloatAxioms.div_spec, !Prim2SF_of_int by lia.
  destruct (Binary64Facts.binary_normalize_int a Ha) as (Ma & Ea & -> & Hra & HEa).
  pose proof (Binary64Facts.RNE_mantissa _ _ _ Hra) as HMa.
  destruct (Z.eq_dec h 0) as [-> | Hh].
  - cbn [binary_normalize SF64div SFdiv xorb].
    destruct (Z.eq_dec t 0) as [-> | Ht0]; [reflexivity |].
    destruct (Binary64Facts.binary_normalize_int t) as (Mt & Et & -> & Hrt & HEt); [lia |].
    pose proof (Binary64Facts.RNE_mantissa _ _ _ Hrt) as HMt.
    destruct (Binary64Facts.SFdiv_normal Mt Et Ma Ea HMt HMa) as (M & E & Hdiv & _); [lia |].
    unfold SF64div. rewrite Hdiv. reflexivity.
  - destruct (Binary64Facts.binary_normalize_int h) as (Mh & Eh & -> & Hrh & HEh); [lia |].
    destruct (Binary64Facts.binary_normalize_int t) as (Mt & Et & -> & Hrt & HEt); [lia |].
    unfold SF64div.
    apply (Binary64Facts.SFdiv_mono Mh Eh Mt Et Ma Ea (IZR h) (IZR t)); auto; try lia.
    apply IZR_le. lia.
Qed.

Lemma count_rows_le_length p group : count_rows p group <= Z.of_nat (List.length group).
Proof.
  unfold count_rows. apply Nat2Z.inj_le. induction group as [| r g IH]; simpl; [lia |].
  destruct (p r); simpl; lia.
Qed.

Lemma group_of_length df b : (List.length (group_of df b) <= List.length df)%nat.
Proof.
  unfold group_of. induction df as [| r g IH]; simpl; [lia |].
  destruct (batter r =? b); simpl; lia.
Qed.

(** C5. For every dataset whose row count fits the [int64] counters and
    every batter row of [calculate_batter_stats], the average is less than
    or equal to the slugging (both are 0.0 when there is no at-bat). *)
Theorem average_at_most_slugging (df : DataFrame) (b : Z) (s : BatterStats) :
  Z.of_nat (List.length df) < 2 ^ 61 ->
  loc b (calculate_batter_stats df) = Some s ->
  (avg s <=? slg s)%float = true.
Proof.
  intros Hsize Hloc. destruct (loc_some _ _ _ Hloc) as [_ ->].
  set (g := group_of df b).
  assert (Hg : Z.of_nat (List.length g) < 2 ^ 61).
  { pose proof (group_of_length df b). fold g in H. lia. }
  destruct (Z.eq_dec (at_bats g) 0) as [Hz | Hnz].
  - rewrite (get_stats_zero _ Hz). reflexivity.
  - rewrite (get_stats_pos _ Hnz). cbn [avg slg].
    pose proof (hits_by_kind g) as Hkinds.
    pose proof (count_rows_nonneg (fun r => PyStr.cell_eqb (events r) "single") g).
    pose proof (count_rows_nonneg (fun r => PyStr.cell_eqb (events r) "double") g).
    pose proof (count_rows_nonneg (fun r => PyStr.cell_eqb (events r) "triple") g).
    pose proof (count_rows_nonneg (fun r => PyStr.cell_eqb (events r) "home_run") g).
    pose proof (count_rows_le_length (fun r => PyStr.isin (events r) hit_events) g) as Hh.
    pose proof (count_rows_le_length (fun r => PyStr.isin (events r) ab_events) g) as Hab.
    pose proof (count_rows_nonneg (fun r => PyStr.isin (events r) ab_events) g) as Hab0.
    fold (hits g) in Hh. fold (at_bats g) in Hab, Hab0.
    apply int_quotients_ordered; unfold total_bases; lia.
Qed.

End AggregateOrder.

(** ** The properties on the concrete scenarios *)

Module ScenarioFacts.
Import DataLoader Lookup Optimizer.
Import AggregateFacts AggregateRefinement AggregateOrder LookupFacts ProfileFacts.
Import OptimizerFacts.
Import Scenario.

Lemma zero_at_bats_all_zero_witness :
  loc judge (calculate_batter_stats walk_only_history)
    = Some {| avg := 0%float; slg := 0%float; iso := 0%float |}.
Proof.
  apply (zero_at_bats_all_zero walk_only_history judge).
  - simpl. auto.
  - reflexivity.
Defined.

Lemma iso_is_slg_minus_avg_witness :
  let s := {| avg := 0.5%float; slg := 0.5%float; iso := 0%float |} in
  iso s = (slg s - avg s)%float
  /\ avg s = (of_int (hits (group_of three_row_history judge))
              / of_int (at_bats (group_of three_row_history judge)))%float
  /\ slg s = (of_int (total_bases (group_of three_row_history judge))
              / of_int (at_bats (group_of three_row_history judge)))%float.
Proof.
  apply (iso_is_slg_minus_avg three_row_history judge).
  - reflexivity.
  - reflexivity.
Defined.

Lemma aggregates_follow_counting_rules_witness :
  loc judge (calculate_batter_stats three_row_history)
    = Some (AggregateSpec.aggregates (group_of three_row_history judge))
  /\ get_stats (pitch (Some "walk") :: three_row_history) = get_stats three_row_history
  /\ loc judge (calculate_batter_stats three_row_history)
     = Some {| avg := 0.5%float; slg := 0.5%float; iso := 0%float |}.
Proof.
  destruct aggregates_follow_counting_rules as (Hspec & Hskip & Hexample).
  split; [| split].
  - apply Hspec. simpl. auto.
  - apply Hskip. left. reflexivity.
  - apply Hexample; reflexivity.
Defined.

Lemma average_at_most_slugging_witness :
  let s := {| avg := 0.5%float; slg := 0.5%float; iso := 0%float |} in
  (avg s <=? slg s)%float = true.
Proof.
  apply (average_at_most_slugging three_row_history judge
           {| avg := 0.5%float; slg := 0.5%float; iso := 0%float |}).
  - simpl. lia.
  - reflexivity.
Defined.

Lemma missing_artifacts_reported_witness :
  optimize_lineup world_without_scaler "Gerrit Cole" lineup =
    (Returned (ErrorMessage "Model or Scaler not found. Please train the model first."), []).
Proof.
  apply missing_artifacts_reported. right. reflexivity.
Defined.




Lemma get_player_id_short_or_failing_witness :
  get_player_id full_world "  Madonna " = (Returned None, [])
  /\ fst (get_player_id full_world "Shut Down") = Returned None.
Proof.
  split.
  - apply (proj1 (get_player_id_short_or_failing full_world "  Madonna ")).
    simpl. lia.
  - apply (proj2 (proj2 (get_player_id_short_or_failing full_world "Shut Down"))
             LookupFailure).
    reflexivity.
Defined.

Lemma ranking_is_descending_and_stable_witness :
  (exists lineup_data results trace,
      let predictions := four_probabilities (unit_scaler lineup_data) in
      let input := map to_prediction (combine lineup predictions) in
      List.length lineup_data = List.length lineup
      /\ optimize_lineup full_world "Gerrit Cole" lineup = (Returned (Ranking results), trace)
      /\ Permutation results input
      /\ StronglySorted
           (fun a b => (predicted_hit_prob b <=? predicted_hit_prob a)%float = true)
           results
      /\ forall p, filter (fun r => (predicted_hit_prob r =? p)%float) results
                   = filter (fun r => (predicted_hit_prob r =? p)%float) input)
  /\ (exists results trace,
        optimize_lineup full_world "Gerrit Cole" lineup = (Returned (Ranking results), trace)
        /\ map mp_batter results = ["Aaron Judge"; "Nobody Here"; "Juan Soto"; "Madonna"]).
Proof.
  destruct ranking_is_descending_and_stable as (Hgeneral & Hexample).
  split.
  - apply (Hgeneral full_world "Gerrit Cole" lineup four_probabilities unit_scaler
             three_row_history (calculate_batter_stats three_row_history)
             eq_refl eq_refl eq_refl eq_refl).
    + discriminate.
    + intros X HX. split.
      * symmetry. exact HX.
      * repeat constructor.
  - apply (Hexample full_world "Gerrit Cole"
             "Juan Soto" "Aaron Judge" "Nobody Here" "Madonna"
             four_probabilities unit_scaler three_row_history
             (calculate_batter_stats three_row_history));
      reflexivity.
Defined.




End ScenarioFacts.

(** * Further properties of the code *)

(** ** The index of the aggregate frame *)

Module StatsIndexFacts.
Import DataLoader AggregateFacts.

Lemma insert_key_sorted k ks :
  StronglySorted Z.lt ks -> StronglySorted Z.lt (insert_key k ks).
Proof.
  induction 1 as [| k' ks Hs IH Hall]; simpl.
  - repeat constructor.
  - destruct (Z.ltb_spec k k').
    + constructor; [now constructor |]. constructor; [assumption |].
      rewrite Forall_forall in *. intros x Hx. specialize (Hall x Hx). lia.
    + destruct (Z.eqb_spec k k') as [-> | Hne].
      * now constructor.
      * constructor; [exact IH |].
        rewrite Forall_forall in *. intros x Hx.
        apply insert_key_In in Hx. destruct Hx as [-> | Hx]; [lia | auto].
Qed.

Lemma group_keys_sorted df : StronglySorted Z.lt (group_keys df).
Proof.
  induction df as [| r df IH]; simpl; [constructor | now apply insert_key_sorted].
Qed.

Lemma group_keys_NoDup df : NoDup (group_keys df).
Proof.
  pose proof (group_keys_sorted df) as Hs.
  induction Hs as [| k ks Hs IH Hall]; constructor; [| exact IH].
  rewrite Forall_forall in Hall. intros Hin. specialize (Hall k Hin). lia.
Qed.

Lemma calculate_batter_stats_keys df : map fst (calculate_batter_stats df) = group_keys df.
Proof.
  unfold calculate_batter_stats. rewrite map_map. simpl. apply map_id.
Qed.

(** X1. The frame returned by [calculate_batter_stats] is indexed by the batter
    identifiers of the data, each once, in strictly ascending order, and it
    has a row exactly for the identifiers that occur in the data. *)
Theorem batter_stats_index (df : DataFrame) :
  let index := map fst (calculate_batter_stats df) in
  StronglySorted Z.lt index
  /\ NoDup index
  /\ (forall b, In b index <-> In b (map batter df))
  /\ (forall b, loc b (calculate_batter_stats df) = None <-> ~ In b (map batter df)).
Proof.
  cbv zeta. rewrite calculate_batter_stats_keys.
  pose proof (group_keys_sorted df) as Hs.
  split; [exact Hs | split; [| split]].
  - apply group_keys_NoDup.
  - apply group_keys_In.
  - intros b. rewrite loc_calculate_batter_stats.
    destruct (in_dec Z.eq_dec b (map batter df)); split; intros H;
      try discriminate; try reflexivity; try contradiction; auto.
Qed.

End StatsIndexFacts.

(** ** How a name is cut into first and last name *)

Module NamePartsFacts.
Import Lookup LookupFacts.

Lemma split_space_nonempty s : PyStr.split_space s <> [].
Proof.
  destruct s as [| c s]; simpl; [discriminate |].
  destruct (Ascii.eqb c " "); [discriminate |].
  destruct (PyStr.split_space s); discriminate.
Qed.

Lemma join_space_cons p l :
  l <> [] -> PyStr.join_space (p :: l) = p ++ " " ++ PyStr.join_space l.
Proof. destruct l; [contradiction | reflexivity]. Qed.

(** [' '.join(s.split(' '))] gives [s] back. *)
Lemma join_split s : PyStr.join_space (PyStr.split_space s) = s.
Proof.
  induction s as [| c s IH]; [reflexivity |].
  cbn [PyStr.split_space].
  destruct (Ascii.eqb_spec c " "%char) as [-> | Hc].
  - rewrite join_space_cons by apply split_space_nonempty. now rewrite IH.
  - pose proof (split_space_nonempty s) as Hne.
    destruct (PyStr.split_space s) as [| p ps]; [contradiction |].
    destruct ps as [| q qs].
    + simpl in *. now rewrite IH.
    + rewrite join_space_cons by discriminate.
      rewrite join_space_cons in IH by discriminate.
      simpl. now rewrite <- IH.
Qed.

Lemma split_space_parts_no_space s :
  Forall (fun p => forall c, In c (Trace.chars p) -> c <> " "%char) (PyStr.split_space s).
Proof.
  unfold Trace.chars.
  induction s as [| c s IH]; cbn [PyStr.split_space].
  - constructor; [| constructor]. intros c [].
  - destruct (Ascii.eqb_spec c " "%char) as [-> | Hc].
    + constructor; [| exact IH]. intros c [].
    + destruct (PyStr.split_space s) as [| p ps].
      * constructor; [| constructor]. simpl. intros c0 [<- | []]. exact Hc.
      * inversion IH as [| ? ? Hp Hps]; subst. constructor; [| exact Hps].
        simpl. intros c0 [<- | Hin]; [exact Hc | now apply Hp].
Qed.

Lemma rstrip_starts_with_token s :
  PyStr.starts_with_token s = true -> PyStr.starts_with_token (PyStr.rstrip s) = true.
Proof.
  destruct s as [| c s]; [reflexivity |]. cbn [PyStr.starts_with_token PyStr.rstrip].
  intros Hc. destruct (PyStr.rstrip s); [| exact Hc].
  apply negb_true_iff in Hc. rewrite Hc. exact (proj2 (negb_true_iff _) Hc).
Qed.

Lemma strip_starts_with_token name : PyStr.starts_with_token (PyStr.strip name) = true.
Proof. apply rstrip_starts_with_token, lstrip_starts_with_token. Qed.

(** The first part of a stripped name with a space in it is not empty. *)
Lemma first_part_nonempty s p q rest :
  PyStr.starts_with_token s = true ->
  PyStr.split_space s = p :: q :: rest -> p <> EmptyString.
Proof.
  destruct s as [| c s]; [discriminate |].
  cbn [PyStr.starts_with_token PyStr.split_space]. intros Hc.
  destruct (Ascii.eqb_spec c " "%char) as [-> | Hne]; [discriminate Hc |].
  destruct (PyStr.split_space s); intros [= <- _]; discriminate.
Qed.

(** X2. With two parts or more, [get_player_id] asks the provider exactly once,
    about a first name and a last name that put the stripped name together
    again; the first name is not empty and holds no space; the answer is the
    identifier of the first candidate, or [None] when there is none or the
    provider raises. *)
Theorem get_player_id_asks_first_and_rest (w : World) (name : string) :
  let parts := PyStr.split_space (PyStr.strip name) in
  let first := hd EmptyString parts in
  let last := PyStr.join_space (tl parts) in
  (2 <= List.length parts)%nat ->
  first ++ " " ++ last = PyStr.strip name
  /\ first <> EmptyString
  /\ (forall c, In c (Trace.chars first) -> c <> " "%char)
  /\ get_player_id w name =
       (Returned match playerid_lookup w last first with
                 | Returned (key_mlbam :: _) => Some key_mlbam
                 | _ => None
                 end,
        [PlayerIdLookup last first]).
Proof.
  intros parts first last Hlen.
  pose proof (join_split (PyStr.strip name)) as Hjoin.
  pose proof (split_space_parts_no_space (PyStr.strip name)) as Hparts.
  pose proof (strip_starts_with_token name) as Htok.
  unfold get_player_id. fold parts. fold parts in Hjoin, Hparts.
  assert (Hfirst : forall p q rest, PyStr.split_space (PyStr.strip name) = p :: q :: rest ->
                                    p <> EmptyString)
    by (intros p q rest; now apply first_part_nonempty).
  fold parts in Hfirst.
  subst first last. destruct parts as [| p [| q rest]]; simpl in Hlen; try lia.
  cbn [hd tl]. inversion Hparts as [| ? ? Hp _]; subst.
  split; [| split; [| split]].
  - rewrite <- Hjoin. reflexivity.
  - now apply (Hfirst p q rest).
  - exact Hp.
  - cbn [List.length Nat.ltb Nat.leb hd tl].
    unfold call_playerid_lookup, bind, try_except, ret.
    destruct (playerid_lookup w _ p) as [[| k data] | e]; reflexivity.
Qed.

Lemma rstrip_app a b :
  PyStr.rstrip b = b -> b <> EmptyString -> PyStr.rstrip (a ++ b) = a ++ b.
Proof.
  intros Hb Hne. induction a as [| c a IH]; [exact Hb |].
  simpl. rewrite IH. destruct (a ++ b) eqn:E; [| reflexivity].
  destruct a; simpl in E; [contradiction | discriminate].
Qed.

Lemma split_space_token first rest :
  PyStr.no_whitespace first = true ->
  PyStr.split_space (first ++ String " " rest) = first :: PyStr.split_space rest.
Proof.
  induction first as [| c f IH]; [reflexivity |].
  cbn [PyStr.no_whitespace]. intros H. apply andb_true_iff in H. destruct H as [Hc Hf].
  simpl. destruct (Ascii.eqb_spec c " "%char) as [-> | _]; [discriminate Hc |].
  now rewrite (IH Hf).
Qed.

(** A name written as a token, one space and a last name that does not end
    in whitespace is cut back into exactly these two. *)
Lemma parts_of_first_last first last :
  first <> EmptyString -> PyStr.no_whitespace first = true ->
  PyStr.rstrip last = last -> last <> EmptyString ->
  PyStr.split_space (PyStr.strip (first ++ " " ++ last)) = first :: PyStr.split_space last.
Proof.
  intros Hne Hws Hlast Hlne. unfold PyStr.strip.
  assert (Hl : PyStr.lstrip (first ++ " " ++ last) = first ++ " " ++ last).
  { destruct first as [| c f]; [contradiction |]. simpl in *.
    apply andb_true_iff in Hws. destruct Hws as [Hc _].
    apply negb_true_iff in Hc. now rewrite Hc. }
  rewrite Hl, rstrip_app.
  - now apply split_space_token.
  - simpl. rewrite Hlast. destruct last; [contradiction | reflexivity].
  - discriminate.
Qed.

End NamePartsFacts.

(** ** The lookup debugging script *)

Module DebugLookupFacts.
Import Lookup LookupFacts NamePartsFacts PyFormat DebugLookup.

(** X3. [debug_lookup(last, first)] and [get_player_id] of the name
    "first last" (with [first] one token and [last] not ending in
    whitespace) put the same single question to the provider, and
    [get_player_id] never raises.  Both return the same identifier unless the
    provider raises what is not an [Exception]: [debug_lookup] catches
    [Exception] only and lets such an exception escape, where the bare
    [except] of [get_player_id] turns it into [None]. *)
Theorem debug_lookup_agrees_with_get_player_id (describe : Exn -> string) (w : World)
    (last first : string) :
  first <> EmptyString -> PyStr.no_whitespace first = true ->
  PyStr.rstrip last = last -> last <> EmptyString ->
  let name := first ++ " " ++ last in
  Trace.provider_calls (snd (debug_lookup describe w last first)) = [(last, first)]
  /\ Trace.provider_calls (snd (get_player_id w name)) = [(last, first)]
  /\ (exists pid, fst (get_player_id w name) = Returned pid)
  /\ ((forall e, playerid_lookup w last first = Raised e -> is_exception e = true) ->
      fst (debug_lookup describe w last first) = fst (get_player_id w name))
  /\ (forall e, playerid_lookup w last first = Raised e -> is_exception e = false ->
      fst (debug_lookup describe w last first) = Raised e
      /\ fst (get_player_id w name) = Returned None).
Proof.
  intros Hne Hws Hlast Hlne name. subst name.
  pose proof (parts_of_first_last first last Hne Hws Hlast Hlne) as Hparts.
  pose proof (split_space_nonempty last) as Hsl.
  unfold get_player_id. rewrite Hparts.
  destruct (PyStr.split_space last) as [| q rest] eqn:Elast; [contradiction |].
  cbn [List.length Nat.ltb Nat.leb hd tl]. rewrite <- Elast, join_split.
  unfold debug_lookup, call_playerid_lookup, print, emit, bind, try_except,
    try_except_exception, ret.
  destruct (playerid_lookup w last first) as [[| k data] | e] eqn:Hprov.
  - split; [reflexivity | split; [reflexivity | split; [eexists; reflexivity | split]]].
    + intros _. reflexivity.
    + intros e' [=].
  - split; [reflexivity | split; [reflexivity | split; [eexists; reflexivity | split]]].
    + intros _. reflexivity.
    + intros e' [=].
  - destruct (is_exception e) eqn:He.
    + split; [reflexivity | split; [reflexivity | split; [eexists; reflexivity | split]]].
      * intros _. reflexivity.
      * intros e' [= <-] He'. congruence.
    + split; [reflexivity | split; [reflexivity | split; [eexists; reflexivity | split]]].
      * intros Hall. specialize (Hall e eq_refl). congruence.
      * intros e' [= <-] _. split; reflexivity.
Qed.

End DebugLookupFacts.

(** ** Profiles of players found in the data *)

Module FoundProfileFacts.
Import DataLoader AggregateFacts AggregateRefinement AggregateOrder.
Import Lookup LookupFacts ProfileFacts StatsIndexFacts.

Lemma get_player_id_prints_nothing w name r t :
  get_player_id w name = (r, t) -> Trace.printed_lines t = [].
Proof.
  unfold get_player_id.
  destruct (List.length (PyStr.split_space (PyStr.strip name)) <? 2)%nat.
  - intros [= <- <-]. reflexivity.
  - unfold call_playerid_lookup, bind, try_except, ret.
    destruct (playerid_lookup w _ _) as [[| k data] | e]; intros [= <- <-]; reflexivity.
Qed.

Lemma filter_nonempty_In {A} (f : A -> bool) (key : A -> Z) k l :
  (forall x, f x = (key x =? k)) -> In k (map key l) ->
  exists first rest, filter f l = first :: rest.
Proof.
  intros Hf Hin. apply in_map_iff in Hin. destruct Hin as (x & Hx & Hin).
  assert (Hfx : In x (filter f l)).
  { apply filter_In. split; [exact Hin |]. rewrite Hf. now apply Z.eqb_eq. }
  destruct (filter f l) as [| first rest]; [destruct Hfx | eauto].
Qed.

(** X4. A pitcher name that resolves to a non-null identifier present in the
    data gets the means over exactly that pitcher's rows and the handedness
    (0 or 1) of the first of them; nothing is printed. *)
Theorem pitcher_profile_of_known_pitcher (w : World) (df : DataFrame) (name : string)
    (k : Z) (trace : list Effect) :
  cache_file w = Some df ->
  get_player_id w name = (Returned (Some k), trace) ->
  k <> 0 ->
  In k (map pitcher df) ->
  exists first_row rest,
    filter (fun r => pitcher r =? k) df = first_row :: rest
    /\ get_pitcher_profile w name =
         (Returned (Some {| pp_release_speed :=
                              series_mean w (map release_speed (first_row :: rest));
                            pp_release_spin_rate :=
                              series_mean w (map release_spin_rate (first_row :: rest));
                            pp_p_throws := handedness (p_throws first_row) |}),
          trace)
    /\ (handedness (p_throws first_row) = 0 \/ handedness (p_throws first_row) = 1)
    /\ Trace.printed_lines trace = [].
Proof.
  intros Hc Hid Hk Hin.
  destruct (filter_nonempty_In (fun r => pitcher r =? k) pitcher k df) as (r0 & rest & Hrows);
    [reflexivity | exact Hin |].
  exists r0, rest. split; [exact Hrows |]. split; [| split].
  - unfold get_pitcher_profile. rewrite Hc, Hid. unfold bind at 1.
    cbn [truthy]. rewrite (proj2 (Z.eqb_neq k 0) Hk). cbn [negb].
    rewrite Hrows. cbn [ret]. now rewrite app_nil_r.
  - unfold handedness. destruct (String.eqb (p_throws r0) "R"); auto.
  - eapply get_player_id_prints_nothing. exact Hid.
Qed.

Lemma filter_map_keys (f : Z -> BatterStats) k ks :
  NoDup ks ->
  filter (fun kv => fst kv =? k) (map (fun b => (b, f b)) ks) =
    if in_dec Z.eq_dec k ks then [(k, f k)] else [].
Proof.
  induction 1 as [| b ks Hb Hnd IH]; [reflexivity |].
  cbn [map filter fst]. rewrite IH.
  destruct (Z.eqb_spec b k) as [-> | Hne].
  - destruct (in_dec Z.eq_dec k ks) as [Hin | _]; [contradiction |].
    destruct (in_dec Z.eq_dec k (k :: ks)) as [_ | Hout]; [reflexivity |].
    exfalso. apply Hout. now left.
  - destruct (in_dec Z.eq_dec k ks) as [Hin | Hout];
      destruct (in_dec Z.eq_dec k (b :: ks)) as [Hin' | Hout']; try reflexivity.
    + exfalso. apply Hout'. now right.
    + destruct Hin' as [-> | Hin']; contradiction.
Qed.

(** The rows of the derived frame for one identifier: one, or none. *)
Lemma filter_calculate_batter_stats df k :
  filter (fun kv => fst kv =? k) (calculate_batter_stats df) =
    if in_dec Z.eq_dec k (map batter df) then [(k, get_stats (group_of df k))] else [].
Proof.
  unfold calculate_batter_stats.
  pose proof (group_keys_In df) as Hin.
  rewrite (filter_map_keys (fun b => get_stats (group_of df b)) k _ (group_keys_NoDup df)).
  destruct (in_dec Z.eq_dec k (group_keys df)) as [H1 | H1];
    destruct (in_dec Z.eq_dec k (map batter df)) as [H2 | H2]; try reflexivity.
  - apply Hin in H1. contradiction.
  - apply Hin in H2. contradiction.
Qed.

Lemma get_stats_avg_le_slg group :
  Z.of_nat (List.length group) < 2 ^ 61 ->
  (avg (get_stats group) <=? slg (get_stats group))%float = true.
Proof.
  intros Hg. destruct (Z.eq_dec (at_bats group) 0) as [Hz | Hnz].
  - rewrite (get_stats_zero _ Hz). reflexivity.
  - rewrite (get_stats_pos _ Hnz). cbn [avg slg].
    pose proof (hits_by_kind group) as Hkinds.
    pose proof (count_rows_nonneg (fun r => PyStr.cell_eqb (events r) "single") group).
    pose proof (count_rows_nonneg (fun r => PyStr.cell_eqb (events r) "double") group).
    pose proof (count_rows_nonneg (fun r => PyStr.cell_eqb (events r) "triple") group).
    pose proof (count_rows_nonneg (fun r => PyStr.cell_eqb (events r) "home_run") group).
    pose proof (count_rows_le_length (fun r => PyStr.isin (events r) hit_events) group) as Hh.
    pose proof (count_rows_le_length (fun r => PyStr.isin (events r) ab_events) group) as Hab.
    pose proof (count_rows_nonneg (fun r => PyStr.isin (events r) ab_events) group) as Hab0.
    fold (hits group) in Hh. fold (at_bats group) in Hab, Hab0.
    apply int_quotients_ordered; unfold total_bases; lia.
Qed.

(** X5. When [batter_stats.csv] holds the aggregates of the cached data (as
    [preprocess_data] writes it), every name gets a profile whose average is
    at most its slugging; a name resolving to a non-null identifier present in
    the data gets that batter's aggregates and the handedness of the batter's
    first row, and any other name gets the static default. *)
Theorem batter_profile_from_derived_stats (w : World) (df : DataFrame) (name : string) :
  cache_file w = Some df ->
  batter_stats_file w = Some (calculate_batter_stats df) ->
  Z.of_nat (List.length df) < 2 ^ 61 ->
  exists pid profile trace,
    fst (get_player_id w name) = Returned pid
    /\ get_batter_profile w name = (Returned (Some profile), trace)
    /\ (bp_avg profile <=? bp_slg profile)%float = true
    /\ (forall k, pid = Some k -> k <> 0 -> In k (map batter df) ->
        exists first_row rest,
          group_of df k = first_row :: rest
          /\ profile = {| bp_stand := handedness (stand first_row);
                          bp_avg := avg (get_stats (group_of df k));
                          bp_slg := slg (get_stats (group_of df k));
                          bp_iso := iso (get_stats (group_of df k)) |})
    /\ (truthy pid = false \/ (forall k, pid = Some k -> ~ In k (map batter df)) ->
        profile = default_batter_profile).
Proof.
  intros Hc Hs Hsize.
  destruct (get_player_id_returns w name) as (pid & t & Hid).
  exists pid. unfold get_batter_profile. rewrite Hc, Hs, Hid. unfold bind at 1.
  cbn [fst].
  destruct (truthy pid) eqn:Ht.
  - destruct pid as [k |]; [| discriminate].
    rewrite filter_calculate_batter_stats.
    destruct (in_dec Z.eq_dec k (map batter df)) as [Hin | Hout].
    + destruct (filter_nonempty_In (fun r => batter r =? k) batter k df)
        as (r0 & rest & Hrows); [reflexivity | exact Hin |].
      rewrite Hrows. cbn [ret]. eexists _, _. split; [reflexivity |].
      split; [reflexivity |]. cbn [bp_avg bp_slg]. split; [| split].
      * apply get_stats_avg_le_slg.
        pose proof (group_of_length df k). lia.
      * intros k' [= <-] _ _. exists r0, rest. split; [exact Hrows | reflexivity].
      * intros [Hf | Hno]; [discriminate |]. exfalso. now apply (Hno k eq_refl).
    + cbn. eexists _, _. split; [reflexivity |]. split; [reflexivity |].
      split; [reflexivity | split].
      * intros k' [= <-] _ Hin. contradiction.
      * reflexivity.
  - cbn. eexists _, _. split; [reflexivity |]. split; [reflexivity |].
    split; [reflexivity | split].
    + intros k -> Hk _. cbn in Ht. apply negb_false_iff, Z.eqb_eq in Ht. contradiction.
    + reflexivity.
Qed.

End FoundProfileFacts.

(** ** Runs of the optimizer *)

Module OptimizerRunFacts.
Import Lookup LookupFacts ProfileFacts Optimizer OptimizerFacts.

(** X6. With the artifacts on disk and no cached data, the optimizer loads
    model and scaler and reports the pitcher as not found, whatever the
    pitcher and the lineup: no name is looked up and nothing is predicted. *)
Theorem pitcher_not_found_without_cache (w : World) (pitcher_name : string)
    (batter_names : list string) predict transform :
  model_file w = Some predict ->
  scaler_file w = Some transform ->
  cache_file w = None ->
  optimize_lineup w pitcher_name batter_names =
    (Returned (ErrorMessage ("Pitcher " ++ pitcher_name
                             ++ " not found (or no data available).")),
     [LoadModel; LoadScaler]).
Proof.
  intros Hm Hs Hc. unfold optimize_lineup, get_pitcher_profile. rewrite Hm, Hs, Hc.
  reflexivity.
Qed.

Lemma model_calls_app t1 t2 :
  Trace.model_calls (t1 ++ t2) = (Trace.model_calls t1 ++ Trace.model_calls t2)%list.
Proof. apply filter_app. Qed.

Lemma model_calls_printed line t :
  Trace.model_calls (Printed line :: t) = Trace.model_calls t.
Proof. reflexivity. Qed.

Lemma get_player_id_no_model_call w name r t :
  get_player_id w name = (r, t) -> Trace.model_calls t = [].
Proof.
  unfold get_player_id.
  destruct (List.length (PyStr.split_space (PyStr.strip name)) <? 2)%nat.
  - intros [= <- <-]. reflexivity.
  - unfold call_playerid_lookup, bind, try_except, ret.
    destruct (playerid_lookup w _ _) as [[| k data] | e]; intros [= <- <-]; reflexivity.
Qed.

Lemma get_pitcher_profile_no_model_call w name r t :
  get_pitcher_profile w name = (r, t) -> Trace.model_calls t = [].
Proof.
  unfold get_pitcher_profile. destruct (cache_file w) as [df |].
  - destruct (get_player_id w name) as [o t0] eqn:Hid.
    pose proof (get_player_id_no_model_call _ _ _ _ Hid) as Ht0.
    destruct (get_player_id_returns w name) as (pid & t' & Hid').
    rewrite Hid in Hid'. injection Hid' as -> ->.
    unfold bind at 1.
    destruct (truthy pid); [destruct (filter _ df) |]; simpl;
      intros [= <- <-]; rewrite ?app_nil_r, ?model_calls_app, ?Ht0; reflexivity.
  - intros [= <- <-]. reflexivity.
Qed.

Lemma get_batter_profile_no_model_call w name r t :
  get_batter_profile w name = (r, t) -> Trace.model_calls t = [].
Proof.
  unfold get_batter_profile.
  destruct (cache_file w) as [df |]; [| intros [= <- <-]; reflexivity].
  destruct (batter_stats_file w) as [stats_df |]; [| intros [= <- <-]; reflexivity].
  destruct (get_player_id w name) as [o t0] eqn:Hid.
  pose proof (get_player_id_no_model_call _ _ _ _ Hid) as Ht0.
  destruct (get_player_id_returns w name) as (pid & t' & Hid').
  rewrite Hid in Hid'. injection Hid' as -> ->.
  unfold bind at 1.
  destruct (truthy pid); [destruct (filter _ stats_df) as [| [k s] rest] |]; simpl;
    intros [= <- <-]; rewrite ?app_nil_r, ?model_calls_app, ?Ht0; reflexivity.
Qed.

Lemma collect_lineup_no_model_call w ps names : forall r t,
  collect_lineup w ps names = (r, t) -> Trace.model_calls t = [].
Proof.
  induction names as [| b rest IH]; intros r t.
  - intros [= <- <-]. reflexivity.
  - cbn [collect_lineup].
    destruct (get_batter_profile w b) as [ob tb] eqn:Hb.
    pose proof (get_batter_profile_no_model_call _ _ _ _ Hb) as Htb.
    destruct (collect_lineup w ps rest) as [orest trest] eqn:Hrest.
    pose proof (IH _ _ eq_refl) as Htrest.
    unfold print, emit, bind.
    destruct ob as [[bs |] | e]; [destruct orest | destruct orest |];
      intros [= <- <-];
      rewrite ?app_nil_r, ?model_calls_app, ?model_calls_printed, ?Htb, ?Htrest;
      reflexivity.
Qed.

Lemma collect_lineup_excludes_all w ps names :
  cache_file w = None \/ batter_stats_file w = None ->
  collect_lineup w ps names =
    (Returned ([], []), map (fun b => Printed ("Batter " ++ b ++ " not found.")) names).
Proof.
  intros Hmiss. induction names as [| b rest IH]; [reflexivity |].
  cbn [collect_lineup]. rewrite (batter_profile_none w b Hmiss).
  unfold print, emit, bind. rewrite IH. reflexivity.
Qed.

(** X7. With the cached data present and [batter_stats.csv] absent, every listed
    batter is reported as not found, in order, and the optimizer ends with
    "No valid batters found." without scaling or predicting: the trace holds
    the two loads, the pitcher's lookup and the printed lines, and no call
    of the scaler or the classifier. *)
Theorem no_batter_without_stats_file (w : World) (pitcher_name : string)
    (batter_names : list string) predict transform df :
  model_file w = Some predict ->
  scaler_file w = Some transform ->
  cache_file w = Some df ->
  batter_stats_file w = None ->
  exists pitcher_trace,
    optimize_lineup w pitcher_name batter_names =
      (Returned (ErrorMessage "No valid batters found."),
       ([LoadModel; LoadScaler] ++ pitcher_trace
        ++ [Printed ("Optimizing lineup against " ++ pitcher_name ++ "...")]
        ++ map (fun b => Printed ("Batter " ++ b ++ " not found.")) batter_names)%list)
    /\ no_predict pitcher_trace = true
    /\ Trace.model_calls pitcher_trace = [].
Proof.
  intros Hm Hs Hc Hb.
  destruct (pitcher_profile_some w pitcher_name df Hc) as (ps & t1 & Hp).
  exists t1.
  split; [| split; [eapply get_pitcher_profile_no_predict; exact Hp
                   | eapply get_pitcher_profile_no_model_call; exact Hp]].
  unfold optimize_lineup. rewrite Hm, Hs.
  unfold emit, print, bind at 1 2 3. rewrite Hp.
  unfold bind at 1 2. rewrite (collect_lineup_excludes_all w ps batter_names (or_intror Hb)).
  cbn [fst snd ret]. now rewrite !app_nil_r.
Qed.

Lemma zip_results_short i valid_batters predictions :
  (i <= List.length predictions < i + List.length valid_batters)%nat ->
  zip_results i valid_batters predictions = (Raised IndexError, []).
Proof.
  revert i. induction valid_batters as [| b rest IH]; intros i Hlen; simpl in Hlen.
  - lia.
  - cbn [zip_results]. destruct (nth_error predictions i) as [p |] eqn:Hp; [| reflexivity].
    rewrite IH; [reflexivity |].
    assert (i < List.length predictions)%nat by (apply nth_error_Some; congruence). lia.
Qed.

Lemma combine_firstn_length {A B} (l : list A) (l' : list B) :
  combine l (firstn (List.length l) l') = combine l l'.
Proof.
  revert l'. induction l as [| a l IH]; intros [| b l']; simpl; try reflexivity.
  now rewrite IH.
Qed.

Lemma collect_lineup_profiles w ps df stats_df names :
  cache_file w = Some df ->
  batter_stats_file w = Some stats_df ->
  exists profiles trace,
    collect_lineup w ps names = (Returned (map (feature_row ps) profiles, names), trace)
    /\ List.length profiles = List.length names
    /\ no_predict trace = true.
Proof.
  intros Hc Hs. induction names as [| b rest IH].
  - exists [], []. auto.
  - destruct IH as (profiles & t & Hrun & Hlen & Hnp).
    destruct (batter_profile_some w b df stats_df Hc Hs) as (bs & tb & Hb).
    pose proof (get_batter_profile_no_predict _ _ _ _ Hb) as Htb.
    cbn [collect_lineup]. rewrite Hb. unfold bind at 1. rewrite Hrun. simpl.
    exists (bs :: profiles). eexists. split; [reflexivity |]. simpl.
    rewrite !no_predict_app, Htb, Hnp. simpl. auto.
Qed.

(** X8. With every file in place and a non-empty lineup, the run standardizes
    and predicts exactly once (no call of the scaler or the classifier comes
    earlier in the trace), at its very end, on one feature vector per
    listed batter, all carrying the one pitcher profile.  It then returns a
    ranking with one entry per batter when the classifier answers at least
    as many probabilities (surplus ones are ignored), and raises
    [IndexError] when it answers fewer. *)
Theorem one_prediction_call_per_run (w : World) (pitcher_name : string)
    (batter_names : list string) predict transform df stats_df :
  model_file w = Some predict ->
  scaler_file w = Some transform ->
  cache_file w = Some df ->
  batter_stats_file w = Some stats_df ->
  batter_names <> [] ->
  exists pitcher_stats profiles before outcome,
    let X := map (feature_row pitcher_stats) profiles in
    let predictions := predict (transform X) in
    fst (get_pitcher_profile w pitcher_name) = Returned (Some pitcher_stats)
    /\ List.length profiles = List.length batter_names
    /\ no_predict before = true
    /\ Trace.model_calls before = []
    /\ optimize_lineup w pitcher_name batter_names =
         (outcome, (before ++ [ScalerTransform X; ModelPredict (transform X)])%list)
    /\ ((List.length batter_names <= List.length predictions)%nat ->
        exists results,
          outcome = Returned (Ranking results)
          /\ List.length results = List.length batter_names
          /\ Permutation results
               (map to_prediction
                  (combine batter_names (firstn (List.length batter_names) predictions))))
    /\ ((List.length predictions < List.length batter_names)%nat ->
        outcome = Raised IndexError).
Proof.
  intros Hm Hs Hc Hb Hne.
  destruct (pitcher_profile_some w pitcher_name df Hc) as (ps & t1 & Hp).
  pose proof (get_pitcher_profile_no_predict _ _ _ _ Hp) as Ht1.
  pose proof (get_pitcher_profile_no_model_call _ _ _ _ Hp) as Hquiet1.
  destruct (collect_lineup_profiles w ps df stats_df batter_names Hc Hb)
    as (profiles & t2 & Hrun & Hlen & Ht2).
  pose proof (collect_lineup_no_model_call _ _ _ _ _ Hrun) as Hquiet2.
  set (X := map (feature_row ps) profiles) in *.
  assert (HX : X <> []).
  { unfold X. destruct profiles; [| discriminate].
    destruct batter_names; [contradiction | discriminate]. }
  exists ps, profiles,
    ([LoadModel; LoadScaler] ++ t1
     ++ [Printed ("Optimizing lineup against " ++ pitcher_name ++ "...")] ++ t2)%list.
  destruct (le_lt_dec (List.length batter_names) (List.length (predict (transform X))))
    as [Hle | Hlt].
  - exists (Returned (Ranking (PyList.sort_reverse predicted_hit_prob PrimFloat.ltb
                (map to_prediction (combine batter_names (predict (transform X))))))).
    cbv zeta. fold X.
    split; [now rewrite Hp |]. split; [exact Hlen |].
    split; [rewrite !no_predict_app, Ht1, Ht2; reflexivity |].
    split; [rewrite !model_calls_app, Hquiet1, Hquiet2; reflexivity |].
    split; [| split; [| lia]].
    + unfold optimize_lineup. rewrite Hm, Hs.
      unfold emit, print, bind at 1 2 3. rewrite Hp.
      unfold bind at 1 2. rewrite Hrun. cbn [fst snd].
      destruct X as [| v X'] eqn:EX; [contradiction |].
      unfold emit, bind at 1 2 3.
      rewrite zip_results_enough by (simpl; lia).
      simpl skipn. cbn [bind ret]. rewrite !app_nil_r, <- !app_assoc. reflexivity.
    + intros _. eexists. split; [reflexivity |].
      assert (Hcombine : combine batter_names
                           (firstn (List.length batter_names) (predict (transform X)))
                         = combine batter_names (predict (transform X))).
      { apply combine_firstn_length. }
      rewrite Hcombine. split.
      * rewrite (Permutation_length (SortFacts.sort_reverse_perm _ _ _)).
        rewrite length_map, length_combine. lia.
      * apply SortFacts.sort_reverse_perm.
  - exists (Raised IndexError). cbv zeta. fold X.
    split; [now rewrite Hp |]. split; [exact Hlen |].
    split; [rewrite !no_predict_app, Ht1, Ht2; reflexivity |].
    split; [rewrite !model_calls_app, Hquiet1, Hquiet2; reflexivity |].
    split; [| split; [lia | reflexivity]].
    unfold optimize_lineup. rewrite Hm, Hs.
    unfold emit, print, bind at 1 2 3. rewrite Hp.
    unfold bind at 1 2. rewrite Hrun. cbn [fst snd].
    destruct X as [| v X'] eqn:EX; [contradiction |].
    unfold emit, bind at 1 2 3.
    rewrite zip_results_short by (simpl; lia).
    cbn [bind]. rewrite !app_nil_r, <- !app_assoc. reflexivity.
Qed.

End OptimizerRunFacts.

(** ** The range of the aggregates *)

Module AggregateRangeFacts.
Import DataLoader AggregateFacts AggregateRefinement AggregateOrder.
Import Binary64 Binary64Facts.

Lemma RNE_unique x M E M' E' : RNE x M E -> RNE x M' E' -> M = M' /\ E = E'.
Proof.
  intros H H'.
  pose proof (RNE_mono _ _ _ _ _ _ H H' (Rle_refl x)) as H1.
  pose proof (RNE_mono _ _ _ _ _ _ H' H (Rle_refl x)) as H2.
  lia.
Qed.

Lemma RNE_pow2 k : RNE (bpow k) (2 ^ 52)%positive (k - 52).
Proof.
  exists (2 ^ 52), (k - 52).
  assert (Hu : (bpow k * bpow (- (k - 52)))%R = IZR (2 ^ 52)).
  { rewrite <- bpow_add. replace (k + - (k - 52)) with 52 by lia. now apply bpow_IZR. }
  rewrite Hu. split; [| split].
  - split; [lra | apply IZR_lt; reflexivity].
  - split; [lra |]. intros [H | H]; lra.
  - left. split; [reflexivity | split; reflexivity].
Qed.

Lemma RNE_scale x M E k : RNE x M E -> RNE (x * bpow k) M (E + k).
Proof.
  intros (M0 & E0 & Hb & Hn & Hc). exists M0, (E0 + k).
  assert (Hu : (x * bpow k * bpow (- (E0 + k)) = x * bpow (- E0))%R).
  { rewrite Rmult_assoc, <- bpow_add. do 2 f_equal. lia. }
  rewrite Hu. split; [exact Hb | split; [exact Hn |]].
  destruct Hc as [(? & ? & ?) | (? & ? & ?)]; [left | right]; repeat split; lia.
Qed.

(** The shape of the binary64 quotient of two counters. *)
Lemma int_quotient_shape h a :
  0 <= h < 2 ^ 63 -> 1 <= a < 2 ^ 63 ->
  exists Ma Ea,
    RNE (IZR a) Ma Ea
    /\ ((h = 0 /\ Prim2SF (of_int h / of_int a) = S754_zero false)
        \/ (exists Mh Eh M E,
              RNE (IZR h) Mh Eh
              /\ Prim2SF (of_int h / of_int a) = S754_finite false M E
              /\ RNE (value Mh Eh / value Ma Ea) M E)).
Proof.
  intros Hh Ha.
  rewrite FloatAxioms.div_spec, !Prim2SF_of_int by lia.
  destruct (binary_normalize_int a Ha) as (Ma & Ea & -> & Hra & HEa).
  pose proof (RNE_mantissa _ _ _ Hra) as HMa.
  exists Ma, Ea. split; [exact Hra |].
  destruct (Z.eq_dec h 0) as [-> | Hh0].
  - left. split; reflexivity.
  - right.
    destruct (binary_normalize_int h) as (Mh & Eh & -> & Hrh & HEh); [lia |].
    pose proof (RNE_mantissa _ _ _ Hrh) as HMh.
    destruct (SFdiv_normal Mh Eh Ma Ea HMh HMa) as (M & E & Hdiv & Hr); [lia |].
    exists Mh, Eh, M, E. auto.
Qed.

Lemma SFleb_zero_finite M E :
  SFleb (S754_zero false) (S754_finite false M E) = true.
Proof. reflexivity. Qed.

(** A quotient of counters is not negative. *)
Lemma int_quotient_nonneg h a :
  0 <= h < 2 ^ 63 -> 1 <= a < 2 ^ 63 ->
  (0 <=? of_int h / of_int a)%float = true.
Proof.
  intros Hh Ha. rewrite FloatAxioms.leb_spec.
  destruct (int_quotient_shape h a Hh Ha) as (Ma & Ea & _ & [[_ ->] | (Mh & Eh & M & E & _ & -> & _)]);
    reflexivity.
Qed.

(** A quotient of counters whose exact value is at most [2^k] is at most
    the binary64 number [2^k]. *)
Lemma int_quotient_le_pow2 h a k (c : float) :
  0 <= h < 2 ^ 63 -> 1 <= a < 2 ^ 63 ->
  (IZR h <= IZR a * bpow k)%R ->
  Prim2SF c = S754_finite false (2 ^ 52) (k - 52) ->
  (of_int h / of_int a <=? c)%float = true.
Proof.
  intros Hh Ha Hle Hc. rewrite FloatAxioms.leb_spec, Hc.
  destruct (int_quotient_shape h a Hh Ha)
    as (Ma & Ea & Hra & [[_ ->] | (Mh & Eh & M & E & Hrh & -> & Hr)]); [reflexivity |].
  apply SFleb_order. apply (RNE_mono _ _ _ _ _ _ Hr (RNE_pow2 k)).
  pose proof (RNE_mantissa _ _ _ Hra) as HMa. pose proof (RNE_mantissa _ _ _ Hrh) as HMh.
  pose proof (value_order _ _ _ _ HMh HMa
                (RNE_mono _ _ _ _ _ _ Hrh (RNE_scale _ _ _ k Hra) Hle)) as Hv.
  pose proof (value_pos Ma Ea) as Hpos.
  assert (Hva : value Ma (Ea + k) = (value Ma Ea * bpow k)%R).
  { unfold value. rewrite bpow_add. ring. }
  rewrite Hva in Hv.
  apply Rmult_le_reg_r with (value Ma Ea); [exact Hpos |].
  unfold Rdiv. rewrite Rmult_assoc, Rinv_l by lra. lra.
Qed.

Lemma shr_1_nonneg mrs : 0 <= shr_m mrs -> 0 <= shr_m (shr_1 mrs).
Proof.
  destruct mrs as [m r s]. cbn [shr_m].
  destruct m as [| [p | p |] | p]; cbn [shr_1 shr_m]; lia.
Qed.

Lemma iter_shr_1_nonneg n : forall mrs,
  0 <= shr_m mrs -> 0 <= shr_m (SpecFloat.iter_pos shr_1 n mrs).
Proof.
  induction n as [n IH | n IH |]; intros mrs Hm; cbn [SpecFloat.iter_pos].
  - apply IH, IH, shr_1_nonneg, Hm.
  - apply IH, IH, Hm.
  - apply shr_1_nonneg, Hm.
Qed.

Lemma shr_fexp_nonneg m e l : 0 <= m -> 0 <= shr_m (fst (shr_fexp prec emax m e l)).
Proof.
  intros Hm. unfold shr_fexp, shr.
  assert (H0 : 0 <= shr_m (shr_record_of_loc m l)) by (destruct l as [| []]; exact Hm).
  destruct (fexp prec emax (Zdigits2 m + e) - e); cbn [fst]; auto.
  now apply iter_shr_1_nonneg.
Qed.

(** Rounding a non-negative mantissa gives a non-negative number, never NaN. *)
Lemma binary_round_aux_nonneg m e l :
  0 <= m -> SFleb (S754_zero false) (binary_round_aux prec emax false m e l) = true.
Proof.
  intros Hm. unfold binary_round_aux.
  pose proof (shr_fexp_nonneg m e l Hm) as H1.
  destruct (shr_fexp prec emax m e l) as [mrs' e']. cbn [fst] in H1.
  assert (H2 : 0 <= round_nearest_even (shr_m mrs') (loc_of_shr_record mrs')).
  { unfold round_nearest_even. destruct (loc_of_shr_record mrs') as [| []]; try lia.
    destruct (Z.even (shr_m mrs')); lia. }
  pose proof (shr_fexp_nonneg _ e' loc_Exact H2) as H3.
  destruct (shr_fexp prec emax _ e' loc_Exact) as [mrs'' e'']. cbn [fst] in H3.
  destruct (shr_m mrs'') as [| p | p]; [reflexivity | | lia].
  destruct (e'' <=? emax - prec); reflexivity.
Qed.

Lemma binary_normalize_nonneg d e :
  0 <= d -> SFleb (S754_zero false) (binary_normalize prec emax d e false) = true.
Proof.
  intros Hd. destruct d as [| p | p]; [reflexivity | | lia].
  cbn [binary_normalize]. unfold binary_round.
  destruct (shl_align p e _) as [mz ez]. apply binary_round_aux_nonneg. lia.
Qed.

(** Subtracting a smaller normal number from a larger one does not go
    below zero. *)
Lemma SFsub_nonneg M1 E1 M2 E2 :
  2 ^ 52 <= Zpos M1 < 2 ^ 53 -> 2 ^ 52 <= Zpos M2 < 2 ^ 53 ->
  E1 < E2 \/ (E1 = E2 /\ (M1 <= M2)%positive) ->
  SFleb (S754_zero false)
        (SFsub prec emax (S754_finite false M2 E2) (S754_finite false M1 E1)) = true.
Proof.
  intros HM1 HM2 Hlex. cbn [SFsub cond_Zopp].
  apply binary_normalize_nonneg.
  assert (Hmin : Z.min E2 E1 = E1) by lia. rewrite Hmin.
  unfold shl_align. rewrite Z.sub_diag. cbn [fst].
  destruct (E1 - E2) as [| d | d] eqn:Hd; cbn [fst]; try lia.
  rewrite iter_xO.
  assert (2 <= 2 ^ Zpos d).
  { change 2 with (2 ^ 1) at 1. apply Z.pow_le_mono_r; lia. }
  nia.
Qed.

(** The aggregates of one group of rows are in range. *)
Lemma get_stats_in_range (g : DataFrame) :
  Z.of_nat (List.length g) < 2 ^ 61 ->
  (0 <=? avg (get_stats g))%float = true /\ (avg (get_stats g) <=? 1)%float = true
  /\ (0 <=? slg (get_stats g))%float = true /\ (slg (get_stats g) <=? 4)%float = true
  /\ (0 <=? iso (get_stats g))%float = true.
Proof.
  intros Hg.
  destruct (Z.eq_dec (at_bats g) 0) as [Hz | Hnz].
  - rewrite (get_stats_zero _ Hz). repeat split; reflexivity.
  - rewrite (get_stats_pos _ Hnz). cbn [avg slg iso].
    pose proof (hits_by_kind g) as Hkinds.
    pose proof (count_rows_nonneg (fun r => PyStr.cell_eqb (events r) "single") g).
    pose proof (count_rows_nonneg (fun r => PyStr.cell_eqb (events r) "double") g).
    pose proof (count_rows_nonneg (fun r => PyStr.cell_eqb (events r) "triple") g).
    pose proof (count_rows_nonneg (fun r => PyStr.cell_eqb (events r) "home_run") g).
    pose proof (count_rows_le_length (fun r => PyStr.isin (events r) hit_events) g) as Hh.
    pose proof (count_rows_le_length (fun r => PyStr.isin (events r) ab_events) g) as Hab.
    pose proof (count_rows_nonneg (fun r => PyStr.isin (events r) ab_events) g) as Hab0.
    pose proof (count_rows_le (fun r => PyStr.isin (events r) hit_events)
                  (fun r => PyStr.isin (events r) ab_events) g) as Hhab.
    fold (hits g) in Hh, Hhab. fold (at_bats g) in Hab, Hab0, Hhab.
    assert (Hhits_ab : hits g <= at_bats g).
    { apply Hhab. intros r. rewrite isin_ab_events, isin_hit_events. intros ->. reflexivity. }
    assert (Htb : hits g <= total_bases g <= 4 * hits g) by (unfold total_bases; lia).
    set (h := hits g) in *. set (a := at_bats g) in *. set (t := total_bases g) in *.
    assert (Hh63 : 0 <= h < 2 ^ 63) by lia.
    assert (Ht63 : 0 <= t < 2 ^ 63) by lia.
    assert (Ha63 : 1 <= a < 2 ^ 63) by lia.
    split; [now apply int_quotient_nonneg |].
    split.
    { apply (int_quotient_le_pow2 h a 0); auto.
      rewrite bpow_0, Rmult_1_r. apply IZR_le. lia. }
    split; [now apply int_quotient_nonneg |].
    split.
    { apply (int_quotient_le_pow2 t a 2); auto.
      rewrite (bpow_IZR 2), <- mult_IZR by lia. apply IZR_le. simpl. lia. }
    rewrite FloatAxioms.leb_spec, FloatAxioms.sub_spec.
    destruct (int_quotient_shape h a Hh63 Ha63)
      as (Ma & Ea & Hra & [[Hh0 ->] | (Mh & Eh & M1 & E1 & Hrh & -> & Hr1)]);
      destruct (int_quotient_shape t a Ht63 Ha63)
        as (Ma' & Ea' & Hra' & [[Ht0 ->] | (Mt & Et & M2 & E2 & Hrt & -> & Hr2)]);
      try reflexivity.
    + exfalso. pose proof (RNE_mantissa _ _ _ Hrh).
      assert (1 <= h).
      { destruct (Z.eq_dec h 0) as [E0 | E0]; [| lia]. exfalso.
        rewrite E0 in Hrh. destruct Hrh as (M0 & E00 & [Hb1 Hb2] & _).
        rewrite Rmult_0_l in Hb1. assert (0 < IZR (2 ^ 52))%R by (apply IZR_lt; reflexivity).
        lra. }
      lia.
    + destruct (RNE_unique _ _ _ _ _ Hra Hra') as [<- <-].
      pose proof (RNE_mantissa _ _ _ Hra) as HMa.
      pose proof (RNE_mantissa _ _ _ Hrh) as HMh.
      pose proof (RNE_mantissa _ _ _ Hrt) as HMt.
      assert (Hx : (IZR h <= IZR t)%R) by (apply IZR_le; lia).
      pose proof (value_order _ _ _ _ HMh HMt (RNE_mono _ _ _ _ _ _ Hrh Hrt Hx)) as Hv.
      pose proof (value_pos Ma Ea) as Hpos.
      apply SFsub_nonneg.
      * eapply RNE_mantissa; exact Hr1.
      * eapply RNE_mantissa; exact Hr2.
      * apply (RNE_mono _ _ _ _ _ _ Hr1 Hr2).
        unfold Rdiv. apply Rmult_le_compat_r; [| exact Hv].
        apply Rlt_le, Rinv_0_lt_compat, Hpos.
Qed.


(** X9. Every row of [calculate_batter_stats] on a dataset that fits the
    [int64] counters holds an average in [0,1], a slugging in [0,4] and a
    non-negative isolated power; none of them is NaN, since NaN passes no
    comparison. *)
Theorem aggregates_in_range (df : DataFrame) (b : Z) (s : BatterStats) :
  Z.of_nat (List.length df) < 2 ^ 61 ->
  loc b (calculate_batter_stats df) = Some s ->
  (0 <=? avg s)%float = true /\ (avg s <=? 1)%float = true
  /\ (0 <=? slg s)%float = true /\ (slg s <=? 4)%float = true
  /\ (0 <=? iso s)%float = true.
Proof.
  intros Hsize Hloc. destruct (loc_some _ _ _ Hloc) as [_ ->].
  apply get_stats_in_range.
  pose proof (group_of_length df b). lia.
Qed.

End AggregateRangeFacts.

(** ** Fetching and preprocessing *)

Module LoaderFacts.
Import DataLoader AggregateFacts AggregateOrder ProfileFacts.
Import FoundProfileFacts AggregateRangeFacts Loader.





(** X11. Without a cache file [fetch_data] announces the request, makes it
    once and reports the saving.  Once it has fetched and saved the data,
    every later call, whatever its dates, returns the same data from the
    cache without any request and leaves the workspace as it is; a failing
    request leaves the workspace unchanged too. *)
Theorem fetch_data_caches (ws : Workspace) (start_date end_date : string) :
  cache_file (ws_world ws) = None ->
  (forall data,
      statcast ws start_date end_date = Returned data ->
      exists shown after,
        fetch_data ws start_date end_date = (Returned data, shown, after)
        /\ In (StatcastRequest start_date end_date) shown
        /\ shown = [Shown ("Fetching Statcast data from " ++ start_date ++ " to "
                           ++ end_date ++ "...");
                    StatcastRequest start_date end_date;
                    Shown "Data saved to statcast_2024_sample.csv"]
        /\ cache_file (ws_world after) = Some data
        /\ forall later_start later_end,
             fetch_data after later_start later_end =
               (Returned data, [Shown "Loading data from statcast_2024_sample.csv..."], after))
  /\ (forall e,
        statcast ws start_date end_date = Raised e ->
        exists shown, fetch_data ws start_date end_date = (Raised e, shown, ws)).
Proof.
  intros Hc. split.
  - intros data Hst. unfold fetch_data at 1. rewrite Hc, Hst.
    eexists _, _. split; [reflexivity |]. split; [simpl; auto |].
    split; [reflexivity |]. split; [reflexivity |].
    intros s e. reflexivity.
  - intros e Hst. unfold fetch_data. rewrite Hc, Hst. eauto.
Qed.

(** X12. After the loader script has fetched the data and preprocessed it, the
    cache and [batter_stats.csv] both exist and agree, so every batter name
    gets a profile and the optimizer excludes no batter. *)
Theorem loader_script_enables_profiles (ws : Workspace) (start_date end_date : string)
    (df : DataFrame) shown fetched :
  fetch_data ws start_date end_date = (Returned df, shown, fetched) ->
  let w := ws_world (snd (preprocess_data fetched df)) in
  cache_file w = Some df
  /\ batter_stats_file w = Some (calculate_batter_stats df)
  /\ forall name, exists profile trace,
       Lookup.get_batter_profile w name = (Returned (Some profile), trace).
Proof.
  intros Hfetch. cbv zeta.
  assert (Hcache : cache_file (ws_world fetched) = Some df).
  { unfold fetch_data in Hfetch.
    destruct (cache_file (ws_world ws)) as [cached |] eqn:Hc.
    - injection Hfetch as <- _ <-. exact Hc.
    - destruct (statcast ws start_date end_date) as [data | e]; [| discriminate].
      injection Hfetch as <- _ <-. reflexivity. }
  assert (H1 : cache_file (ws_world (snd (preprocess_data fetched df))) = Some df).
  { unfold preprocess_data. destruct (calculate_batter_stats df); exact Hcache. }
  assert (H2 : batter_stats_file (ws_world (snd (preprocess_data fetched df)))
               = Some (calculate_batter_stats df)).
  { unfold preprocess_data. destruct (calculate_batter_stats df); reflexivity. }
  split; [exact H1 | split; [exact H2 |]].
  intros name. eapply batter_profile_some; eassumption.
Qed.

End LoaderFacts.

(** ** The entry point and the debugging script *)

Module MainFacts.
Import Lookup LookupFacts ProfileFacts Optimizer OptimizerFacts.
Import PyFormat Main.

Lemma split_char_nonempty sep s : split_char sep s <> [].
Proof.
  destruct s as [| c s]; simpl; [discriminate |].
  destruct (Ascii.eqb c sep); [discriminate |].
  destruct (split_char sep s); discriminate.
Qed.

Lemma split_char_length sep s :
  List.length (split_char sep s) = S (count_occ ascii_dec (Trace.chars s) sep).
Proof.
  unfold Trace.chars. induction s as [| c s IH]; [reflexivity |].
  cbn [split_char list_ascii_of_string count_occ].
  destruct (Ascii.eqb_spec c sep) as [-> | Hne].
  - destruct (ascii_dec sep sep) as [_ | Hn]; [| contradiction].
    simpl. now rewrite IH.
  - destruct (ascii_dec c sep) as [He | _]; [contradiction |].
    rewrite <- IH. pose proof (split_char_nonempty sep s) as Hs.
    destruct (split_char sep s); [contradiction | reflexivity].
Qed.

Lemma split_char_parts sep s :
  Forall (fun part => ~ In sep (Trace.chars part)) (split_char sep s).
Proof.
  unfold Trace.chars. induction s as [| c s IH].
  - constructor; [intros [] | constructor].
  - cbn [split_char]. destruct (Ascii.eqb_spec c sep) as [-> | Hne].
    + constructor; [intros [] | exact IH].
    + destruct (split_char sep s) as [| p ps].
      * constructor; [| constructor]. simpl. intros [H | []]. contradiction.
      * inversion IH as [| ? ? Hp Hps]; subst. constructor; [| exact Hps].
        simpl. intros [H | H]; [contradiction | now apply Hp].
Qed.

Lemma lstrip_chars s c : In c (Trace.chars (PyStr.lstrip s)) -> In c (Trace.chars s).
Proof.
  unfold Trace.chars. induction s as [| d s IH]; [easy |].
  cbn [PyStr.lstrip]. destruct (PyStr.isspace d); [| easy].
  intros H. right. now apply IH.
Qed.

Lemma rstrip_chars s c : In c (Trace.chars (PyStr.rstrip s)) -> In c (Trace.chars s).
Proof.
  unfold Trace.chars. induction s as [| d s IH]; [easy |].
  cbn [PyStr.rstrip]. destruct (PyStr.rstrip s) as [| e r].
  - destruct (PyStr.isspace d); simpl; [easy | tauto].
  - simpl in *. intros [H | H]; [now left | right; now apply IH].
Qed.

Lemma arguments_nonempty console argv : snd (arguments console argv) <> [].
Proof.
  unfold arguments, parse_batters.
  destruct (2 <? List.length argv)%nat; cbn [snd]; intros H;
    apply map_eq_nil in H; now apply split_char_nonempty in H.
Qed.

Lemma print_ranking_lines console ranked : forall i,
  print_ranking console i ranked =
    (Returned tt,
     map (fun ip => Printed (ranking_line console (fst ip) (snd ip)))
         (combine (seq i (List.length ranked)) ranked)).
Proof.
  induction ranked as [| p rest IH]; intros i; [reflexivity |].
  cbn [print_ranking]. unfold print, emit, bind. rewrite IH. reflexivity.
Qed.

(** X13. [parse_batters]: one name per comma of the argument plus one, so never an
    empty list; no name contains a comma, and an argument without a comma is
    one name, the stripped argument. *)
Theorem parse_batters_one_name_per_comma (s : string) :
  List.length (parse_batters s) = S (count_occ ascii_dec (Trace.chars s) ","%char)
  /\ Forall (fun name => ~ In ","%char (Trace.chars name)) (parse_batters s)
  /\ (~ In ","%char (Trace.chars s) -> parse_batters s = [PyStr.strip s]).
Proof.
  unfold parse_batters. split; [| split].
  - rewrite length_map. apply split_char_length.
  - apply Forall_map. eapply Forall_impl; [| apply split_char_parts].
    intros part Hpart Hin. apply Hpart.
    unfold PyStr.strip in Hin. now apply lstrip_chars, rstrip_chars.
  - intros Hno. f_equal.
    assert (Hs : split_char ","%char s = [s]); [| now rewrite Hs].
    unfold Trace.chars in Hno. induction s as [| c s IH]; [reflexivity |].
    cbn [split_char]. simpl in Hno.
    destruct (Ascii.eqb_spec c ","%char) as [-> | Hne]; [tauto |].
    rewrite IH by tauto. reflexivity.
Qed.

(** X14. With the two model artifacts and the two data files in place and a
    classifier that answers one row per input row, [main] ends in a ranking
    whatever the arguments: [optimize_lineup] ranks exactly the parsed names,
    and [main] returns after the two opening lines, the optimizer's trace,
    the header, and one line per ranked entry, numbered from 1 in ranking
    order. *)
Theorem main_ranks_every_name (console : Console) (w : World) (argv : list string)
    predict transform df stats_df :
  model_file w = Some predict ->
  scaler_file w = Some transform ->
  cache_file w = Some df ->
  batter_stats_file w = Some stats_df ->
  (forall X, List.length (predict (transform X)) = List.length X) ->
  exists ranked before,
    Permutation (map mp_batter ranked) (snd (arguments console argv))
    /\ Optimizer.optimize_lineup w (fst (arguments console argv))
         (snd (arguments console argv)) = (Returned (Ranking ranked), before)
    /\ main console w argv =
         (Returned tt,
          (Printed welcome
           :: Printed (newline ++ "Optimizing lineup against "
                       ++ fst (arguments console argv) ++ "...")
           :: before
           ++ Printed optimal_lineup
           :: map (fun ip => Printed (ranking_line console (fst ip) (snd ip)))
                (combine (seq 0 (List.length ranked)) ranked))%list).
Proof.
  intros Hm Hsc Hc Hs Hlen.
  pose proof (arguments_nonempty console argv) as Hne.
  unfold main. destruct (arguments console argv) as [pitcher batters]. cbn [fst snd] in *.
  destruct (optimize_lineup_run w pitcher batters predict transform df stats_df
              Hm Hsc Hc Hs Hne) as (ld & trace & Hld & Hrun).
  specialize (Hlen ld). rewrite Hrun by lia.
  eexists _, trace. split; [| split; [reflexivity |]].
  - rewrite (Permutation_map mp_batter (SortFacts.sort_reverse_perm _ _ _)).
    rewrite map_batter_combine by lia. reflexivity.
  - unfold print, emit, bind at 1 2 3. unfold bind at 1.
    rewrite print_ranking_lines. reflexivity.
Qed.

Lemma collect_lineup_empty_reports w ps names lineup trace :
  names <> [] ->
  collect_lineup w ps names = (Returned ([], lineup), trace) ->
  exists b, In b names /\ In (Printed ("Batter " ++ b ++ " not found.")) trace.
Proof.
  intros Hne Hrun. destruct names as [| b rest]; [contradiction |].
  exists b. split; [now left |].
  cbn [collect_lineup] in Hrun.
  destruct (get_batter_profile w b) as [[[bs |] | e] tb].
  - unfold bind at 1 in Hrun.
    destruct (collect_lineup w ps rest) as [[acc | e] t]; simpl in Hrun; discriminate.
  - unfold bind at 1 in Hrun. unfold print, emit, bind at 1 in Hrun.
    destruct (collect_lineup w ps rest) as [r t]. simpl in Hrun.
    injection Hrun as _ <-. apply in_or_app. right. now left.
  - simpl in Hrun. discriminate.
Qed.

Lemma zip_results_silent valid_batters predictions : forall i,
  snd (zip_results i valid_batters predictions) = [].
Proof.
  induction valid_batters as [| b rest IH]; intros i; [reflexivity |].
  cbn [zip_results]. destruct (nth_error predictions i); [| reflexivity].
  specialize (IH (S i)). unfold bind.
  destruct (zip_results (S i) rest predictions) as [[r | e] t]; simpl in *; now subst.
Qed.

Lemma get_pitcher_profile_returns w name :
  exists r t, get_pitcher_profile w name = (Returned r, t).
Proof.
  destruct (cache_file w) as [df |] eqn:Hc.
  - destruct (pitcher_profile_some w name df Hc) as (p & t & H). eauto.
  - unfold get_pitcher_profile. rewrite Hc. eexists _, _. reflexivity.
Qed.

(** How a run of [optimize_lineup] on a non-empty list can end. *)
Lemma optimize_lineup_outcomes w pitcher batters :
  batters <> [] ->
  exists outcome trace,
    optimize_lineup w pitcher batters = (outcome, trace)
    /\ (outcome = Returned (ErrorMessage model_not_found)
        \/ outcome = Returned (ErrorMessage
                        ("Pitcher " ++ pitcher ++ " not found (or no data available)."))
        \/ (outcome = Returned (ErrorMessage no_valid_batters)
            /\ exists b, In b batters
                         /\ In (Printed ("Batter " ++ b ++ " not found.")) trace)
        \/ (exists ranked, outcome = Returned (Ranking ranked))
        \/ (exists e t X, outcome = Raised e /\ trace = (t ++ [ModelPredict X])%list)).
Proof.
  intros Hne. unfold optimize_lineup.
  destruct (model_file w) as [predict |];
    [| eexists _, _; split; [reflexivity | now left]].
  destruct (scaler_file w) as [transform |];
    [| eexists _, _; split; [reflexivity | now left]].
  destruct (get_pitcher_profile_returns w pitcher) as (r & t1 & Hp).
  unfold emit, print, bind at 1 2 3. rewrite Hp.
  destruct r as [ps |]; [| eexists _, _; split; [reflexivity | right; now left]].
  destruct (collect_lineup_returns w ps batters) as (ld & vb & t2 & Hrun & _ & _).
  unfold bind at 1 2. rewrite Hrun. cbn [fst snd].
  destruct ld as [| v ld'].
  - destruct (collect_lineup_empty_reports w ps batters vb t2 Hne Hrun) as (b & Hb & Hin).
    eexists _, _. split; [reflexivity |]. right. right. left. split; [reflexivity |].
    exists b. split; [exact Hb |].
    simpl. right. right. apply in_or_app. right. right.
    apply in_or_app. left. exact Hin.
  - unfold emit, bind at 1 2 3.
    pose proof (zip_results_silent vb (predict (transform (v :: ld'))) 0%nat) as Hz.
    destruct (zip_results 0 vb (predict (transform (v :: ld')))) as [[res | e] tz];
      simpl in Hz; subst tz.
    + eexists _, _. split; [reflexivity |]. right. right. right. left. eauto.
    + eexists _, _. split; [reflexivity |]. right. right. right. right.
      exists e. eexists (_ :: _ :: (t1 ++ _ :: t2 ++ [_])%list), _. split; [reflexivity |].
      cbn [app]. rewrite <- !app_assoc. cbn [app]. rewrite <- !app_assoc. reflexivity.
Qed.

Lemma chars_app a b : Trace.chars (a ++ b) = (Trace.chars a ++ Trace.chars b)%list.
Proof.
  unfold Trace.chars. induction a as [| c a IH]; [reflexivity |]. simpl. now rewrite IH.
Qed.

Lemma ranking_line_ends console i player :
  last (Trace.chars (ranking_line console i player)) " "%char = ")"%char.
Proof.
  unfold ranking_line. rewrite !chars_app.
  rewrite !app_assoc. apply last_last.
Qed.

Lemma combine_snoc {A B} (l : list A) (l' : list B) a b :
  List.length l = List.length l' ->
  combine (l ++ [a]) (l' ++ [b]) = (combine l l' ++ [(a, b)])%list.
Proof.
  revert l'. induction l as [| x l IH]; intros [| y l'] Hlen; simpl in *;
    try discriminate; [reflexivity |].
  now rewrite IH by lia.
Qed.

Lemma last_two_app {A} (a b : A) l y d : last (a :: b :: l ++ [y]) d = y.
Proof. change (a :: b :: l ++ [y])%list with (([a; b] ++ l) ++ [y])%list. apply last_last. Qed.

Lemma last_two_app_cons_app {A} (a b c : A) l l' y d :
  last (a :: b :: l ++ c :: l' ++ [y]) d = y.
Proof.
  replace (a :: b :: l ++ c :: l' ++ [y])%list with ((a :: b :: l ++ c :: l') ++ [y])%list.
  - apply last_last.
  - simpl. now rewrite <- app_assoc.
Qed.

(** X15. [main] never hands [optimize_lineup] an empty batter list, so when its
    last line is "Error: No valid batters found." it has named, in an
    earlier line, a batter it did not find. *)
Theorem main_no_valid_batters_names_a_batter (console : Console) (w : World)
    (argv : list string) (outcome : Outcome unit) (trace : list Effect) :
  main console w argv = (outcome, trace) ->
  last trace (Printed welcome) = Printed ("Error: " ++ no_valid_batters) ->
  exists b, In b (snd (arguments console argv))
            /\ In (Printed ("Batter " ++ b ++ " not found.")) trace.
Proof.
  intros Hmain Hlast.
  pose proof (arguments_nonempty console argv) as Hne.
  unfold main in Hmain. destruct (arguments console argv) as [pitcher batters].
  cbn [snd] in *.
  destruct (optimize_lineup_outcomes w pitcher batters Hne) as (o & t & Hrun & Hcases).
  unfold print, emit, bind at 1 2 in Hmain. rewrite Hrun in Hmain.
  destruct Hcases as [-> | [-> | [[-> (b & Hb & Hin)] | [[ranked ->] | (e & t' & X & -> & ->)]]]].
  - simpl in Hmain. injection Hmain as <- <-.
    rewrite last_two_app in Hlast. discriminate.
  - simpl in Hmain. injection Hmain as <- <-.
    rewrite last_two_app in Hlast. discriminate.
  - exists b. split; [exact Hb |].
    simpl in Hmain. injection Hmain as <- <-.
    right. right. apply in_or_app. now left.
  - unfold bind at 1 in Hmain. unfold bind at 1 in Hmain.
    rewrite print_ranking_lines in Hmain. injection Hmain as <- <-.
    exfalso. cbn [app] in Hlast.
    destruct ranked as [| p ranked _] using rev_ind.
    + cbn [List.length seq combine map] in Hlast.
      rewrite last_two_app in Hlast. discriminate.
    + rewrite length_app, Nat.add_comm in Hlast. cbn [List.length Nat.add] in Hlast.
      rewrite seq_S, combine_snoc, map_app in Hlast by now rewrite length_seq.
      cbn [combine map] in Hlast.
      rewrite last_two_app_cons_app in Hlast.
      injection Hlast as Hline.
      pose proof (ranking_line_ends console (List.length ranked) p) as Hend.
      cbn [fst snd] in Hline. rewrite Hline in Hend. discriminate.
  - simpl in Hmain. injection Hmain as <- <-.
    replace (t' ++ [ModelPredict X])%list with (t' ++ [ModelPredict X] ++ [])%list in Hlast
      by now rewrite app_nil_r.
    rewrite app_nil_r in Hlast. rewrite last_two_app in Hlast. discriminate.
Qed.

Lemma printed_lines_In line trace :
  In (Printed line) trace -> In line (Trace.printed_lines trace).
Proof.
  induction trace as [| ev rest IH]; [easy |].
  intros [-> | H]; [now left |].
  destruct ev; simpl; auto.
Qed.

(** X16. What [check_cache] prints for a pitcher's identifier foretells
    [get_pitcher_profile]: after the cache size it reports either the number
    of the identifier's rows or, for a null or zero identifier, that there is
    none to check, and the profile falls back to the league average exactly
    in that case or when the reported number is zero. *)
Theorem check_cache_foretells_fallback (w : World) (df : DataFrame) (name : string)
    (pid : option Z) (trace : list Effect) :
  cache_file w = Some df ->
  get_player_id w name = (Returned pid, trace) ->
  let id := match pid with Some k => k | None => 0 end in
  let count := List.length (filter (fun r => pitcher r =? id) df) in
  DebugLookup.check_cache w pid DebugLookup.RolePitcher =
    (Returned tt,
     [Printed ("Cache size: " ++ show_int (Z.of_nat (List.length df)) ++ " rows");
      Printed (if truthy pid
               then "ID " ++ show_int id ++ " found " ++ show_int (Z.of_nat count)
                    ++ " times in pitcher column."
               else "No ID to check.")])
  /\ (In (Printed ("Pitcher " ++ name ++ " not found in cache. Using league average."))
         (snd (get_pitcher_profile w name))
      <-> truthy pid = false \/ count = 0%nat).
Proof.
  intros Hc Hid id count. split.
  - unfold DebugLookup.check_cache. rewrite Hc.
    destruct (truthy pid); reflexivity.
  - pose proof (FoundProfileFacts.get_player_id_prints_nothing _ _ _ _ Hid) as Hquiet.
    assert (Hno : forall line, ~ In (Printed line) trace).
    { intros line Hin. apply printed_lines_In in Hin. now rewrite Hquiet in Hin. }
    unfold get_pitcher_profile. rewrite Hc, Hid. unfold bind at 1.
    destruct (truthy pid) eqn:Ht.
    + fold id. subst count.
      destruct (filter (fun r => pitcher r =? id) df) as [| first_row rest] eqn:Hf.
      * unfold print, emit, bind, ret. cbn [snd]. split; [auto |].
        intros _. apply in_or_app. right. now left.
      * cbn [ret snd]. rewrite app_nil_r. split.
        -- intros Hin. now apply Hno in Hin.
        -- intros [H | H]; discriminate.
    + unfold print, emit, bind, ret. cbn [snd]. split; [auto |].
      intros _. apply in_or_app. right. now left.
Qed.

End MainFacts.

(** ** The further properties on the concrete session *)

Module SessionFacts.
Import DataLoader Lookup Optimizer PyFormat Main Loader.
Import Scenario Session.

Lemma get_player_id_asks_first_and_rest_witness :
  get_player_id full_world " Aaron Judge " =
    (Returned (Some judge), [PlayerIdLookup "Judge" "Aaron"]).
Proof.
  refine (proj2 (proj2 (proj2
            (NamePartsFacts.get_player_id_asks_first_and_rest full_world " Aaron Judge " _)))).
  simpl. lia.
Defined.

Lemma debug_lookup_agrees_with_get_player_id_witness :
  fst (DebugLookup.debug_lookup (fun _ => "failure") full_world "Judge" "Aaron")
    = fst (get_player_id full_world "Aaron Judge")
  /\ fst (DebugLookup.debug_lookup (fun _ => "failure") interrupted_world "Judge" "Aaron")
     = Raised KeyboardInterrupt
  /\ fst (get_player_id interrupted_world "Aaron Judge") = Returned None.
Proof.
  split.
  - refine (proj1 (proj2 (proj2 (proj2
             (DebugLookupFacts.debug_lookup_agrees_with_get_player_id
                (fun _ => "failure") full_world "Judge" "Aaron" _ _ _ _)))) _);
      try reflexivity; discriminate.
  - refine (proj2 (proj2 (proj2 (proj2
             (DebugLookupFacts.debug_lookup_agrees_with_get_player_id
                (fun _ => "failure") interrupted_world "Judge" "Aaron" _ _ _ _))))
             KeyboardInterrupt _ _);
      try reflexivity; discriminate.
Defined.

Lemma pitcher_profile_of_known_pitcher_witness :
  exists first_row rest,
    filter (fun r => pitcher r =? cole) three_row_history = first_row :: rest
    /\ get_pitcher_profile full_world "Gerrit Cole" =
         (Returned (Some {| pp_release_speed :=
                              plain_mean (map release_speed (first_row :: rest));
                            pp_release_spin_rate :=
                              plain_mean (map release_spin_rate (first_row :: rest));
                            pp_p_throws := handedness (p_throws first_row) |}),
          [PlayerIdLookup "Cole" "Gerrit"])
    /\ (handedness (p_throws first_row) = 0 \/ handedness (p_throws first_row) = 1)
    /\ Trace.printed_lines [PlayerIdLookup "Cole" "Gerrit"] = [].
Proof.
  apply (FoundProfileFacts.pitcher_profile_of_known_pitcher full_world three_row_history
           "Gerrit Cole" cole [PlayerIdLookup "Cole" "Gerrit"]).
  - reflexivity.
  - reflexivity.
  - discriminate.
  - simpl. auto.
Defined.

Lemma batter_profile_from_derived_stats_witness :
  exists pid profile trace,
    fst (get_player_id full_world "Aaron Judge") = Returned pid
    /\ get_batter_profile full_world "Aaron Judge" = (Returned (Some profile), trace)
    /\ (bp_avg profile <=? bp_slg profile)%float = true
    /\ (forall k, pid = Some k -> k <> 0 -> In k (map batter three_row_history) ->
        exists first_row rest,
          group_of three_row_history k = first_row :: rest
          /\ profile = {| bp_stand := handedness (stand first_row);
                          bp_avg := avg (get_stats (group_of three_row_history k));
                          bp_slg := slg (get_stats (group_of three_row_history k));
                          bp_iso := iso (get_stats (group_of three_row_history k)) |})
    /\ (truthy pid = false
        \/ (forall k, pid = Some k -> ~ In k (map batter three_row_history)) ->
        profile = default_batter_profile).
Proof.
  apply (FoundProfileFacts.batter_profile_from_derived_stats full_world three_row_history
           "Aaron Judge").
  - reflexivity.
  - reflexivity.
  - simpl. lia.
Defined.

Lemma pitcher_not_found_without_cache_witness :
  optimize_lineup world_without_cache "Gerrit Cole" lineup =
    (Returned (ErrorMessage "Pitcher Gerrit Cole not found (or no data available)."),
     [LoadModel; LoadScaler]).
Proof.
  apply (OptimizerRunFacts.pitcher_not_found_without_cache world_without_cache
           "Gerrit Cole" lineup four_probabilities unit_scaler); reflexivity.
Defined.

Lemma no_batter_without_stats_file_witness :
  exists pitcher_trace,
    optimize_lineup world_without_batter_stats "Gerrit Cole" lineup =
      (Returned (ErrorMessage "No valid batters found."),
       ([LoadModel; LoadScaler] ++ pitcher_trace
        ++ [Printed "Optimizing lineup against Gerrit Cole..."]
        ++ map (fun b => Printed ("Batter " ++ b ++ " not found.")) lineup)%list)
    /\ no_predict pitcher_trace = true
    /\ Trace.model_calls pitcher_trace = [].
Proof.
  apply (OptimizerRunFacts.no_batter_without_stats_file world_without_batter_stats
           "Gerrit Cole" lineup four_probabilities unit_scaler three_row_history);
    reflexivity.
Defined.

Lemma one_prediction_call_per_run_witness :
  exists pitcher_stats profiles before outcome,
    let X := map (feature_row pitcher_stats) profiles in
    let predictions := four_probabilities (unit_scaler X) in
    fst (get_pitcher_profile full_world "Gerrit Cole") = Returned (Some pitcher_stats)
    /\ List.length profiles = List.length lineup
    /\ no_predict before = true
    /\ Trace.model_calls before = []
    /\ optimize_lineup full_world "Gerrit Cole" lineup =
         (outcome, (before ++ [ScalerTransform X; ModelPredict (unit_scaler X)])%list)
    /\ ((List.length lineup <= List.length predictions)%nat ->
        exists results,
          outcome = Returned (Ranking results)
          /\ List.length results = List.length lineup
          /\ Permutation results
               (map to_prediction
                  (combine lineup (firstn (List.length lineup) predictions))))
    /\ ((List.length predictions < List.length lineup)%nat ->
        outcome = Raised IndexError).
Proof.
  apply (OptimizerRunFacts.one_prediction_call_per_run full_world "Gerrit Cole" lineup
           four_probabilities unit_scaler three_row_history
           (calculate_batter_stats three_row_history)).
  - reflexivity.
  - reflexivity.
  - reflexivity.
  - reflexivity.
  - discriminate.
Defined.

Lemma aggregates_in_range_witness :
  let s := {| avg := 0.5%float; slg := 0.5%float; iso := 0%float |} in
  (0 <=? avg s)%float = true /\ (avg s <=? 1)%float = true
  /\ (0 <=? slg s)%float = true /\ (slg s <=? 4)%float = true
  /\ (0 <=? iso s)%float = true.
Proof.
  apply (AggregateRangeFacts.aggregates_in_range three_row_history judge
           {| avg := 0.5%float; slg := 0.5%float; iso := 0%float |}).
  - simpl. lia.
  - reflexivity.
Defined.


Lemma fetch_data_caches_witness :
  exists shown after,
    fetch_data empty_directory "2024-04-01" "2024-07-01"
      = (Returned three_row_history, shown, after)
    /\ In (StatcastRequest "2024-04-01" "2024-07-01") shown
    /\ shown = [Shown "Fetching Statcast data from 2024-04-01 to 2024-07-01...";
                StatcastRequest "2024-04-01" "2024-07-01";
                Shown "Data saved to statcast_2024_sample.csv"]
    /\ cache_file (ws_world after) = Some three_row_history
    /\ forall later_start later_end,
         fetch_data after later_start later_end =
           (Returned three_row_history,
            [Shown "Loading data from statcast_2024_sample.csv..."], after).
Proof.
  apply (proj1 (LoaderFacts.fetch_data_caches empty_directory "2024-04-01" "2024-07-01"
                  eq_refl)).
  reflexivity.
Defined.

Lemma loader_script_enables_profiles_witness :
  let fetched := snd (fetch_data empty_directory "2024-04-01" "2024-07-01") in
  let w := ws_world (snd (preprocess_data fetched three_row_history)) in
  cache_file w = Some three_row_history
  /\ batter_stats_file w = Some (calculate_batter_stats three_row_history)
  /\ forall name, exists profile trace,
       get_batter_profile w name = (Returned (Some profile), trace).
Proof.
  apply (LoaderFacts.loader_script_enables_profiles empty_directory
           "2024-04-01" "2024-07-01" three_row_history
           (snd (fst (fetch_data empty_directory "2024-04-01" "2024-07-01")))
           (snd (fetch_data empty_directory "2024-04-01" "2024-07-01"))).
  reflexivity.
Defined.

Lemma parse_batters_one_name_per_comma_witness :
  parse_batters " Aaron Judge " = ["Aaron Judge"].
Proof.
  apply (proj2 (proj2 (MainFacts.parse_batters_one_name_per_comma " Aaron Judge "))).
  simpl. intros H. repeat (destruct H as [H | H]; [discriminate H |]). exact H.
Defined.

Lemma main_ranks_every_name_witness :
  exists ranked before,
    Permutation (map mp_batter ranked) ["Aaron Judge"; "Juan Soto"]
    /\ optimize_lineup trained_world "Gerrit Cole" ["Aaron Judge"; "Juan Soto"]
       = (Returned (Ranking ranked), before)
    /\ main console trained_world argv =
         (Returned tt,
          (Printed welcome
           :: Printed (newline ++ "Optimizing lineup against Gerrit Cole...")
           :: before
           ++ Printed optimal_lineup
           :: map (fun ip => Printed (ranking_line console (fst ip) (snd ip)))
                (combine (seq 0 (List.length ranked)) ranked))%list).
Proof.
  apply (MainFacts.main_ranks_every_name console trained_world argv even_odds unit_scaler
           three_row_history (calculate_batter_stats three_row_history)).
  - reflexivity.
  - reflexivity.
  - reflexivity.
  - reflexivity.
  - intros X. unfold even_odds, unit_scaler. now rewrite !length_map.
Defined.

Lemma main_no_valid_batters_names_a_batter_witness :
  exists b,
    In b ["Aaron Judge"; "Juan Soto"]
    /\ In (Printed ("Batter " ++ b ++ " not found."))
         (snd (main console world_without_batter_stats argv)).
Proof.
  apply (MainFacts.main_no_valid_batters_names_a_batter console world_without_batter_stats
           argv (fst (main console world_without_batter_stats argv))
           (snd (main console world_without_batter_stats argv))).
  - reflexivity.
  - reflexivity.
Defined.

Lemma check_cache_foretells_fallback_witness :
  DebugLookup.check_cache full_world (Some cole) DebugLookup.RolePitcher =
    (Returned tt,
     [Printed "Cache size: 3 rows";
      Printed "ID 543037 found 3 times in pitcher column."])
  /\ (In (Printed "Pitcher Gerrit Cole not found in cache. Using league average.")
         (snd (get_pitcher_profile full_world "Gerrit Cole"))
      <-> truthy (Some cole) = false
          \/ List.length (filter (fun r => pitcher r =? cole) three_row_history) = 0%nat).
Proof.
  apply (MainFacts.check_cache_foretells_fallback full_world three_row_history
           "Gerrit Cole" (Some cole) [PlayerIdLookup "Cole" "Gerrit"]).
  - reflexivity.
  - reflexivity.
Defined.

End SessionFacts.
